(** * Lynx web server: the per-connection request pipeline of [server.py]

    A shallow embedding of [http_response], [parse_request],
    [sanitize_path], [handle_directory] and [handle_client], together with
    the parts of the Python library they call ([str] methods, [posixpath],
    [ntpath], [urllib.parse]).

    Conventions.
    - A Python [str] is a list of characters; the characters are the code
      points below 256, so the model is exact on ASCII and Latin-1 text
      (the one departure is noted at [Urllib.unquote]).  [bytes] values
      are lists of 8-bit characters as well.
    - [os.path] is [posixpath] on a POSIX host and [ntpath] on Windows.
      [sanitize_path] is given for both ([sanitize_path_on]); the handler
      is the one of a POSIX host.
    - A name that [os.listdir] returns is a text, or [Undecodable] when
      it holds surrogate escapes and so cannot be encoded.
    - The module globals [WEB_ROOT], [config] and [plugin_hooks], the file
      system and the host's MIME table are the fields of a [World].
    - [handle_client] returns the trace of what it does to the outside:
      hook invocations, file-system calls, writes on the connection. *)

From Stdlib Require Import Ascii String List Bool Arith Lia DecimalString.
Import ListNotations.

(** ** Python strings *)

Definition str := list ascii.
Definition bytes := list ascii.

(** A literal. *)
Definition py (s : string) : str := list_ascii_of_string s.

Module Str.

Fixpoint eqb (a b : str) : bool :=
  match a, b with
  | [], [] => true
  | x :: a', y :: b' => Ascii.eqb x y && eqb a' b'
  | _, _ => false
  end.

(** [x.startswith(pre)] *)
Fixpoint startswith (pre x : str) : bool :=
  match pre, x with
  | [], _ => true
  | p :: pre', c :: x' => Ascii.eqb p c && startswith pre' x'
  | _ :: _, [] => false
  end.

(** [sub in x] *)
Fixpoint contains (sub x : str) : bool :=
  startswith sub x ||
  match x with
  | [] => false
  | _ :: x' => contains sub x'
  end.

(** [x in xs] for a list of strings. *)
Definition mem (x : str) (xs : list str) : bool := existsb (eqb x) xs.

(** [x.split(sep)] for a non-empty separator: the occurrences of [sep]
    are found left to right and do not overlap; [skip] counts the
    characters of the occurrence being stepped over. *)
Fixpoint split_go (sep : str) (skip : nat) (x : str) : list str :=
  match x with
  | [] => [[]]
  | c :: x' =>
      match skip with
      | S k => split_go sep k x'
      | O =>
          if startswith sep x
          then [] :: split_go sep (length sep - 1) x'
          else match split_go sep 0 x' with
               | h :: t => (c :: h) :: t
               | [] => [[c]]
               end
      end
  end.

Definition split (sep x : str) : list str := split_go sep 0 x.

(** The first occurrence of [sep]: what is before it and what is after. *)
Fixpoint partition (sep x : str) : option (str * str) :=
  if startswith sep x then Some ([], skipn (length sep) x)
  else match x with
       | [] => None
       | c :: x' =>
           match partition sep x' with
           | Some (b, a) => Some (c :: b, a)
           | None => None
           end
       end.

(** [x.split(sep, 1)] *)
Definition split1 (sep x : str) : list str :=
  match partition sep x with
  | Some (b, a) => [b; a]
  | None => [x]
  end.

(** [sep.join(xs)] *)
Fixpoint join (sep : str) (xs : list str) : str :=
  match xs with
  | [] => []
  | [x] => x
  | x :: xs' => x ++ sep ++ join sep xs'
  end.

(** [str.isspace] on one character: the code points below 256 that
    CPython lists as whitespace. *)
Definition isspace (c : ascii) : bool :=
  let n := nat_of_ascii c in
  ((9 <=? n) && (n <=? 13)) || ((28 <=? n) && (n <=? 32))
  || (n =? 133) || (n =? 160).

(** [x.split()]: the maximal runs of non-whitespace; [cur] is the run
    being read, reversed. *)
Fixpoint split_ws_go (cur : str) (x : str) : list str :=
  match x with
  | [] => match cur with [] => [] | _ => [rev cur] end
  | c :: x' =>
      if isspace c
      then match cur with
           | [] => split_ws_go [] x'
           | _ => rev cur :: split_ws_go [] x'
           end
      else split_ws_go (c :: cur) x'
  end.

Definition split_ws (x : str) : list str := split_ws_go [] x.

(** [x.lstrip(chars)] with [chars] given as a predicate. *)
Fixpoint lstrip_by (p : ascii -> bool) (x : str) : str :=
  match x with
  | c :: x' => if p c then lstrip_by p x' else x
  | [] => []
  end.

(** [x.lstrip("/")] and the like. *)
Definition lstrip (c : ascii) (x : str) : str := lstrip_by (Ascii.eqb c) x.

(** [x.strip()] *)
Definition strip (x : str) : str :=
  rev (lstrip_by isspace (rev (lstrip_by isspace x))).

(** [x.lower()] on the code points below 256: A-Z and the Latin-1
    capitals (U+00C0..U+00DE without the multiplication sign). *)
Definition lower_chr (c : ascii) : ascii :=
  let n := nat_of_ascii c in
  if ((65 <=? n) && (n <=? 90))
     || ((192 <=? n) && (n <=? 222) && negb (n =? 215))
  then ascii_of_nat (n + 32) else c.

Definition lower (x : str) : str := map lower_chr x.

(** [x.replace(a, b)] for one-character [a] and [b]. *)
Definition replace (a b : ascii) (x : str) : str :=
  map (fun c => if Ascii.eqb c a then b else c) x.

(** [str(n)] for a non-negative integer. *)
Definition of_nat (n : nat) : str := py (NilZero.string_of_uint (Nat.to_uint n)).

(** [x.encode()]: UTF-8, which has one or two bytes for a code point
    below 256. *)
Definition encode (x : str) : bytes :=
  flat_map (fun c =>
              let n := nat_of_ascii c in
              if n <? 128 then [c]
              else [ascii_of_nat (192 + n / 64); ascii_of_nat (128 + n mod 64)])
           x.

End Str.

(** The line terminator of the wire format. *)
Definition CRLF : str := ["013"%char; "010"%char].

(** ** [posixpath] *)

Module Posixpath.

Definition sep : str := py "/".
Definition curdir : str := py ".".
Definition pardir : str := py "..".

Definition is_nil {A : Type} (l : list A) : bool :=
  match l with [] => true | _ => false end.

Definition endswith (suf x : str) : bool := Str.startswith (rev suf) (rev x).

Definition isabs (p : str) : bool := Str.startswith sep p.

(** [os.path.join(a, b)] *)
Definition join (a b : str) : str :=
  if Str.startswith sep b then b
  else if is_nil a || endswith sep a then a ++ b
  else a ++ sep ++ b.

(** One round of the loop of [normpath] over the components:
    [new_comps] is the list built so far. *)
Definition norm_step (initial_slashes : nat) (new_comps : list str) (comp : str)
  : list str :=
  if Str.eqb comp [] || Str.eqb comp curdir then new_comps
  else if negb (Str.eqb comp pardir)
          || ((initial_slashes =? 0) && is_nil new_comps)
          || (negb (is_nil new_comps) && Str.eqb (last new_comps []) pardir)
       then new_comps ++ [comp]
       else removelast new_comps.

(** [os.path.normpath(path)] *)
Definition normpath (path : str) : str :=
  match path with
  | [] => curdir
  | _ =>
      let initial_slashes :=
        if Str.startswith sep path
        then if Str.startswith (sep ++ sep) path
                && negb (Str.startswith (sep ++ sep ++ sep) path)
             then 2 else 1
        else 0 in
      let comps := Str.split sep path in
      let new_comps := fold_left (norm_step initial_slashes) comps [] in
      let path' := concat (repeat sep initial_slashes) ++ Str.join sep new_comps in
      match path' with
      | [] => curdir
      | _ => path'
      end
  end.

(** [os.path.abspath(path)], in the working directory [cwd]. *)
Definition abspath (cwd path : str) : str :=
  normpath (if isabs path then path else join cwd path).

(** The longest common prefix of two lists of components
    ([os.path.commonprefix] on two lists). *)
Fixpoint commonprefix (a b : list str) : list str :=
  match a, b with
  | x :: a', y :: b' => if Str.eqb x y then x :: commonprefix a' b' else []
  | _, _ => []
  end.

(** [os.path.relpath(path, start)]; it raises [ValueError] on an empty
    path. *)
Definition relpath (cwd path start : str) : option str :=
  match path with
  | [] => None
  | _ =>
      let nonempty := filter (fun x => negb (is_nil x)) in
      let start_list := nonempty (Str.split sep (abspath cwd start)) in
      let path_list := nonempty (Str.split sep (abspath cwd path)) in
      let i := List.length (commonprefix start_list path_list) in
      let rel_list :=
        repeat pardir (List.length start_list - i) ++ skipn i path_list in
      match rel_list with
      | [] => Some curdir
      | _ => Some (Str.join sep rel_list)
      end
  end.

End Posixpath.

(** ** [ntpath]

    [os.path] on Windows, as [ntpath.py] of CPython 3.11 has it (the
    functions written in Python; on Windows [normpath] is done by a native
    routine that agrees with them on the paths used below). *)

Module Ntpath.

Definition sep : str := py "\".
Definition curdir : str := py ".".
Definition pardir : str := py "..".
Definition colon : str := py ":".

(** [c in seps] *)
Definition is_sep (c : ascii) : bool := Ascii.eqb c "\"%char || Ascii.eqb c "/"%char.

(** [p.replace(altsep, sep)] *)
Definition backslashes (p : str) : str := Str.replace "/"%char "\"%char p.

(** [x.find(c, start)] for one character. *)
Fixpoint find_chr (c : ascii) (start : nat) (x : str) : option nat :=
  match x with
  | [] => None
  | a :: x' =>
      match start with
      | S k => option_map S (find_chr c k x')
      | O => if Ascii.eqb a c then Some 0 else option_map S (find_chr c 0 x')
      end
  end.

(** [x.upper()] on the ASCII letters.  It is used for one comparison,
    with an ASCII text: a character outside ASCII never becomes an ASCII
    character in upper case, so leaving it as it is decides the
    comparison the same way. *)
Definition upper_ascii (c : ascii) : ascii :=
  let n := nat_of_ascii c in
  if (97 <=? n) && (n <=? 122) then ascii_of_nat (n - 32) else c.

Definition unc_prefix : str := py "\\?\UNC\".

(** [os.path.splitdrive(p)] *)
Definition splitdrive (p : str) : str * str :=
  if 2 <=? List.length p
  then
    let normp := backslashes p in
    if Str.eqb (firstn 2 normp) (sep ++ sep)
    then
      let start := if Str.eqb (map upper_ascii (firstn 8 normp)) unc_prefix then 8 else 2 in
      match find_chr "\"%char start normp with
      | None => (p, [])
      | Some index =>
          match find_chr "\"%char (index + 1) normp with
          | None => (p, [])
          | Some index2 => (firstn index2 p, skipn index2 p)
          end
      end
    else if Str.eqb (firstn 1 (skipn 1 normp)) colon
         then (firstn 2 p, skipn 2 p)
         else ([], p)
  else ([], p).

(** One round of the loop of [normpath] over the components: [comps] is
    the part of the list already gone through. *)
Definition norm_step (prefix : str) (comps : list str) (comp : str) : list str :=
  if Posixpath.is_nil comp || Str.eqb comp curdir then comps
  else if Str.eqb comp pardir
       then if negb (Posixpath.is_nil comps) && negb (Str.eqb (last comps []) pardir)
            then removelast comps
            else if Posixpath.is_nil comps && Posixpath.endswith sep prefix
                 then comps
                 else comps ++ [comp]
       else comps ++ [comp].

(** [os.path.normpath(path)] *)
Definition normpath (path : str) : str :=
  let path := backslashes path in
  let (prefix, path) := splitdrive path in
  let (prefix, path) :=
    if Str.startswith sep path
    then (prefix ++ sep, Str.lstrip "\"%char path)
    else (prefix, path) in
  let comps := fold_left (norm_step prefix) (Str.split sep path) [] in
  let comps := if Posixpath.is_nil prefix && Posixpath.is_nil comps then [curdir] else comps in
  prefix ++ Str.join sep comps.

(** [result_path + sep + p_path], without the [sep] when [result_path] is
    empty or ends with a separator. *)
Definition extend (result_path p_path : str) : str :=
  (if negb (Posixpath.is_nil result_path) && negb (is_sep (last result_path "\"%char))
   then result_path ++ sep
   else result_path)
  ++ p_path.

(** [os.path.join(path, p)] *)
Definition join (path p : str) : str :=
  let (result_drive, result_path) := splitdrive path in
  let (p_drive, p_path) := splitdrive p in
  let (result_drive, result_path) :=
    if match p_path with c :: _ => is_sep c | [] => false end
    then ((if negb (Posixpath.is_nil p_drive) || Posixpath.is_nil result_drive
           then p_drive else result_drive),
          p_path)
    else if negb (Posixpath.is_nil p_drive) && negb (Str.eqb p_drive result_drive)
         then if negb (Str.eqb (Str.lower p_drive) (Str.lower result_drive))
              then (p_drive, p_path)
              else (p_drive, extend result_path p_path)
         else (result_drive, extend result_path p_path) in
  if match result_path with c :: _ => negb (is_sep c) | [] => false end
     && negb (Posixpath.is_nil result_drive)
     && negb (Posixpath.endswith colon result_drive)
  then result_drive ++ sep ++ result_path
  else result_drive ++ result_path.

End Ntpath.

(** ** [urllib.parse] *)

Module Urllib.

Definition hexval (c : ascii) : option nat :=
  let n := nat_of_ascii c in
  if (48 <=? n) && (n <=? 57) then Some (n - 48)
  else if (65 <=? n) && (n <=? 70) then Some (n - 55)
  else if (97 <=? n) && (n <=? 102) then Some (n - 87)
  else None.

(** [unquote(s)]: every [%XX] with two hexadecimal digits becomes the
    byte it names, and a [%] that is not followed by two such digits
    stays.  The byte is kept as one character; CPython goes on to decode
    the bytes as UTF-8 (replacing what is not valid), which differs from
    this only on escapes of 0x80 and above and never adds or removes an
    ASCII character. *)
Fixpoint unquote (s : str) : str :=
  match s with
  | [] => []
  | c :: s' =>
      if Ascii.eqb c "%"%char
      then match s' with
           | h1 :: h2 :: s'' =>
               match hexval h1, hexval h2 with
               | Some a, Some b => ascii_of_nat (16 * a + b) :: unquote s''
               | _, _ => c :: unquote s'
               end
           | _ => c :: unquote s'
           end
      else c :: unquote s'
  end.

(** [unquote_plus(s)] *)
Definition unquote_plus (s : str) : str :=
  unquote (Str.replace "+"%char " "%char s).

(** [parse_qsl(qs)] with its defaults: fields are separated by [&],
    a field without [=] or with an empty value is dropped. *)
Definition parse_qsl (qs : str) : list (str * str) :=
  flat_map
    (fun name_value =>
       match name_value with
       | [] => []
       | _ =>
           match Str.split1 (py "=") name_value with
           | [name; value] =>
               match value with
               | [] => []
               | _ => [(unquote_plus name, unquote_plus value)]
               end
           | _ => []
           end
       end)
    (Str.split (py "&") qs).

(** [parsed_result[name].append(value)], or a new entry at the end. *)
Fixpoint dict_append (d : list (str * list str)) (name value : str)
  : list (str * list str) :=
  match d with
  | [] => [(name, [value])]
  | (k, vs) :: d' =>
      if Str.eqb k name then (k, vs ++ [value]) :: d'
      else (k, vs) :: dict_append d' name value
  end.

(** [parse_qs(qs)]: a dict, as the list of its items in insertion
    order. *)
Definition parse_qs (qs : str) : list (str * list str) :=
  fold_left (fun d nv => dict_append d (fst nv) (snd nv)) (parse_qsl qs) [].

End Urllib.

(** ** [repr] of what [parse_qs] returns *)

Module Repr.

Definition quote1 : ascii := "'"%char.
Definition quote2 : ascii := "034"%char.
Definition backslash : ascii := "\"%char.

Definition hexdigit (n : nat) : ascii :=
  if n <? 10 then ascii_of_nat (48 + n) else ascii_of_nat (87 + n).

(** What [repr] writes for one character inside the quotes [q]. *)
Definition escape (q : ascii) (c : ascii) : str :=
  let n := nat_of_ascii c in
  if Ascii.eqb c q || Ascii.eqb c backslash then [backslash; c]
  else if n =? 9 then py "\t"
  else if n =? 10 then py "\n"
  else if n =? 13 then py "\r"
  else if (n <? 32) || (n =? 127) || ((128 <=? n) && (n <=? 160)) || (n =? 173)
       then py "\x" ++ [hexdigit (n / 16); hexdigit (n mod 16)]
       else [c].

(** [repr(s)] for a string: double quotes only when it holds a single
    quote and no double quote. *)
Definition of_str (s : str) : str :=
  let q := if Str.contains [quote1] s && negb (Str.contains [quote2] s)
           then quote2 else quote1 in
  [q] ++ flat_map (escape q) s ++ [q].

Definition of_list (l : list str) : str :=
  py "[" ++ Str.join (py ", ") (map of_str l) ++ py "]".

Definition of_dict (d : list (str * list str)) : str :=
  py "{"
  ++ Str.join (py ", ") (map (fun kv => of_str (fst kv) ++ py ": " ++ of_list (snd kv)) d)
  ++ py "}".

End Repr.

(** ** Requests, responses, configuration *)

Record Request := mkRequest {
  req_method : str;
  req_path : str;
  req_version : str;
  req_headers : list (str * str);
  req_body : str
}.

Record Response := mkResponse {
  status : nat;
  headers : list (str * str);
  body : bytes
}.

(** The keys of [config] that the handler reads.  [favicon] is [None] for
    a JSON [null]. *)
Record Config := mkConfig {
  ip_whitelist_enabled : bool;
  ip_whitelist : list str;
  browsable_dirs : list str;
  favicon : option str
}.

Definition default_config : Config :=
  {| ip_whitelist_enabled := false;
     ip_whitelist := [py "127.0.0.1"];
     browsable_dirs := [py "/"];
     favicon := Some (py "/favicon.ico") |}.

(** ** HTTP helpers *)

Definition reasons (status : nat) : str :=
  if status =? 200 then py "OK"
  else if status =? 404 then py "Not Found"
  else if status =? 400 then py "Bad Request"
  else if status =? 500 then py "Internal Server Error"
  else if status =? 403 then py "Forbidden"
  else py "OK".

Definition http_response (status : nat) (headers : list (str * str)) (body : bytes)
  : bytes :=
  let reason := reasons status in
  let header_lines :=
    [py "HTTP/1.1 " ++ Str.of_nat status ++ py " " ++ reason]
    ++ map (fun kv => fst kv ++ py ": " ++ snd kv) headers
    ++ [[]; []] in
  Str.encode (Str.join CRLF header_lines) ++ body.

(** [headers[key] = value] on a dict kept as the list of its items. *)
Fixpoint dict_set (d : list (str * str)) (key value : str) : list (str * str) :=
  match d with
  | [] => [(key, value)]
  | (k, v) :: d' =>
      if Str.eqb k key then (k, value) :: d' else (k, v) :: dict_set d' key value
  end.

(** The loop of [parse_request] over the lines after the request line. *)
Fixpoint parse_headers (lines : list str) (headers : list (str * str))
  : list (str * str) :=
  match lines with
  | [] => headers
  | line :: lines' =>
      match line with
      | [] => headers
      | _ =>
          match Str.split1 (py ":") line with
          | [key; value] =>
              parse_headers lines' (dict_set headers (Str.lower (Str.strip key)) (Str.strip value))
          | _ => parse_headers lines' headers
          end
      end
  end.

(** [parse_request(data)]; [None] is the [except: return None]. *)
Definition parse_request (data : str) : option Request :=
  match Str.split CRLF data with
  | [] => None
  | line0 :: lines =>
      match Str.split_ws line0 with
      | [method; path; version] =>
          let headers := parse_headers lines [] in
          if Str.eqb method (py "POST") && Str.contains (CRLF ++ CRLF) data
          then match Str.split1 (CRLF ++ CRLF) data with
               | _ :: body :: _ =>
                   Some (mkRequest method path version headers body)
               | _ => None
               end
          else Some (mkRequest method path version headers [])
      | _ => None
      end
  end.

(** ** Effects *)

(** What a callback does when it is called: it may change the dicts it is
    given in place ([hk_after] is their content when it stops), write on
    the connection through [request["client"]], and raise. *)
Record HookRun (S : Type) := mkHookRun {
  hk_after : S;
  hk_written : list bytes;
  hk_raised : bool
}.

Arguments mkHookRun {S}.
Arguments hk_after {S}.
Arguments hk_written {S}.
Arguments hk_raised {S}.

Record BeforeHook := mkBeforeHook {
  bh_name : str;
  bh_call : Request -> HookRun Request
}.

Record AfterHook := mkAfterHook {
  ah_name : str;
  ah_call : Request -> Response -> HookRun (Request * Response)
}.

(** A name as [os.listdir] gives it.  A name whose bytes are not valid in
    the encoding of the file system comes back with surrogate escapes, and
    a text that holds such a name cannot be encoded: [str.encode()] raises
    on it.  That is all the handler can observe of such a name, so it has
    no content here. *)
Inductive filename : Type :=
| Text (name : str)
| Undecodable.

(** The module globals and the machine the server runs on. *)
Record World := mkWorld {
  BASE_DIR : str;
  cwd : str;
  config : Config;
  before_request : list BeforeHook;
  after_request : list AfterHook;
  isfile : str -> bool;
  isdir : str -> bool;
  read : str -> option bytes;           (* [open(p, "rb").read()], [None] when it raises *)
  listdir : str -> option (list filename);  (* [os.listdir(p)], [None] when it raises *)
  guess_type : str -> option str        (* first component of [mimetypes.guess_type(p)] *)
}.

Definition WEB_ROOT (w : World) : str := Posixpath.join (BASE_DIR w) (py "root").

Inductive event : Type :=
| EvBefore (name : str) (request : Request)
| EvAfter (name : str) (request : Request) (response : Response)
| EvWrite (raw : bytes)
| EvIsFile (p : str)
| EvIsDir (p : str)
| EvOpen (p : str)
| EvListDir (p : str)
| EvSend (response : Response)
| EvClose.

(** How a block of statements ends: it falls through with a value, it
    executes [return], or an exception leaves it. *)
Inductive result (A : Type) : Type :=
| Ok (a : A)
| Returned
| Raised.

Arguments Ok {A} a.
Arguments Returned {A}.
Arguments Raised {A}.

Definition M (A : Type) : Type := (list event * result A)%type.

Definition ret {A : Type} (a : A) : M A := ([], Ok a).

Definition bind {A B : Type} (m : M A) (k : A -> M B) : M B :=
  match m with
  | (t, Ok a) => let (t', r) := k a in (t ++ t', r)
  | (t, Returned) => (t, Returned)
  | (t, Raised) => (t, Raised)
  end.

Notation "x <- m ;; k" := (bind m (fun x => k))
  (at level 61, m at next level, right associativity).
Notation "m ;; k" := (bind m (fun _ => k))
  (at level 61, right associativity).

Definition emit (e : event) : M unit := ([e], Ok tt).
Definition return_ {A : Type} : M A := ([], Returned).
Definition raise {A : Type} : M A := ([], Raised).

(** [try: m except: handler] *)
Definition try_except {A : Type} (m handler : M A) : M A :=
  match m with
  | (t, Raised) => let (t', r) := handler in (t ++ t', r)
  | _ => m
  end.

(** What [sanitize_path] uses of [os.path]. *)
Record OsPath := mkOsPath {
  os_normpath : str -> str;
  os_join : str -> str -> str
}.

Definition posixpath : OsPath :=
  {| os_normpath := Posixpath.normpath; os_join := Posixpath.join |}.

Definition ntpath : OsPath :=
  {| os_normpath := Ntpath.normpath; os_join := Ntpath.join |}.

(** [sanitize_path(path)], for the [os.path] of the host and the web
    root of the installation. *)
Definition sanitize_path_on (os_path : OsPath) (web_root path : str) : option str :=
  let path := Urllib.unquote_plus (hd [] (Str.split1 (py "?") path)) in
  let path := os_normpath os_path (Str.lstrip "/"%char path) in
  if Str.contains (py "..") path then None
  else Some (os_join os_path web_root path).

Section Handler.

Variable w : World.

Definition os_path_isfile (p : str) : M bool := ([EvIsFile p], Ok (isfile w p)).
Definition os_path_isdir (p : str) : M bool := ([EvIsDir p], Ok (isdir w p)).

Definition open_read (p : str) : M bytes :=
  emit (EvOpen p) ;;
  match read w p with
  | Some content => ret content
  | None => raise
  end.

Definition os_listdir (p : str) : M (list filename) :=
  emit (EvListDir p) ;;
  match listdir w p with
  | Some names => ret names
  | None => raise
  end.

(** [conn.sendall(http_response(status, headers, body))] *)
Definition send (status : nat) (headers : list (str * str)) (body : bytes) : M unit :=
  emit (EvSend (mkResponse status headers body)).

Definition content_length (body : bytes) : str * str :=
  (py "Content-Length", Str.of_nat (List.length body)).

(** [sanitize_path(path)] on a POSIX host. *)
Definition sanitize_path (path : str) : option str :=
  sanitize_path_on posixpath (WEB_ROOT w) path.

Definition anchor (fpath file : str) : str :=
  py "<li><a href=" ++ [Repr.quote2] ++ fpath ++ [Repr.quote2] ++ py ">"
  ++ file ++ py "</a></li>".

(** [listing] is [None] once a name with surrogate escapes has been added
    to it: [listing.encode()] raises on such a text, inside the [try]. *)
Definition handle_directory (path request_path : str) : M bytes :=
  let listing := Some (py "<html><body><h1>Directory listing</h1><ul>") in
  try_except
    (files <- os_listdir path ;;
     let listing :=
       fold_left
         (fun listing file =>
            match listing, file with
            | Some listing, Text file =>
                let fpath := Posixpath.join request_path file in
                Some (listing ++ anchor fpath file)
            | _, _ => None
            end)
         files listing in
     let listing := option_map (fun listing => listing ++ py "</ul></body></html>") listing in
     match listing with
     | Some listing => ret (Str.encode listing)
     | None => raise
     end)
    (ret (py "Error listing directory")).

(** [for hook in plugin_hooks["before_request"]: try: hook(request)
    except: pass] *)
Fixpoint run_before (hooks : list BeforeHook) (request : Request) : M Request :=
  match hooks with
  | [] => ret request
  | hook :: hooks' =>
      let run := bh_call hook request in
      try_except
        (emit (EvBefore (bh_name hook) request) ;;
         (map EvWrite (hk_written run), if hk_raised run then Raised else Ok tt))
        (ret tt) ;;
      run_before hooks' (hk_after run)
  end.

(** [for hook in plugin_hooks["after_request"]: try: hook(request,
    response) except: pass] *)
Fixpoint run_after (hooks : list AfterHook) (request : Request) (response : Response)
  : M Response :=
  match hooks with
  | [] => ret response
  | hook :: hooks' =>
      let run := ah_call hook request response in
      try_except
        (emit (EvAfter (ah_name hook) request response) ;;
         (map EvWrite (hk_written run), if hk_raised run then Raised else Ok tt))
        (ret tt) ;;
      run_after hooks' (fst (hk_after run)) (snd (hk_after run))
  end.

Definition forbidden : M unit :=
  let body := py "403 Forbidden" in
  send 403 [content_length body] body.

Definition not_found : M unit :=
  let body := py "404 Not Found" in
  send 404 [content_length body] body.

(** The favicon block: it returns after serving the icon and falls
    through otherwise. *)
Definition favicon_shortcut (request : Request) : M unit :=
  match favicon (config w) with
  | Some ((_ :: _) as fav) =>
      if Str.eqb (req_path request) (py "/favicon.ico")
      then match sanitize_path fav with
           | Some ((_ :: _) as favicon_path) =>
               found <- os_path_isfile favicon_path ;;
               if found
               then body <- open_read favicon_path ;;
                    send 200 [(py "Content-Type", py "image/x-icon"); content_length body] body ;;
                    return_
               else ret tt
           | _ => ret tt
           end
      else ret tt
  | _ => ret tt
  end.

(** [rel_path] of the directory block. *)
Definition rel_path_of (path : str) : option str :=
  match Posixpath.relpath (cwd w) path (WEB_ROOT w) with
  | Some rel => Some (py "/" ++ Str.replace "\"%char "/"%char rel)
  | None => None
  end.

(** The directory block: the path to go on with, which is the index
    file of a directory that has one. *)
Definition directory (path : str) : M str :=
  is_dir <- os_path_isdir path ;;
  if is_dir
  then let index_file := Posixpath.join path (py "index.html") in
       has_index <- os_path_isfile index_file ;;
       if has_index then ret index_file
       else match rel_path_of path with
            | None => raise
            | Some rel_path =>
                if negb (Str.mem rel_path (browsable_dirs (config w)))
                then forbidden ;; return_
                else body <- handle_directory path rel_path ;;
                     send 200 [(py "Content-Type", py "text/html"); content_length body] body ;;
                     return_
            end
  else ret path.

(** The [GET/POST] block. *)
Definition dispatch (request : Request) (path : str) : M Response :=
  if Str.eqb (req_method request) (py "GET")
  then body <- open_read path ;;
       let mime := match guess_type w path with
                   | Some ((_ :: _) as mime) => mime
                   | _ => py "application/octet-stream"
                   end in
       ret (mkResponse 200 [(py "Content-Type", mime); content_length body] body)
  else if Str.eqb (req_method request) (py "POST")
  then ret (mkResponse 200 [(py "Content-Type", py "text/html")]
              (Str.encode (py "<html><body><pre>"
                           ++ Repr.of_dict (Urllib.parse_qs (req_body request))
                           ++ py "</pre></body></html>")))
  else ret (mkResponse 400 [(py "Content-Length", py "0")] []).

(** Normal resolution, from the directory block to the last
    [conn.sendall]. *)
Definition serve (request : Request) (path : str) : M unit :=
  path <- directory path ;;
  is_file <- os_path_isfile path ;;
  if negb is_file then not_found ;; return_
  else
    response <- dispatch request path ;;
    response <- run_after (after_request w) request response ;;
    send (status response) (headers response) (body response).

(** From [path = sanitize_path(request['path'])] on. *)
Definition resolve (request : Request) : M unit :=
  match sanitize_path (req_path request) with
  | Some ((_ :: _) as path) =>
      favicon_shortcut request ;;
      serve request path
  | _ => not_found ;; return_
  end.

(** The [try] block of [handle_client]; [addr] is [addr[0]]. *)
Definition handle (data : str) (addr : str) : M unit :=
  match data with
  | [] => return_
  | _ =>
      match parse_request data with
      | None => send 400 [(py "Content-Length", py "0")] [] ;; return_
      | Some request =>
          if ip_whitelist_enabled (config w)
             && negb (Str.mem addr (ip_whitelist (config w)))
          then forbidden ;; return_
          else request <- run_before (before_request w) request ;;
               resolve request
      end
  end.

Definition internal_error : M unit :=
  let body := py "500 Internal Server Error" in
  send 500 [content_length body] body.

(** [handle_client(conn, addr)] on a connection whose one [recv] gives
    [data] (after decoding): the trace of the call. *)
Definition handle_client (data : str) (addr : str) : list event :=
  fst (try_except (handle data addr) internal_error) ++ [EvClose].

(** The part of the trace that comes from [resolve], with the
    [except Exception] around it. *)
Definition answer (request : Request) : list event :=
  fst (try_except (resolve request) internal_error).

End Handler.

(** ** What a trace shows *)

(** The responses the server itself sent, in order. *)
Fixpoint sent (t : list event) : list Response :=
  match t with
  | [] => []
  | EvSend r :: t' => r :: sent t'
  | _ :: t' => sent t'
  end.

(** The bytes written on the connection, those of the callbacks
    included. *)
Definition on_the_wire (t : list event) : bytes :=
  flat_map (fun e =>
              match e with
              | EvSend r => http_response (status r) (headers r) (body r)
              | EvWrite raw => raw
              | _ => []
              end)
           t.

(** The files that were opened for reading. *)
Fixpoint opened (t : list event) : list str :=
  match t with
  | [] => []
  | EvOpen p :: t' => p :: opened t'
  | _ :: t' => opened t'
  end.

(** The paths given to the file system, in order. *)
Fixpoint touched (t : list event) : list str :=
  match t with
  | [] => []
  | (EvIsFile p | EvIsDir p | EvOpen p | EvListDir p) :: t' => p :: touched t'
  | _ :: t' => touched t'
  end.

(** The pre-resolution callbacks that were called, in order. *)
Fixpoint observers (t : list event) : list str :=
  match t with
  | [] => []
  | EvBefore name _ :: t' => name :: observers t'
  | _ :: t' => observers t'
  end.

(** The path a file-system call is about. *)
Definition fs_path (e : event) : option str :=
  match e with
  | EvIsFile p | EvIsDir p | EvOpen p | EvListDir p => Some p
  | _ => None
  end.

(** [x] without its prefix [pre], if it starts with it. *)
Fixpoint strip_prefix (pre x : str) : option str :=
  match pre, x with
  | [], _ => Some x
  | p :: pre', c :: x' => if Ascii.eqb p c then strip_prefix pre' x' else None
  | _ :: _, [] => None
  end.

(** [p] is [root/rel] for a relative path [rel] that has no [..]
    component: following [p] never leaves the subtree of [root]. *)
Definition inside (root p : str) : bool :=
  match strip_prefix (root ++ Posixpath.sep) p with
  | Some rel => negb (Str.mem Posixpath.pardir (Str.split Posixpath.sep rel))
  | None => false
  end.

Definition confined (root : str) (e : event) : bool :=
  match fs_path e with
  | Some p => inside root p
  | None => true
  end.

(** The relative path that [sanitize_path] tests and joins to the web
    root. *)
Definition normalized (path : str) : str :=
  Posixpath.normpath
    (Str.lstrip "/"%char (Urllib.unquote_plus (hd [] (Str.split1 (py "?") path)))).

(** The request dict after the pre-resolution callbacks. *)
Fixpoint hooked (hooks : list BeforeHook) (request : Request) : Request :=
  match hooks with
  | [] => request
  | hook :: hooks' => hooked hooks' (hk_after (bh_call hook request))
  end.

(** The request with which the handler reaches [sanitize_path], if it
    gets that far: something was read, it parsed, and the address passed
    the whitelist. *)
Definition reaches_resolve (w : World) (data addr : str) : option Request :=
  match data with
  | [] => None
  | _ =>
      match parse_request data with
      | None => None
      | Some request =>
          if ip_whitelist_enabled (config w)
             && negb (Str.mem addr (ip_whitelist (config w)))
          then None
          else Some (hooked (before_request w) request)
      end
  end.

(** The response after the post-resolution callbacks. *)
Fixpoint final_response (hooks : list AfterHook) (request : Request) (response : Response)
  : Response :=
  match hooks with
  | [] => response
  | hook :: hooks' =>
      let run := ah_call hook request response in
      final_response hooks' (fst (hk_after run)) (snd (hk_after run))
  end.

(** Whether the favicon block answers the request. *)
Definition favicon_applies (w : World) (request : Request) : bool :=
  match favicon (config w) with
  | Some ((_ :: _) as fav) =>
      Str.eqb (req_path request) (py "/favicon.ico")
      && match sanitize_path w fav with
         | Some ((_ :: _) as favicon_path) => isfile w favicon_path
         | _ => false
         end
  | _ => false
  end.

(** ** Pieces of the trace *)

(** What the pre-resolution loop adds to the trace. *)
Fixpoint before_trace (hooks : list BeforeHook) (request : Request) : list event :=
  match hooks with
  | [] => []
  | hook :: hooks' =>
      let run := bh_call hook request in
      EvBefore (bh_name hook) request :: map EvWrite (hk_written run)
      ++ before_trace hooks' (hk_after run)
  end.

(** What the post-resolution loop adds to the trace. *)
Fixpoint after_trace (hooks : list AfterHook) (request : Request) (response : Response)
  : list event :=
  match hooks with
  | [] => []
  | hook :: hooks' =>
      let run := ah_call hook request response in
      EvAfter (ah_name hook) request response :: map EvWrite (hk_written run)
      ++ after_trace hooks' (fst (hk_after run)) (snd (hk_after run))
  end.

(** The file-system call of a favicon block that does not answer. *)
Definition favicon_probe (w : World) (request : Request) : list event :=
  match favicon (config w) with
  | Some ((_ :: _) as fav) =>
      if Str.eqb (req_path request) (py "/favicon.ico")
      then match sanitize_path w fav with
           | Some ((_ :: _) as favicon_path) => [EvIsFile favicon_path]
           | _ => []
           end
      else []
  | _ => []
  end.

(** The file that method dispatch works on when the resolved [path] is
    a file or a directory with an index: the path itself, or its
    [index.html]. *)
Definition is_target (w : World) (path target : str) : Prop :=
  (isdir w path = false /\ target = path)
  \/ (isdir w path = true /\ target = Posixpath.join path (py "index.html")).

(** A callback that does what [hook] does and never raises. *)
Definition calm (hook : BeforeHook) : BeforeHook :=
  {| bh_name := bh_name hook;
     bh_call := fun request =>
                  let run := bh_call hook request in
                  {| hk_after := hk_after run;
                     hk_written := hk_written run;
                     hk_raised := false |} |}.

Definition with_before (w : World) (hooks : list BeforeHook) : World :=
  {| BASE_DIR := BASE_DIR w; cwd := cwd w; config := config w;
     before_request := hooks; after_request := after_request w;
     isfile := isfile w; isdir := isdir w; read := read w; listdir := listdir w;
     guess_type := guess_type w |}.

(** The first line of what was read. *)
Definition request_line (data : str) : str := hd [] (Str.split CRLF data).

(** ** A machine to run the handler on *)

#[local] Set Warnings "-register-all".

Inductive node : Type :=
| File (content : bytes)
| Dir (listable : bool) (entries : list (str * node)).

Fixpoint lookup (comps : list str) (n : node) : option node :=
  match comps with
  | [] => Some n
  | c :: comps' =>
      match n with
      | Dir _ entries =>
          match find (fun e => Str.eqb (fst e) c) entries with
          | Some e => lookup comps' (snd e)
          | None => None
          end
      | File _ => None
      end
  end.

(** The node at a path, in a file system whose root directory is
    [tree]. *)
Definition node_at (tree : node) (p : str) : option node :=
  lookup (filter (fun c => negb (Posixpath.is_nil c))
                 (Str.split Posixpath.sep (Posixpath.abspath (py "/") p)))
         tree.

Definition tree_isfile (tree : node) (p : str) : bool :=
  match node_at tree p with Some (File _) => true | _ => false end.

Definition tree_isdir (tree : node) (p : str) : bool :=
  match node_at tree p with Some (Dir _ _) => true | _ => false end.

Definition tree_read (tree : node) (p : str) : option bytes :=
  match node_at tree p with Some (File content) => Some content | _ => None end.

Definition tree_listdir (tree : node) (p : str) : option (list filename) :=
  match node_at tree p with
  | Some (Dir true entries) => Some (map (fun e => Text (fst e)) entries)
  | _ => None
  end.

(** A few entries of the MIME table. *)
Definition demo_guess_type (p : str) : option str :=
  if Posixpath.endswith (py ".html") p then Some (py "text/html")
  else if Posixpath.endswith (py ".txt") p then Some (py "text/plain")
  else if Posixpath.endswith (py ".png") p then Some (py "image/png")
  else if Posixpath.endswith (py ".ico") p then Some (py "image/vnd.microsoft.icon")
  else None.

(** The server installed in [/srv/lynx], with [web] as the content of its
    [root] directory. *)
Definition machine (cfg : Config) (before : list BeforeHook) (after : list AfterHook)
           (web : list (str * node)) : World :=
  let tree := Dir true [(py "srv", Dir true [(py "lynx", Dir true [(py "root", Dir true web)])])] in
  {| BASE_DIR := py "/srv/lynx";
     cwd := py "/";
     config := cfg;
     before_request := before;
     after_request := after;
     isfile := tree_isfile tree;
     isdir := tree_isdir tree;
     read := tree_read tree;
     listdir := tree_listdir tree;
     guess_type := demo_guess_type |}.

Definition demo_web : list (str * node) :=
  [(py "hello.txt", File (py "hello"));
   (py "a..b.txt", File (py "dots"));
   (py "logo.png", File (py "LOGO"));
   (py "favicon.ico", File (py "ICO"));
   (py "pub", Dir true [(py "x.bin", File (py "xx")); (py "y.txt", File (py "y"))]);
   (py "site", Dir true [(py "index.html", File (py "<p>hi</p>"))]);
   (py "locked", Dir false [(py "secret", File (py "s"))])].

Definition get (path : string) : str :=
  py "GET " ++ py path ++ py " HTTP/1.1" ++ CRLF ++ py "Host: lynx" ++ CRLF ++ CRLF.

(** ** What the theorems speak of *)

(** The components that [normpath] keeps are non-empty names. *)
Definition plain (comp : str) : Prop := comp <> [] /\ ~ In "/"%char comp.

(** What the handler knows of every path it gives to the file system:
    it is the web root, a slash, and text without [..]. *)
Definition tight (root p : str) : Prop :=
  exists rel, p = root ++ Posixpath.sep ++ rel
              /\ Str.contains Posixpath.pardir rel = false.

Definition bad_request : Response :=
  mkResponse 400 [(py "Content-Length", py "0")] [].

Definition forbidden_response : Response :=
  mkResponse 403 [(py "Content-Length", py "13")] (py "403 Forbidden").

(** What [resolve] may do: it calls no pre-resolution callback, and it
    gives the file system only paths inside [root]. *)
Definition resolving (root : str) (e : event) : bool :=
  match e with
  | EvBefore _ _ => false
  | _ => confined root e
  end.

(** [m] emits only events that pass [P], and a value it falls through
    with satisfies [Q]. *)
Definition respects {A : Type} (P : event -> bool) (Q : A -> Prop) (m : M A) : Prop :=
  forallb P (fst m) = true /\ forall a, snd m = Ok a -> Q a.

Definition any {A : Type} (_ : A) : Prop := True.

Definition not_found_response : Response :=
  mkResponse 404 [(py "Content-Length", py "13")] (py "404 Not Found").

(** The files the directory block looks at before it lets [target]
    through. *)
Definition target_probe (w : World) (path target : str) : list event :=
  EvIsDir path :: if isdir w path then [EvIsFile target] else [].

Definition form_page (request : Request) : Response :=
  mkResponse 200 [(py "Content-Type", py "text/html")]
             (Str.encode (py "<html><body><pre>"
                          ++ Repr.of_dict (Urllib.parse_qs (req_body request))
                          ++ py "</pre></body></html>")).

Definition listing_error : Response :=
  mkResponse 200 [(py "Content-Type", py "text/html"); (py "Content-Length", py "23")]
             (py "Error listing directory").

(** The page [handle_directory] makes of the names in a directory. *)
Definition listing_page (request_path : str) (files : list str) : bytes :=
  Str.encode (py "<html><body><h1>Directory listing</h1><ul>"
              ++ concat (map (fun file => anchor (Posixpath.join request_path file) file) files)
              ++ py "</ul></body></html>").

(** The names of a directory as texts, when all of them can be encoded. *)
Fixpoint texts (files : list filename) : option (list str) :=
  match files with
  | [] => Some []
  | Text name :: files' => option_map (cons name) (texts files')
  | Undecodable :: _ => None
  end.

(** What [handle_directory] returns for a directory: the page of its
    names, or the fixed text when enumerating it or encoding the page
    raises. *)
Definition listing_body (w : World) (path request_path : str) : bytes :=
  match listdir w path with
  | Some files =>
      match texts files with
      | Some names => listing_page request_path names
      | None => py "Error listing directory"
      end
  | None => py "Error listing directory"
  end.

Definition stranger : str := py "10.0.0.9".

(** The default configuration. *)
Definition demo : World := machine default_config [] [] demo_web.

(** A callback that writes a line on the connection and raises, and one
    that only looks. *)
Definition hook_A : BeforeHook :=
  mkBeforeHook (py "A") (fun request => mkHookRun request [py "X-A: 1"] true).

Definition hook_B : BeforeHook :=
  mkBeforeHook (py "B") (fun request => mkHookRun request [] false).

(** A post-resolution callback that adds a header to the response and
    then raises. *)
Definition stamp : AfterHook :=
  mkAfterHook (py "stamp")
              (fun request response =>
                 mkHookRun (request,
                            mkResponse (status response)
                                       (headers response ++ [(py "X-Served-By", py "lynx")])
                                       (body response))
                           [] true).

(** The whitelist enabled, two callbacks registered. *)
Definition guarded : World :=
  machine (mkConfig true [py "127.0.0.1"] [py "/"] (Some (py "/favicon.ico")))
          [hook_A; hook_B] [] demo_web.

(** The icon of the site is its logo; two directories may be listed. *)
Definition branded : World :=
  machine (mkConfig false [] [py "/pub"; py "/locked"] (Some (py "/logo.png")))
          [] [] demo_web.

Definition post (path body : string) : str :=
  py "POST " ++ py path ++ py " HTTP/1.1" ++ CRLF ++ py "Host: lynx" ++ CRLF ++ CRLF
  ++ py body.

Definition delete (path : string) : str :=
  py "DELETE " ++ py path ++ py " HTTP/1.1" ++ CRLF ++ CRLF.

(** ** The rest of the handler: what the further properties speak of *)

Definition CR : ascii := "013"%char.

(** The first line of a response and the line of one header, as
    [http_response] writes them. *)
Definition status_line (status : nat) : str :=
  py "HTTP/1.1 " ++ Str.of_nat status ++ py " " ++ reasons status.

Definition header_line (kv : str * str) : str := fst kv ++ py ": " ++ snd kv.

(** How often the connection was closed. *)
Fixpoint closes (t : list event) : nat :=
  match t with
  | [] => 0
  | EvClose :: t' => S (closes t')
  | _ :: t' => closes t'
  end.

(** The post-resolution callbacks that were called, in order. *)
Fixpoint after_observers (t : list event) : list str :=
  match t with
  | [] => []
  | EvAfter name _ _ :: t' => name :: after_observers t'
  | _ :: t' => after_observers t'
  end.

(** The directories that were enumerated. *)
Fixpoint listed (t : list event) : list str :=
  match t with
  | [] => []
  | EvListDir p :: t' => p :: listed t'
  | _ :: t' => listed t'
  end.

(** A string without white space at either end. *)
Definition trimmed (x : str) : Prop :=
  Str.lstrip_by Str.isspace x = x /\ Str.lstrip_by Str.isspace (rev x) = rev x.

(** A token of the request line: not empty, no white space in it. *)
Definition token (x : str) : Prop :=
  x <> [] /\ forall c, In c x -> Str.isspace c = false.

(** What the header loop keeps true of the dict. *)
Definition headers_ok (headers : list (str * str)) : Prop :=
  NoDup (map fst headers)
  /\ Forall (fun k => Str.lower k = k /\ trimmed k) (map fst headers)
  /\ Forall trimmed (map snd headers).

(** Header lines as they stand in a request: each one ended by CR LF. *)
Definition header_block (lines : list str) : str :=
  flat_map (fun line => line ++ CRLF) lines.

(** The first occurrence of [sep] in [x] is right after [before]. *)
Definition first_at (sep before x : str) : Prop :=
  (exists after, x = before ++ sep ++ after)
  /\ forall pre suf, x = pre ++ sep ++ suf -> List.length before <= List.length pre.

Definition internal_error_response : Response :=
  mkResponse 500 [(py "Content-Length", py "25")] (py "500 Internal Server Error").

(** What the favicon block sends. *)
Definition icon_page (content : bytes) : Response :=
  mkResponse 200 [(py "Content-Type", py "image/x-icon"); content_length content] content.

(** What the directory block sends for a directory it lists. *)
Definition listing_response (w : World) (path rel_path : str) : Response :=
  let body := listing_body w path rel_path in
  mkResponse 200 [(py "Content-Type", py "text/html"); content_length body] body.

(** The ways through [resolve], one constructor for each: the conditions
    the handler tests on the way, the trace, and how the block ends. *)
Inductive resolved (w : World) (request : Request) : M unit -> Prop :=
| res_rejected :
    sanitize_path w (req_path request) = None ->
    resolved w request ([EvSend not_found_response], Returned)
| res_icon (fav favicon_path : str) (content : bytes) :
    req_path request = py "/favicon.ico" ->
    favicon (config w) = Some fav -> fav <> [] ->
    sanitize_path w fav = Some favicon_path ->
    isfile w favicon_path = true ->
    read w favicon_path = Some content ->
    resolved w request
             ([EvIsFile favicon_path; EvOpen favicon_path; EvSend (icon_page content)],
              Returned)
| res_icon_unreadable (fav favicon_path : str) :
    req_path request = py "/favicon.ico" ->
    favicon (config w) = Some fav -> fav <> [] ->
    sanitize_path w fav = Some favicon_path ->
    isfile w favicon_path = true ->
    read w favicon_path = None ->
    resolved w request ([EvIsFile favicon_path; EvOpen favicon_path], Raised)
| res_forbidden (path rel_path : str) :
    sanitize_path w (req_path request) = Some path ->
    favicon_applies w request = false ->
    isdir w path = true ->
    isfile w (Posixpath.join path (py "index.html")) = false ->
    rel_path_of w path = Some rel_path ->
    Str.mem rel_path (browsable_dirs (config w)) = false ->
    resolved w request
             (favicon_probe w request
              ++ [EvIsDir path; EvIsFile (Posixpath.join path (py "index.html"));
                  EvSend forbidden_response],
              Returned)
| res_listing (path rel_path : str) :
    sanitize_path w (req_path request) = Some path ->
    favicon_applies w request = false ->
    isdir w path = true ->
    isfile w (Posixpath.join path (py "index.html")) = false ->
    rel_path_of w path = Some rel_path ->
    Str.mem rel_path (browsable_dirs (config w)) = true ->
    resolved w request
             (favicon_probe w request
              ++ [EvIsDir path; EvIsFile (Posixpath.join path (py "index.html"));
                  EvListDir path; EvSend (listing_response w path rel_path)],
              Returned)
| res_missing (path : str) :
    sanitize_path w (req_path request) = Some path ->
    favicon_applies w request = false ->
    isdir w path = false ->
    isfile w path = false ->
    resolved w request
             (favicon_probe w request
              ++ [EvIsDir path; EvIsFile path; EvSend not_found_response],
              Returned)
| res_unreadable (path target : str) :
    sanitize_path w (req_path request) = Some path ->
    favicon_applies w request = false ->
    is_target w path target ->
    isfile w target = true ->
    req_method request = py "GET" ->
    read w target = None ->
    resolved w request
             (favicon_probe w request ++ target_probe w path target
              ++ [EvIsFile target; EvOpen target],
              Raised)
| res_dispatched (path target : str) (t : list event) (response : Response) :
    sanitize_path w (req_path request) = Some path ->
    favicon_applies w request = false ->
    is_target w path target ->
    isfile w target = true ->
    dispatch w request target = (t, Ok response) ->
    resolved w request
             (favicon_probe w request ++ target_probe w path target
              ++ [EvIsFile target] ++ t
              ++ after_trace (after_request w) request response
              ++ [EvSend (final_response (after_request w) request response)],
              Ok tt).

(** The ways through the [try] block of [handle_client]. *)
Inductive handled (w : World) (data addr : str) : M unit -> Prop :=
| han_nothing :
    data = [] ->
    handled w data addr ([], Returned)
| han_undecoded :
    data <> [] -> parse_request data = None ->
    handled w data addr ([EvSend bad_request], Returned)
| han_stranger (parsed : Request) :
    data <> [] -> parse_request data = Some parsed ->
    ip_whitelist_enabled (config w) = true ->
    Str.mem addr (ip_whitelist (config w)) = false ->
    handled w data addr ([EvSend forbidden_response], Returned)
| han_resolved (parsed : Request) :
    data <> [] -> parse_request data = Some parsed ->
    reaches_resolve w data addr = Some (hooked (before_request w) parsed) ->
    handled w data addr
            (before_trace (before_request w) parsed
             ++ fst (resolve w (hooked (before_request w) parsed)),
             snd (resolve w (hooked (before_request w) parsed))).

(** The machine of [branded] where [locked] can be enumerated and has a
    file whose name is not valid in the encoding of the file system. *)
Definition stained : World :=
  {| BASE_DIR := BASE_DIR branded; cwd := cwd branded; config := config branded;
     before_request := []; after_request := [];
     isfile := isfile branded; isdir := isdir branded; read := read branded;
     listdir := fun p => if Str.eqb p (py "/srv/lynx/root/locked")
                         then Some [Text (py "secret"); Undecodable]
                         else listdir branded p;
     guess_type := guess_type branded |}.

(** A response whose [Content-Length] header, if it has one, is the
    length of its body. *)
Definition framed (r : Response) : Prop :=
  forall value, In (py "Content-Length", value) (headers r) ->
                value = Str.of_nat (List.length (body r)).

(** The machine of [demo] after its files have become unreadable. *)
Definition jammed : World :=
  {| BASE_DIR := BASE_DIR demo; cwd := cwd demo; config := config demo;
     before_request := []; after_request := [];
     isfile := isfile demo; isdir := isdir demo; read := fun _ => None;
     listdir := listdir demo; guess_type := guess_type demo |}.

(** A post-resolution callback that does what [hook] does and never
    raises. *)
Definition calm_after (hook : AfterHook) : AfterHook :=
  {| ah_name := ah_name hook;
     ah_call := fun request response =>
                  let run := ah_call hook request response in
                  {| hk_after := hk_after run;
                     hk_written := hk_written run;
                     hk_raised := false |} |}.

Definition with_after (w : World) (hooks : list AfterHook) : World :=
  {| BASE_DIR := BASE_DIR w; cwd := cwd w; config := config w;
     before_request := before_request w; after_request := hooks;
     isfile := isfile w; isdir := isdir w; read := read w; listdir := listdir w;
     guess_type := guess_type w |}.

(** * Properties *)

(** ** The library functions on examples *)

Example split_crlf :
  Str.split CRLF (py "a" ++ CRLF ++ py "b" ++ CRLF) = [py "a"; py "b"; []].
Proof. reflexivity. Qed.

Example split_ws_request_line :
  Str.split_ws (py "GET  /index.html HTTP/1.1 ") = [py "GET"; py "/index.html"; py "HTTP/1.1"].
Proof. reflexivity. Qed.

Example normpath_collapses :
  Posixpath.normpath (py "a//b/./c/../d") = py "a/b/d".
Proof. reflexivity. Qed.

Example normpath_keeps_leading_pardir :
  Posixpath.normpath (py "a/../../etc/passwd") = py "../etc/passwd".
Proof. reflexivity. Qed.

Example normpath_empty : Posixpath.normpath [] = py ".".
Proof. reflexivity. Qed.

Example relpath_of_root_dot :
  Posixpath.relpath (py "/") (py "/srv/lynx/root/.") (py "/srv/lynx/root") = Some (py ".").
Proof. reflexivity. Qed.

Example relpath_of_child :
  Posixpath.relpath (py "/") (py "/srv/lynx/root/pub/img") (py "/srv/lynx/root")
  = Some (py "pub/img").
Proof. reflexivity. Qed.

Example unquote_plus_example :
  Urllib.unquote_plus (py "/a+b%2Fc%2e%2E/%zz") = py "/a b/c../%zz".
Proof. reflexivity. Qed.

Example parse_qs_example :
  Urllib.parse_qs (py "a=1&b=x+y&a=2&c=&d")
  = [(py "a", [py "1"; py "2"]); (py "b", [py "x y"])].
Proof. reflexivity. Qed.

Example repr_of_parse_qs :
  Repr.of_dict (Urllib.parse_qs (py "a=1&b=x+y&a=it's"))
  = py "{'a': ['1', " ++ [Repr.quote2] ++ py "it's" ++ [Repr.quote2] ++ py "], 'b': ['x y']}".
Proof. reflexivity. Qed.

Example http_response_404 :
  http_response 404 [(py "Content-Length", py "13")] (py "404 Not Found")
  = py "HTTP/1.1 404 Not Found" ++ CRLF ++ py "Content-Length: 13" ++ CRLF ++ CRLF
    ++ py "404 Not Found".
Proof. reflexivity. Qed.

Example parse_request_get :
  parse_request (py "GET /a?x=1 HTTP/1.1" ++ CRLF ++ py "Host:  Example " ++ CRLF
                 ++ py "junk" ++ CRLF ++ py "HOST: b" ++ CRLF ++ CRLF ++ py "rest")
  = Some (mkRequest (py "GET") (py "/a?x=1") (py "HTTP/1.1") [(py "host", py "b")] []).
Proof. reflexivity. Qed.

Example parse_request_post :
  parse_request (py "POST /f HTTP/1.1" ++ CRLF ++ CRLF ++ py "a=1&b=2")
  = Some (mkRequest (py "POST") (py "/f") (py "HTTP/1.1") [] (py "a=1&b=2")).
Proof. reflexivity. Qed.

Example parse_request_two_tokens : parse_request (py "GET /") = None.
Proof. reflexivity. Qed.

#[local] Arguments Ascii.eqb : simpl never.

Example inside_examples :
  inside (py "/srv/lynx/root") (py "/srv/lynx/root/pub/x.bin") = true
  /\ inside (py "/srv/lynx/root") (py "/srv/lynx/root/.") = true
  /\ inside (py "/srv/lynx/root") (py "/srv/lynx/root/../cache.dat") = false
  /\ inside (py "/srv/lynx/root") (py "/srv/lynx/rootkit/x") = false
  /\ inside (py "/srv/lynx/root") (py "/etc/passwd") = false.
Proof. repeat split. Qed.

Example traversal_on_the_wire :
  on_the_wire (handle_client demo (get "/../../etc/passwd") stranger)
  = py "HTTP/1.1 404 Not Found" ++ CRLF ++ py "Content-Length: 13" ++ CRLF ++ CRLF
    ++ py "404 Not Found".
Proof. reflexivity. Qed.

Example index_of_a_directory :
  handle_client demo (get "/site/") stranger
  = [EvIsDir (py "/srv/lynx/root/site");
     EvIsFile (py "/srv/lynx/root/site/index.html");
     EvIsFile (py "/srv/lynx/root/site/index.html");
     EvOpen (py "/srv/lynx/root/site/index.html");
     EvSend (mkResponse 200 [(py "Content-Type", py "text/html");
                             (py "Content-Length", py "9")] (py "<p>hi</p>"));
     EvClose].
Proof. reflexivity. Qed.

Example after_hook_changes_the_response :
  sent (handle_client (machine default_config [] [stamp] demo_web) (get "/hello.txt") stranger)
  = [mkResponse 200 [(py "Content-Type", py "text/plain"); (py "Content-Length", py "5");
                     (py "X-Served-By", py "lynx")] (py "hello")].
Proof. reflexivity. Qed.

Example listing_of_a_browsable_directory :
  sent (handle_client branded (get "/pub") stranger)
  = [mkResponse 200 [(py "Content-Type", py "text/html"); (py "Content-Length", py "139")]
                (py "<html><body><h1>Directory listing</h1><ul>"
                 ++ anchor (py "/pub/x.bin") (py "x.bin")
                 ++ anchor (py "/pub/y.txt") (py "y.txt")
                 ++ py "</ul></body></html>")].
Proof. reflexivity. Qed.

(** ** Strings *)

Lemma str_eqb_eq (a b : str) : Str.eqb a b = true <-> a = b.
Proof.
  revert b; induction a as [|x a IH]; intros [|y b]; simpl; split; intro H;
    try reflexivity; try discriminate.
  - apply andb_true_iff in H as [Hxy Hab].
    apply Ascii.eqb_eq in Hxy. apply IH in Hab. now subst.
  - injection H as -> ->. apply andb_true_iff; split.
    + apply Ascii.eqb_refl.
    + now apply IH.
Qed.

Lemma str_eqb_refl (a : str) : Str.eqb a a = true.
Proof. now apply str_eqb_eq. Qed.

Lemma str_eqb_neq (a b : str) : Str.eqb a b = false <-> a <> b.
Proof.
  split.
  - intros H ->. rewrite str_eqb_refl in H. discriminate.
  - intro H. destruct (Str.eqb a b) eqn:E; [|reflexivity].
    apply str_eqb_eq in E. contradiction.
Qed.

Lemma mem_In (x : str) (xs : list str) : Str.mem x xs = true <-> In x xs.
Proof.
  unfold Str.mem. rewrite existsb_exists. split.
  - intros (y & Hy & E). apply str_eqb_eq in E. now subst.
  - intro H. exists x. split; [assumption | apply str_eqb_refl].
Qed.

Lemma startswith_app (pre x : str) : Str.startswith pre (pre ++ x) = true.
Proof.
  induction pre as [|p pre IH]; simpl; [reflexivity|].
  now rewrite Ascii.eqb_refl, IH.
Qed.

Lemma startswith_inv (pre x : str) :
  Str.startswith pre x = true -> exists rest, x = pre ++ rest.
Proof.
  revert x; induction pre as [|p pre IH]; intros x H.
  - now exists x.
  - destruct x as [|c x]; simpl in H; [discriminate|].
    apply andb_true_iff in H as [Hpc H]. apply Ascii.eqb_eq in Hpc. subst c.
    destruct (IH _ H) as [rest ->]. now exists rest.
Qed.

Lemma strip_prefix_app (pre x : str) : strip_prefix pre (pre ++ x) = Some x.
Proof.
  induction pre as [|p pre IH]; simpl; [reflexivity|].
  now rewrite Ascii.eqb_refl.
Qed.

Lemma strip_prefix_inv (pre x rel : str) :
  strip_prefix pre x = Some rel -> x = pre ++ rel.
Proof.
  revert x; induction pre as [|p pre IH]; intros x H; simpl in H.
  - now injection H as ->.
  - destruct x as [|c x]; [discriminate|].
    destruct (Ascii.eqb p c) eqn:E; [|discriminate].
    apply Ascii.eqb_eq in E. subst c. simpl. f_equal. now apply IH.
Qed.

(** [split] on a one-character separator, one character at a time. *)
Lemma split_chr_nil (c : ascii) : Str.split [c] [] = [[]].
Proof. reflexivity. Qed.

Lemma split_chr_cons (c a : ascii) (x : str) :
  Str.split [c] (a :: x) =
  if Ascii.eqb c a then [] :: Str.split [c] x
  else match Str.split [c] x with
       | h :: t => (a :: h) :: t
       | [] => [[a]]
       end.
Proof.
  unfold Str.split. simpl. destruct (Ascii.eqb c a); reflexivity.
Qed.

Lemma split_chr_nonempty (c : ascii) (x : str) : Str.split [c] x <> [].
Proof.
  destruct x as [|a x]; [discriminate|].
  rewrite split_chr_cons. destruct (Ascii.eqb c a); [discriminate|].
  destruct (Str.split [c] x); discriminate.
Qed.

(** A component never holds the separator. *)
Lemma split_chr_no_sep (c : ascii) (x comp : str) :
  In comp (Str.split [c] x) -> ~ In c comp.
Proof.
  revert comp; induction x as [|a x IH]; intros comp H.
  - destruct H as [<-|[]]. intros [].
  - rewrite split_chr_cons in H. destruct (Ascii.eqb c a) eqn:E.
    + destruct H as [<-|H]; [intros [] | now apply IH].
    + destruct (Str.split [c] x) as [|h t] eqn:S.
      * destruct H as [<-|[]]. intros [->|[]]. now rewrite Ascii.eqb_refl in E.
      * destruct H as [<-|H].
        -- intros [->|Hc]; [now rewrite Ascii.eqb_refl in E|].
           revert Hc. apply IH. now left.
        -- apply IH. now right.
Qed.

(** The first component is a prefix of the string. *)
Lemma split_chr_hd_prefix (c : ascii) (x h : str) (t : list str) :
  Str.split [c] x = h :: t -> exists rest, x = h ++ rest.
Proof.
  revert h t; induction x as [|a x IH]; intros h t H.
  - injection H as <- <-. now exists [].
  - rewrite split_chr_cons in H. destruct (Ascii.eqb c a).
    + injection H as <- <-. now exists (a :: x).
    + destruct (Str.split [c] x) as [|h' t'] eqn:S.
      * now destruct (split_chr_nonempty c x).
      * injection H as <- <-. destruct (IH _ _ eq_refl) as [rest ->].
        now exists rest.
Qed.

(** A [..] component shows as the substring [..]. *)
Lemma pardir_component_contains (x : str) :
  In Posixpath.pardir (Str.split Posixpath.sep x) ->
  Str.contains Posixpath.pardir x = true.
Proof.
  change Posixpath.sep with ["/"%char].
  induction x as [|a x IH]; intro H.
  - destruct H as [H|[]]. discriminate.
  - rewrite split_chr_cons in H.
    change (Str.contains Posixpath.pardir (a :: x))
      with (Str.startswith Posixpath.pardir (a :: x) || Str.contains Posixpath.pardir x).
    destruct (Ascii.eqb "/" a).
    + destruct H as [H|H]; [discriminate|].
      rewrite (IH H). apply orb_true_r.
    + destruct (Str.split ["/"%char] x) as [|h t] eqn:S.
      * now destruct (split_chr_nonempty "/"%char x).
      * destruct H as [H|H].
        -- injection H as Ea Eh. subst a h.
           destruct (split_chr_hd_prefix _ _ _ _ S) as [rest ->]. reflexivity.
        -- rewrite IH; [apply orb_true_r | now right].
Qed.

(** Appending text that does not begin with a dot makes no new [..]. *)
Lemma contains_pardir_app (a b : str) :
  Str.contains Posixpath.pardir a = false ->
  Str.contains Posixpath.pardir b = false ->
  Str.startswith Posixpath.curdir b = false ->
  Str.contains Posixpath.pardir (a ++ b) = false.
Proof.
  intros Ha Hb Hdot. induction a as [|x a IH]; [assumption|].
  change (Str.contains Posixpath.pardir (x :: a))
    with (Str.startswith Posixpath.pardir (x :: a) || Str.contains Posixpath.pardir a) in Ha.
  apply orb_false_iff in Ha as [Hs Ha].
  change (Str.contains Posixpath.pardir ((x :: a) ++ b))
    with (Str.startswith Posixpath.pardir (x :: a ++ b) || Str.contains Posixpath.pardir (a ++ b)).
  rewrite (IH Ha), orb_false_r.
  destruct a as [|y a].
  - simpl in *. destruct b as [|z b]; [now rewrite andb_false_r|].
    simpl in Hdot. rewrite Hdot. apply andb_false_r.
  - exact Hs.
Qed.

Lemma partition_of_contains (sep x : str) :
  Str.contains sep x = true -> exists b a, Str.partition sep x = Some (b, a).
Proof.
  induction x as [|c x IH]; intro H.
  - simpl in *. rewrite orb_false_r in H. rewrite H. eauto.
  - simpl in *. destruct (Str.startswith sep (c :: x)); [eauto|].
    destruct (IH H) as (b & a & ->). eauto.
Qed.

Lemma partition_none (sep x : str) :
  Str.contains sep x = false -> Str.partition sep x = None.
Proof.
  induction x as [|c x IH]; intro H; simpl in *.
  - rewrite orb_false_r in H. now rewrite H.
  - apply orb_false_iff in H as [-> H]. now rewrite (IH H).
Qed.

(** ** Paths *)

Lemma Forall_removelast {A : Type} (P : A -> Prop) (l : list A) :
  Forall P l -> Forall P (removelast l).
Proof.
  induction 1 as [|x l Hx Hl IH]; simpl; [constructor|].
  destruct l; [constructor | now constructor].
Qed.

Lemma norm_step_plain (n : nat) (new_comps : list str) (comp : str) :
  Forall plain new_comps -> ~ In "/"%char comp ->
  Forall plain (Posixpath.norm_step n new_comps comp).
Proof.
  intros Hacc Hcomp. unfold Posixpath.norm_step.
  destruct (Str.eqb comp []) eqn:E; simpl; [assumption|].
  destruct (Str.eqb comp Posixpath.curdir); [assumption|].
  match goal with |- Forall _ (if ?b then _ else _) => destruct b end.
  - apply Forall_app; split; [assumption|].
    constructor; [|constructor]. split; [|assumption].
    now apply str_eqb_neq in E.
  - now apply Forall_removelast.
Qed.

Lemma fold_norm_step_plain (n : nat) (comps new_comps : list str) :
  Forall plain new_comps -> (forall c, In c comps -> ~ In "/"%char c) ->
  Forall plain (fold_left (Posixpath.norm_step n) comps new_comps).
Proof.
  revert new_comps; induction comps as [|c comps IH]; intros acc Hacc Hc; simpl.
  - assumption.
  - apply IH.
    + apply norm_step_plain; [assumption | apply Hc; now left].
    + intros c' H. apply Hc. now right.
Qed.

Lemma join_plain_relative (comps : list str) :
  Forall plain comps -> Str.startswith Posixpath.sep (Str.join Posixpath.sep comps) = false.
Proof.
  intros H. destruct H as [|c comps [Hne Hno] _]; [reflexivity|].
  destruct c as [|x c]; [contradiction|].
  assert (E : Ascii.eqb "/" x = false).
  { apply Ascii.eqb_neq. intros <-. apply Hno. now left. }
  unfold Posixpath.sep. destruct comps; simpl; now rewrite E.
Qed.

(** [normpath] keeps a relative path relative. *)
Lemma normpath_relative (path : str) :
  Str.startswith Posixpath.sep path = false ->
  Str.startswith Posixpath.sep (Posixpath.normpath path) = false.
Proof.
  intro H. unfold Posixpath.normpath. destruct path as [|a path]; [reflexivity|].
  rewrite H. cbn [repeat concat app].
  set (new_comps := fold_left _ _ _).
  assert (Hp : Forall plain new_comps).
  { apply fold_norm_step_plain; [constructor|].
    intros c. apply (split_chr_no_sep "/"%char). }
  pose proof (join_plain_relative _ Hp) as Hj.
  destruct (Str.join Posixpath.sep new_comps); [reflexivity | exact Hj].
Qed.

Lemma lstrip_relative (x : str) :
  Str.startswith Posixpath.sep (Str.lstrip "/"%char x) = false.
Proof.
  unfold Str.lstrip. induction x as [|c x IH]; [reflexivity|].
  simpl. destruct (Ascii.eqb "/" c) eqn:E; [exact IH|].
  simpl. now rewrite E.
Qed.

Lemma normalized_relative (path : str) :
  Str.startswith Posixpath.sep (normalized path) = false.
Proof. apply normpath_relative, lstrip_relative. Qed.

Lemma normpath_nonempty (path : str) : Posixpath.normpath path <> [].
Proof.
  unfold Posixpath.normpath. destruct path; [discriminate|].
  match goal with |- (match ?x with [] => _ | _ => _ end) <> _ => destruct x eqn:E end;
    discriminate.
Qed.

(** The web root is a non-empty path that does not end with a slash. *)
Lemma WEB_ROOT_shape (w : World) :
  exists pre, WEB_ROOT w = pre ++ py "root".
Proof.
  unfold WEB_ROOT, Posixpath.join. simpl Str.startswith.
  destruct (_ || _).
  - now exists (BASE_DIR w).
  - exists (BASE_DIR w ++ Posixpath.sep). now rewrite <- app_assoc.
Qed.

Lemma join_WEB_ROOT (w : World) (rel : str) :
  Str.startswith Posixpath.sep rel = false ->
  Posixpath.join (WEB_ROOT w) rel = WEB_ROOT w ++ Posixpath.sep ++ rel.
Proof.
  intro H. unfold Posixpath.join. rewrite H.
  destruct (WEB_ROOT_shape w) as [pre ->].
  replace (Posixpath.is_nil (pre ++ py "root")) with false by (now destruct pre).
  unfold Posixpath.endswith. rewrite rev_app_distr. reflexivity.
Qed.

(** [sanitize_path] in one equation. *)
Lemma sanitize_path_eq (w : World) (path : str) :
  sanitize_path w path =
  if Str.contains Posixpath.pardir (normalized path) then None
  else Some (WEB_ROOT w ++ Posixpath.sep ++ normalized path).
Proof.
  unfold sanitize_path, sanitize_path_on. cbn [os_normpath os_join posixpath].
  fold (normalized path).
  change (py "..") with Posixpath.pardir.
  destruct (Str.contains _ _); [reflexivity|].
  now rewrite join_WEB_ROOT by apply normalized_relative.
Qed.

Lemma tight_inside (root p : str) : tight root p -> inside root p = true.
Proof.
  intros (rel & -> & H). unfold inside.
  rewrite app_assoc, strip_prefix_app.
  destruct (Str.mem _ _) eqn:E; [|reflexivity].
  apply mem_In, pardir_component_contains in E. congruence.
Qed.

Lemma sanitize_path_tight (w : World) (path p : str) :
  sanitize_path w path = Some p -> tight (WEB_ROOT w) p.
Proof.
  rewrite sanitize_path_eq. destruct (Str.contains _ _) eqn:E; [discriminate|].
  intros [= <-]. now exists (normalized path).
Qed.

Lemma join_index_tight (root p : str) :
  tight root p -> tight root (Posixpath.join p (py "index.html")).
Proof.
  intros (rel & -> & H). unfold Posixpath.join. simpl Str.startswith.
  destruct (_ || _).
  - exists (rel ++ py "index.html"). split.
    + now rewrite <- !app_assoc.
    + now apply contains_pardir_app.
  - exists (rel ++ Posixpath.sep ++ py "index.html"). split.
    + now rewrite <- !app_assoc.
    + now apply contains_pardir_app.
Qed.

(** ** Traces *)

#[local] Arguments py : simpl never.

Lemma sent_app (a b : list event) : sent (a ++ b) = sent a ++ sent b.
Proof.
  induction a as [|e a IH]; [reflexivity|].
  destruct e; simpl; now rewrite ?IH.
Qed.

Lemma opened_app (a b : list event) : opened (a ++ b) = opened a ++ opened b.
Proof.
  induction a as [|e a IH]; [reflexivity|].
  destruct e; simpl; now rewrite ?IH.
Qed.

Lemma touched_app (a b : list event) : touched (a ++ b) = touched a ++ touched b.
Proof.
  induction a as [|e a IH]; [reflexivity|].
  destruct e; simpl; now rewrite ?IH.
Qed.

Lemma observers_app (a b : list event) : observers (a ++ b) = observers a ++ observers b.
Proof.
  induction a as [|e a IH]; [reflexivity|].
  destruct e; simpl; now rewrite ?IH.
Qed.

(** Raw writes of callbacks are none of the events the projections
    select. *)
Lemma writes_silent (l : list bytes) :
  sent (map EvWrite l) = [] /\ opened (map EvWrite l) = []
  /\ touched (map EvWrite l) = [] /\ observers (map EvWrite l) = [].
Proof. induction l as [|b l IH]; simpl; auto. Qed.

Lemma bind_ok {A B : Type} (t : list event) (a : A) (k : A -> M B) :
  bind (t, Ok a) k = (t ++ fst (k a), snd (k a)).
Proof. unfold bind. now destruct (k a). Qed.

Lemma bind_fst_snd {A B : Type} (m : M A) (a : A) (k : A -> M B) :
  snd m = Ok a -> bind m k = (fst m ++ fst (k a), snd (k a)).
Proof. destruct m as [t r]; simpl; intros ->. apply bind_ok. Qed.

Lemma try_except_app {A : Type} (t : list event) (m handler : M A) :
  fst (try_except (t ++ fst m, snd m) handler) = t ++ fst (try_except m handler).
Proof.
  destruct m as [t' [a| |]]; simpl; try reflexivity.
  destruct handler as [t'' r]. simpl. now rewrite app_assoc.
Qed.

Lemma run_before_eq (hooks : list BeforeHook) (request : Request) :
  run_before hooks request = (before_trace hooks request, Ok (hooked hooks request)).
Proof.
  revert request; induction hooks as [|hook hooks IH]; intro request; [reflexivity|].
  cbn [run_before before_trace hooked]. rewrite IH.
  unfold emit, bind, try_except, ret.
  destruct (hk_raised (bh_call hook request)); simpl; now rewrite ?app_nil_r.
Qed.

Lemma run_after_eq (hooks : list AfterHook) (request : Request) (response : Response) :
  run_after hooks request response
  = (after_trace hooks request response, Ok (final_response hooks request response)).
Proof.
  revert request response; induction hooks as [|hook hooks IH]; intros request response;
    [reflexivity|].
  cbn [run_after after_trace final_response]. rewrite IH.
  unfold emit, bind, try_except, ret.
  destruct (hk_raised (ah_call hook request response)); simpl; now rewrite ?app_nil_r.
Qed.

Lemma before_trace_silent (hooks : list BeforeHook) (request : Request) :
  sent (before_trace hooks request) = []
  /\ opened (before_trace hooks request) = []
  /\ touched (before_trace hooks request) = [].
Proof.
  revert request; induction hooks as [|hook hooks IH]; intro request; [now simpl|].
  cbn [before_trace sent opened touched].
  rewrite sent_app, opened_app, touched_app.
  destruct (writes_silent (hk_written (bh_call hook request))) as (-> & -> & -> & _).
  apply IH.
Qed.

Lemma before_trace_observers (hooks : list BeforeHook) (request : Request) :
  observers (before_trace hooks request) = map bh_name hooks.
Proof.
  revert request; induction hooks as [|hook hooks IH]; intro request; [reflexivity|].
  cbn [before_trace observers map]. rewrite observers_app, IH.
  now destruct (writes_silent (hk_written (bh_call hook request))) as (_ & _ & _ & ->).
Qed.

Lemma after_trace_silent (hooks : list AfterHook) (request : Request) (response : Response) :
  sent (after_trace hooks request response) = []
  /\ opened (after_trace hooks request response) = []
  /\ touched (after_trace hooks request response) = []
  /\ observers (after_trace hooks request response) = [].
Proof.
  revert request response; induction hooks as [|hook hooks IH]; intros request response;
    [now simpl|].
  cbn [after_trace sent opened touched observers].
  rewrite sent_app, opened_app, touched_app, observers_app.
  destruct (writes_silent (hk_written (ah_call hook request response)))
    as (-> & -> & -> & ->).
  apply IH.
Qed.

Lemma parse_request_nil : parse_request [] = None.
Proof. reflexivity. Qed.

(** A request that gets that far goes through the pre-resolution
    callbacks and then through [resolve]. *)
Lemma handle_client_reaches (w : World) (data addr : str) (request : Request) :
  reaches_resolve w data addr = Some request ->
  exists parsed,
    parse_request data = Some parsed
    /\ request = hooked (before_request w) parsed
    /\ handle_client w data addr
       = before_trace (before_request w) parsed ++ answer w request ++ [EvClose].
Proof.
  unfold reaches_resolve, handle_client, handle, answer.
  destruct data as [|c data]; [discriminate|].
  destruct (parse_request (c :: data)) as [parsed|]; [|discriminate].
  destruct (_ && _); [discriminate|].
  intros [= <-]. exists parsed. repeat split.
  rewrite run_before_eq, bind_ok, try_except_app. now rewrite <- app_assoc.
Qed.

(** ** Decoding (C7) *)

Lemma parse_request_fails_iff (data : str) :
  parse_request data = None <-> List.length (Str.split_ws (request_line data)) <> 3.
Proof.
  unfold parse_request, request_line.
  destruct (Str.split CRLF data) as [|line0 lines]; simpl hd.
  - split; [intros _; discriminate | reflexivity].
  - destruct (Str.split_ws line0) as [|method [|path [|version [|extra tokens]]]];
      simpl List.length; try (split; [intros _; lia | reflexivity]).
    split; [|intro H; now contradiction H].
    destruct (Str.eqb method (py "POST") && Str.contains (CRLF ++ CRLF) data) eqn:E;
      [|discriminate].
    apply andb_true_iff in E as [_ E].
    destruct (partition_of_contains _ _ E) as (b & a & P).
    unfold Str.split1. rewrite P. discriminate.
Qed.

Lemma parse_headers_skips (pre post : list str) (line : str) (headers : list (str * str)) :
  line <> [] -> Str.contains (py ":") line = false ->
  parse_headers (pre ++ line :: post) headers = parse_headers (pre ++ post) headers.
Proof.
  intros Hne Hcolon. revert headers.
  induction pre as [|l pre IH]; intro headers; simpl.
  - destruct line as [|c line]; [contradiction|].
    unfold Str.split1. now rewrite (partition_none _ _ Hcolon).
  - destruct l; [reflexivity|].
    destruct (Str.split1 (py ":") (a :: l)) as [|k [|v [|x rest]]]; apply IH.
Qed.

Lemma parse_request_headers (data : str) (request : Request) :
  parse_request data = Some request ->
  req_headers request = parse_headers (tl (Str.split CRLF data)) [].
Proof.
  unfold parse_request.
  destruct (Str.split CRLF data) as [|line0 lines]; [discriminate|].
  destruct (Str.split_ws line0) as [|method [|path [|version [|extra tokens]]]];
    try discriminate.
  destruct (_ && _).
  - destruct (Str.split1 _ _) as [|x [|body rest]]; try discriminate.
    now intros [= <-].
  - now intros [= <-].
Qed.

(** C7, as the handler has it.  Decoding fails exactly when the request
    line does not split into three whitespace-separated tokens; a header
    line without a colon changes nothing (an empty line ends the headers);
    and a failure is answered with 400 and an empty body when something
    was read, while a read that gave nothing is answered with nothing at
    all and the connection is closed. *)
Theorem decoding_failure_is_400_unless_nothing_was_read :
  (forall data,
      parse_request data = None
      <-> List.length (Str.split_ws (request_line data)) <> 3)
  /\ (forall data request pre line post,
         parse_request data = Some request ->
         tl (Str.split CRLF data) = pre ++ line :: post ->
         line <> [] -> Str.contains (py ":") line = false ->
         req_headers request = parse_headers (pre ++ post) [])
  /\ (forall w data addr,
         parse_request data = None ->
         handle_client w data addr
         = match data with
           | [] => [EvClose]
           | _ => [EvSend bad_request; EvClose]
           end).
Proof.
  split; [exact parse_request_fails_iff|]. split.
  - intros data request pre line post Hp Hl Hne Hc.
    rewrite (parse_request_headers _ _ Hp), Hl. now apply parse_headers_skips.
  - intros w data addr Hp. unfold handle_client, handle.
    destruct data as [|c data]; [reflexivity|]. now rewrite Hp.
Qed.

(** ** The access filter (C2) *)

(** C2, as the handler has it.  With the whitelist enabled and the remote
    address not in it, no callback is called and the file system is not
    touched, whatever the client sent; the answer is 403 for everything
    that decodes to a request.  Decoding comes before the whitelist test:
    what does not decode is answered 400, and a read that gave nothing is
    answered with nothing. *)
Theorem whitelist_rejects_before_hooks
        (w : World) (data addr : str)
        (Henabled : ip_whitelist_enabled (config w) = true)
        (Hstranger : Str.mem addr (ip_whitelist (config w)) = false) :
  handle_client w data addr
  = match data with
    | [] => [EvClose]
    | _ => match parse_request data with
           | Some _ => [EvSend forbidden_response; EvClose]
           | None => [EvSend bad_request; EvClose]
           end
    end
  /\ observers (handle_client w data addr) = []
  /\ touched (handle_client w data addr) = [].
Proof.
  assert (E : handle_client w data addr
              = match data with
                | [] => [EvClose]
                | _ => match parse_request data with
                       | Some _ => [EvSend forbidden_response; EvClose]
                       | None => [EvSend bad_request; EvClose]
                       end
                end).
  { unfold handle_client, handle. destruct data as [|c data]; [reflexivity|].
    destruct (parse_request (c :: data)); [|reflexivity].
    now rewrite Henabled, Hstranger. }
  rewrite E. split; [reflexivity|].
  destruct data as [|c data]; [now split|].
  destruct (parse_request (c :: data)); now split.
Qed.

(** ** The pre-resolution callbacks (C6) *)

Section Respects.

Variable P : event -> bool.

Lemma respects_ret {A : Type} (Q : A -> Prop) (a : A) : Q a -> respects P Q (ret a).
Proof. intro H. split; [reflexivity|]. now intros a' [= <-]. Qed.

Lemma respects_return {A : Type} (Q : A -> Prop) : respects P Q return_.
Proof. split; [reflexivity | discriminate]. Qed.

Lemma respects_raise {A : Type} (Q : A -> Prop) : respects P Q raise.
Proof. split; [reflexivity | discriminate]. Qed.

Lemma respects_emit (Q : unit -> Prop) (e : event) :
  P e = true -> Q tt -> respects P Q (emit e).
Proof. intros He HQ. split; [simpl; now rewrite He|]. now intros [] _. Qed.

Lemma respects_bind {A B : Type} (Q : A -> Prop) (R : B -> Prop)
      (m : M A) (k : A -> M B) :
  respects P Q m -> (forall a, Q a -> respects P R (k a)) -> respects P R (bind m k).
Proof.
  intros [Ht Hq] Hk. destruct m as [t [a| |]]; simpl in *.
  - destruct (Hk a (Hq a eq_refl)) as [Ht' Hr].
    unfold respects. destruct (k a) as [t' r]; simpl in *.
    split; [rewrite forallb_app, Ht, Ht'; reflexivity | exact Hr].
  - split; [assumption | discriminate].
  - split; [assumption | discriminate].
Qed.

Lemma respects_try_except {A : Type} (Q : A -> Prop) (m handler : M A) :
  respects P Q m -> respects P Q handler -> respects P Q (try_except m handler).
Proof.
  intros [Ht Hq] [Ht' Hq']. destruct m as [t [a| |]]; simpl in *.
  - now split.
  - now split.
  - unfold respects. destruct handler as [t' r]; simpl in *.
    split; [rewrite forallb_app, Ht, Ht'; reflexivity | exact Hq'].
Qed.

Lemma respects_weaken {A : Type} (Q Q' : A -> Prop) (m : M A) :
  (forall a, Q a -> Q' a) -> respects P Q m -> respects P Q' m.
Proof. intros H [Ht Hq]. split; [assumption|]. intros a E. apply H, Hq, E. Qed.

Lemma respects_writes (l : list bytes) (r : result unit) :
  (forall b, P (EvWrite b) = true) -> respects P (fun _ => True) (map EvWrite l, r).
Proof.
  intro H. split; [|trivial]. simpl. induction l as [|b l IH]; simpl; [reflexivity|].
  now rewrite H, IH.
Qed.

End Respects.

Section Resolving.

Variable w : World.

Lemma isfile_resolving (p : str) :
  tight (WEB_ROOT w) p -> respects (resolving (WEB_ROOT w)) any (os_path_isfile w p).
Proof.
  intro H. split; [|now intros]. simpl. unfold resolving, confined. simpl.
  now rewrite (tight_inside _ _ H).
Qed.

Lemma isdir_resolving (p : str) :
  tight (WEB_ROOT w) p -> respects (resolving (WEB_ROOT w)) any (os_path_isdir w p).
Proof.
  intro H. split; [|now intros]. simpl. unfold resolving, confined. simpl.
  now rewrite (tight_inside _ _ H).
Qed.

Lemma open_resolving (p : str) :
  tight (WEB_ROOT w) p -> respects (resolving (WEB_ROOT w)) any (open_read w p).
Proof.
  intro H. unfold open_read. eapply respects_bind with (Q := any).
  - apply respects_emit; [|exact I]. unfold resolving, confined. simpl.
    now rewrite (tight_inside _ _ H).
  - intros _ _. destruct (read w p); [now apply respects_ret | apply respects_raise].
Qed.

Lemma listdir_resolving (p : str) :
  tight (WEB_ROOT w) p -> respects (resolving (WEB_ROOT w)) any (os_listdir w p).
Proof.
  intro H. unfold os_listdir. eapply respects_bind with (Q := any).
  - apply respects_emit; [|exact I]. unfold resolving, confined. simpl.
    now rewrite (tight_inside _ _ H).
  - intros _ _. destruct (listdir w p); [now apply respects_ret | apply respects_raise].
Qed.

Lemma send_resolving (st : nat) (hd : list (str * str)) (b : bytes) :
  respects (resolving (WEB_ROOT w)) any (send st hd b).
Proof. apply respects_emit; [reflexivity | exact I]. Qed.

Lemma run_after_resolving (hooks : list AfterHook) (request : Request) (response : Response) :
  respects (resolving (WEB_ROOT w)) any (run_after hooks request response).
Proof.
  revert request response; induction hooks as [|hook hooks IH]; intros request response.
  - now apply respects_ret.
  - cbn [run_after]. eapply respects_bind with (Q := any); [|intros _ _; apply IH].
    apply respects_try_except; [|now apply respects_ret].
    eapply respects_bind with (Q := any).
    + apply respects_emit; [reflexivity | exact I].
    + intros _ _. eapply respects_weaken; [|apply respects_writes; reflexivity].
      now intros.
Qed.

Lemma handle_directory_resolving (path request_path : str) :
  tight (WEB_ROOT w) path -> respects (resolving (WEB_ROOT w)) any (handle_directory w path request_path).
Proof.
  intro H. unfold handle_directory.
  apply respects_try_except; [|now apply respects_ret].
  eapply respects_bind; [apply (listdir_resolving _ H)|].
  intros files _. destruct (option_map _ _); [now apply respects_ret | apply respects_raise].
Qed.

Lemma favicon_resolving (request : Request) :
  respects (resolving (WEB_ROOT w)) any (favicon_shortcut w request).
Proof.
  unfold favicon_shortcut.
  destruct (favicon (config w)) as [[|f fav]|]; try now apply respects_ret.
  destruct (Str.eqb _ _); [|now apply respects_ret].
  destruct (sanitize_path w (f :: fav)) as [[|c fp]|] eqn:E; try now apply respects_ret.
  apply sanitize_path_tight in E.
  eapply respects_bind; [apply (isfile_resolving _ E)|].
  intros [] _; [|now apply respects_ret].
  eapply respects_bind; [apply (open_resolving _ E)|].
  intros content _.
  eapply respects_bind; [apply send_resolving|].
  intros _ _. apply respects_return.
Qed.

Lemma directory_resolving (path : str) :
  tight (WEB_ROOT w) path -> respects (resolving (WEB_ROOT w)) (tight (WEB_ROOT w)) (directory w path).
Proof.
  intro H. unfold directory.
  eapply respects_bind; [apply (isdir_resolving _ H)|].
  intros [] _; [|now apply respects_ret].
  pose proof (join_index_tight _ _ H) as Hidx.
  eapply respects_bind; [apply (isfile_resolving _ Hidx)|].
  intros [] _; [now apply respects_ret|].
  destruct (rel_path_of w path) as [rel_path|]; [|apply respects_raise].
  destruct (negb _).
  - eapply respects_bind; [apply send_resolving|]. intros _ _. apply respects_return.
  - eapply respects_bind; [apply (handle_directory_resolving _ _ H)|].
    intros body _.
    eapply respects_bind; [apply send_resolving|]. intros _ _. apply respects_return.
Qed.

Lemma dispatch_resolving (request : Request) (path : str) :
  tight (WEB_ROOT w) path -> respects (resolving (WEB_ROOT w)) any (dispatch w request path).
Proof.
  intro H. unfold dispatch.
  destruct (Str.eqb (req_method request) (py "GET")).
  - eapply respects_bind; [apply (open_resolving _ H)|].
    intros content _. now apply respects_ret.
  - destruct (Str.eqb _ _); now apply respects_ret.
Qed.

Lemma serve_resolving (request : Request) (path : str) :
  tight (WEB_ROOT w) path -> respects (resolving (WEB_ROOT w)) any (serve w request path).
Proof.
  intro H. unfold serve.
  eapply respects_bind; [apply (directory_resolving _ H)|].
  intros target Ht.
  eapply respects_bind; [apply (isfile_resolving _ Ht)|].
  intros [] _; cbn [negb].
  - eapply respects_bind; [apply (dispatch_resolving _ _ Ht)|].
    intros response _.
    eapply respects_bind; [apply run_after_resolving|].
    intros response' _. apply send_resolving.
  - eapply respects_bind; [apply send_resolving|]. intros _ _. apply respects_return.
Qed.

Lemma resolve_resolving (request : Request) :
  respects (resolving (WEB_ROOT w)) any (resolve w request).
Proof.
  unfold resolve.
  destruct (sanitize_path w (req_path request)) as [[|c path]|] eqn:E.
  - eapply respects_bind; [apply send_resolving|]. intros _ _. apply respects_return.
  - apply sanitize_path_tight in E.
    eapply respects_bind; [apply favicon_resolving|].
    intros _ _. apply (serve_resolving _ _ E).
  - eapply respects_bind; [apply send_resolving|]. intros _ _. apply respects_return.
Qed.

Lemma answer_resolving (request : Request) :
  forallb (resolving (WEB_ROOT w)) (answer w request) = true.
Proof.
  unfold answer.
  apply (respects_try_except (resolving (WEB_ROOT w)) any _ _ (resolve_resolving request)).
  apply send_resolving.
Qed.

End Resolving.

Lemma resolving_observers (root : str) (t : list event) :
  forallb (resolving root) t = true -> observers t = [].
Proof.
  induction t as [|e t IH]; [reflexivity|]. simpl.
  intro H. apply andb_true_iff in H as [He Ht].
  destruct e; simpl in *; try discriminate; now apply IH.
Qed.

Lemma resolving_confined (root : str) (t : list event) :
  forallb (resolving root) t = true -> forallb (confined root) t = true.
Proof.
  induction t as [|e t IH]; [reflexivity|]. simpl.
  intro H. apply andb_true_iff in H as [He Ht].
  rewrite (IH Ht), andb_true_r. destruct e; simpl in *; try reflexivity; assumption.
Qed.

Lemma answer_observers (w : World) (request : Request) :
  observers (answer w request) = [].
Proof. apply (resolving_observers (WEB_ROOT w)), answer_resolving. Qed.

Lemma hooked_calm (hooks : list BeforeHook) (request : Request) :
  hooked (map calm hooks) request = hooked hooks request.
Proof.
  revert request; induction hooks as [|hook hooks IH]; intro request; [reflexivity|].
  simpl. apply IH.
Qed.

Lemma before_trace_calm (hooks : list BeforeHook) (request : Request) :
  before_trace (map calm hooks) request = before_trace hooks request.
Proof.
  revert request; induction hooks as [|hook hooks IH]; intro request; [reflexivity|].
  simpl. now rewrite IH.
Qed.

Lemma reaches_resolve_when_passing (w : World) (data addr : str) (parsed : Request) :
  parse_request data = Some parsed ->
  ip_whitelist_enabled (config w) && negb (Str.mem addr (ip_whitelist (config w))) = false ->
  reaches_resolve w data addr = Some (hooked (before_request w) parsed).
Proof.
  intros Hp Hw. unfold reaches_resolve. destruct data as [|c data]; [discriminate|].
  now rewrite Hp, Hw.
Qed.

(** C6.  The pre-resolution callbacks are called in registration order,
    each on the request as the one before left it; one that raises stops
    nothing: the next one is called, resolution is reached, and the trace
    is the trace of the same callbacks with the raising taken out, so no
    response comes from the raising.  For two callbacks A and B the calls
    are A then B. *)
Theorem before_hooks_run_in_order_and_survive_raising
        (w : World) (data addr : str) (parsed : Request)
        (Hparsed : parse_request data = Some parsed)
        (Hpass : ip_whitelist_enabled (config w)
                 && negb (Str.mem addr (ip_whitelist (config w))) = false) :
  observers (handle_client w data addr) = map bh_name (before_request w)
  /\ handle_client w data addr
     = before_trace (before_request w) parsed
       ++ answer w (hooked (before_request w) parsed) ++ [EvClose]
  /\ handle_client (with_before w (map calm (before_request w))) data addr
     = handle_client w data addr
  /\ (forall A B,
         before_request w = [A; B] ->
         let a := bh_call A parsed in
         let b := bh_call B (hk_after a) in
         handle_client w data addr
         = EvBefore (bh_name A) parsed :: map EvWrite (hk_written a)
           ++ EvBefore (bh_name B) (hk_after a) :: map EvWrite (hk_written b)
           ++ answer w (hk_after b) ++ [EvClose]).
Proof.
  pose proof (reaches_resolve_when_passing w data addr parsed Hparsed Hpass) as Hreach.
  destruct (handle_client_reaches _ _ _ _ Hreach) as (parsed' & Hp' & _ & E).
  rewrite Hparsed in Hp'. injection Hp' as <-.
  split; [|split; [exact E|split]].
  - rewrite E, !observers_app, before_trace_observers, answer_observers.
    simpl. now rewrite app_nil_r.
  - rewrite E.
    assert (Hreach' : reaches_resolve (with_before w (map calm (before_request w))) data addr
                    = Some (hooked (before_request w) parsed)).
    { rewrite <- (hooked_calm (before_request w)).
      now apply (reaches_resolve_when_passing (with_before w (map calm (before_request w)))). }
    destruct (handle_client_reaches _ _ _ _ Hreach') as (parsed' & Hp' & _ & E').
    rewrite Hparsed in Hp'. injection Hp' as <-.
    rewrite E'. cbn [with_before before_request]. rewrite before_trace_calm.
    reflexivity.
  - intros A B HAB a b. rewrite E, HAB. cbn [before_trace hooked].
    subst a b. rewrite app_nil_r. simpl. f_equal.
    rewrite <- app_assoc. reflexivity.
Qed.

(** ** Path resolution (C1, C10) *)

Lemma answer_rejected (w : World) (request : Request) :
  sanitize_path w (req_path request) = None ->
  answer w request = [EvSend not_found_response].
Proof. intro H. unfold answer, resolve. now rewrite H. Qed.

(** A request whose normalized path holds [..] gets 404 and the file
    system is left alone. *)
Lemma dotdot_rejected (w : World) (data addr : str) (request : Request) :
  reaches_resolve w data addr = Some request ->
  Str.contains Posixpath.pardir (normalized (req_path request)) = true ->
  sanitize_path w (req_path request) = None
  /\ sent (handle_client w data addr) = [not_found_response]
  /\ touched (handle_client w data addr) = [].
Proof.
  intros Hreach Hdots.
  assert (Hs : sanitize_path w (req_path request) = None).
  { rewrite sanitize_path_eq. now rewrite Hdots. }
  destruct (handle_client_reaches _ _ _ _ Hreach) as (parsed & _ & _ & E).
  rewrite E, (answer_rejected _ _ Hs), !sent_app, !touched_app.
  destruct (before_trace_silent (before_request w) parsed) as (-> & _ & ->).
  now repeat split.
Qed.

Lemma before_trace_confined (root : str) (hooks : list BeforeHook) (request : Request) :
  forallb (confined root) (before_trace hooks request) = true.
Proof.
  revert request; induction hooks as [|hook hooks IH]; intro request; [reflexivity|].
  cbn [before_trace forallb]. rewrite forallb_app, IH, andb_true_r. simpl.
  induction (hk_written (bh_call hook request)) as [|b l IHl]; [reflexivity | exact IHl].
Qed.

Lemma handle_client_confined (w : World) (data addr : str) :
  forallb (confined (WEB_ROOT w)) (handle_client w data addr) = true.
Proof.
  destruct (reaches_resolve w data addr) as [request|] eqn:Hreach.
  - destruct (handle_client_reaches _ _ _ _ Hreach) as (parsed & _ & _ & ->).
    rewrite !forallb_app, before_trace_confined.
    now rewrite (resolving_confined _ _ (answer_resolving w request)).
  - unfold reaches_resolve in Hreach. unfold handle_client, handle.
    destruct data as [|c data]; [reflexivity|].
    destruct (parse_request (c :: data)); [|reflexivity].
    destruct (_ && _); [reflexivity | discriminate].
Qed.

Lemma WEB_ROOT_absolute (w : World) :
  Posixpath.isabs (BASE_DIR w) = true -> Posixpath.isabs (WEB_ROOT w) = true.
Proof.
  unfold Posixpath.isabs. intro H.
  destruct (startswith_inv _ _ H) as [rest E].
  unfold WEB_ROOT, Posixpath.join. rewrite E.
  change (Str.startswith Posixpath.sep (py "root")) with false. cbv iota.
  destruct (_ || _); rewrite <- app_assoc; apply startswith_app.
Qed.

(** On a POSIX host [sanitize_path] fails or returns an absolute path
    inside the web root: the web root, a slash, and a relative path
    without a [..] component.  When the normalized request path has a [..]
    component it fails, and the request that got as far as path resolution
    is answered 404 without a call to the file system.  No call of the
    handler to the file system, on any input, is on a path outside the web
    root. *)
Lemma sanitize_path_inside_on_posix
      (w : World) (Habs : Posixpath.isabs (BASE_DIR w) = true) :
  (forall path p,
      sanitize_path w path = Some p ->
      Posixpath.isabs p = true /\ inside (WEB_ROOT w) p = true)
  /\ (forall path,
         In Posixpath.pardir (Str.split Posixpath.sep (normalized path)) ->
         sanitize_path w path = None)
  /\ (forall data addr request,
         reaches_resolve w data addr = Some request ->
         In Posixpath.pardir (Str.split Posixpath.sep (normalized (req_path request))) ->
         sent (handle_client w data addr) = [not_found_response]
         /\ touched (handle_client w data addr) = [])
  /\ (forall data addr,
         forallb (confined (WEB_ROOT w)) (handle_client w data addr) = true).
Proof.
  split; [|split; [|split]].
  - intros path p H. split.
    + pose proof (WEB_ROOT_absolute w Habs) as Hroot.
      rewrite sanitize_path_eq in H. destruct (Str.contains _ _); [discriminate|].
      injection H as <-. unfold Posixpath.isabs in *.
      destruct (startswith_inv _ _ Hroot) as [rest ->].
      rewrite <- app_assoc. apply startswith_app.
    + apply tight_inside. eapply sanitize_path_tight; eassumption.
  - intros path H. rewrite sanitize_path_eq.
    now rewrite (pardir_component_contains _ H).
  - intros data addr request Hreach H.
    apply (dotdot_rejected _ _ _ _ Hreach (pardir_component_contains _ H)).
  - apply handle_client_confined.
Qed.

(** C10.  The test of [sanitize_path] is on the substring [..], not on
    components: a request whose normalized path holds two dots in a row
    anywhere, also inside a name such as [a..b.txt], fails path resolution
    and is answered 404 when it gets that far, for every file system, so
    also when the file exists under the web root. *)
Theorem two_dots_anywhere_is_404
        (w : World) (data addr : str) (request : Request)
        (Hreach : reaches_resolve w data addr = Some request)
        (Hdots : Str.contains (py "..") (normalized (req_path request)) = true) :
  sanitize_path w (req_path request) = None
  /\ sent (handle_client w data addr) = [not_found_response]
  /\ touched (handle_client w data addr) = [].
Proof. exact (dotdot_rejected _ _ _ _ Hreach Hdots). Qed.

(** ** The resource resolver (C3, C4, C5, C8, C9) *)

Lemma sanitize_path_nonempty (w : World) (path p : str) :
  sanitize_path w path = Some p -> p <> [].
Proof.
  rewrite sanitize_path_eq. destruct (Str.contains _ _); [discriminate|].
  intros [= <-]. destruct (WEB_ROOT_shape w) as [pre ->].
  destruct pre; discriminate.
Qed.

Lemma resolve_eq (w : World) (request : Request) (path : str) :
  sanitize_path w (req_path request) = Some path ->
  resolve w request = (favicon_shortcut w request ;; serve w request path).
Proof.
  intro H. unfold resolve. rewrite H.
  destruct path; [|reflexivity]. now destruct (sanitize_path_nonempty _ _ _ H).
Qed.

Lemma favicon_skipped (w : World) (request : Request) :
  favicon_applies w request = false ->
  favicon_shortcut w request = (favicon_probe w request, Ok tt).
Proof.
  unfold favicon_applies, favicon_shortcut, favicon_probe.
  destruct (favicon (config w)) as [[|f fav]|]; try reflexivity.
  destruct (Str.eqb _ _); [|reflexivity]. simpl andb.
  destruct (sanitize_path w (f :: fav)) as [[|c fp]|]; try reflexivity.
  intros H. unfold os_path_isfile. rewrite bind_ok, H. reflexivity.
Qed.

Lemma favicon_probe_silent (w : World) (request : Request) :
  sent (favicon_probe w request) = [] /\ opened (favicon_probe w request) = [].
Proof.
  unfold favicon_probe.
  destruct (favicon (config w)) as [[|f fav]|]; try now split.
  destruct (Str.eqb _ _); [|now split].
  destruct (sanitize_path w (f :: fav)) as [[|c fp]|]; now split.
Qed.

(** When the favicon block does not answer, the request is resolved as
    any other. *)
Lemma answer_fallthrough (w : World) (request : Request) (path : str) :
  sanitize_path w (req_path request) = Some path ->
  favicon_applies w request = false ->
  answer w request
  = favicon_probe w request ++ fst (try_except (serve w request path) internal_error).
Proof.
  intros Hp Hf. unfold answer.
  rewrite (resolve_eq _ _ _ Hp), (favicon_skipped _ _ Hf), bind_ok.
  apply try_except_app.
Qed.

Lemma directory_target (w : World) (path target : str) :
  is_target w path target -> isfile w target = true ->
  directory w path = (target_probe w path target, Ok target).
Proof.
  unfold directory, target_probe, os_path_isdir, os_path_isfile.
  intros [[Hd ->]|[Hd ->]] Hf; rewrite bind_ok, Hd.
  - reflexivity.
  - rewrite bind_ok, Hf. reflexivity.
Qed.

(** Normal resolution of a request whose target is there: the response
    of method dispatch goes through the post-resolution callbacks and is
    sent. *)
Lemma serve_target (w : World) (request : Request) (path target : str)
      (t : list event) (response : Response) :
  is_target w path target -> isfile w target = true ->
  dispatch w request target = (t, Ok response) ->
  serve w request path
  = (target_probe w path target ++ [EvIsFile target] ++ t
     ++ after_trace (after_request w) request response
     ++ [EvSend (final_response (after_request w) request response)], Ok tt).
Proof.
  intros Ht Hf Hd. unfold serve, os_path_isfile.
  rewrite (directory_target _ _ _ Ht Hf), bind_ok, bind_ok, Hf. cbn [negb fst snd].
  rewrite Hd, bind_ok, run_after_eq, bind_ok. cbn [fst snd send emit].
  destruct (final_response (after_request w) request response). reflexivity.
Qed.

Lemma target_probe_silent (w : World) (path target : str) :
  sent (target_probe w path target) = [] /\ opened (target_probe w path target) = [].
Proof. unfold target_probe. destruct (isdir w path); now split. Qed.

Lemma serve_unreadable (w : World) (request : Request) (path target : str) :
  is_target w path target -> isfile w target = true ->
  dispatch w request target = ([EvOpen target], Raised) ->
  serve w request path
  = (target_probe w path target ++ [EvIsFile target; EvOpen target], Raised).
Proof.
  intros Ht Hf Hd. unfold serve, os_path_isfile.
  rewrite (directory_target _ _ _ Ht Hf), bind_ok, bind_ok, Hf. cbn [negb fst snd].
  rewrite Hd. reflexivity.
Qed.

(** C4, as the handler has it.  A GET that the favicon block does not
    answer and that resolves to an existing regular file (the resolved
    path itself, or the [index.html] of the directory it names) opens that
    file and no other.  When the file can be read, the response built is
    200 with the content of the file as body, [Content-Length] the decimal
    length of that content, and [Content-Type] what [guess_type] gives for
    the path, [application/octet-stream] when it gives nothing; that
    response goes through the post-resolution callbacks, what they leave
    is the one response sent, and with no such callback it is sent as
    built.  When reading the file raises, the one response sent is the
    fixed 500. *)
Theorem get_serves_the_file
        (w : World) (data addr : str) (request : Request) (path target : str)
        (Hreach : reaches_resolve w data addr = Some request)
        (Hget : req_method request = py "GET")
        (Hpath : sanitize_path w (req_path request) = Some path)
        (Hfavicon : favicon_applies w request = false)
        (Htarget : is_target w path target)
        (Hfile : isfile w target = true) :
  opened (handle_client w data addr) = [target]
  /\ (forall content,
        read w target = Some content ->
        let mime := match guess_type w target with
                    | Some ((_ :: _) as mime) => mime
                    | _ => py "application/octet-stream"
                    end in
        let response :=
          mkResponse 200
                     [(py "Content-Type", mime);
                      (py "Content-Length", Str.of_nat (List.length content))]
                     content in
        sent (handle_client w data addr)
        = [final_response (after_request w) request response]
        /\ (after_request w = [] -> sent (handle_client w data addr) = [response]))
  /\ (read w target = None ->
      sent (handle_client w data addr) = [internal_error_response]).
Proof.
  destruct (handle_client_reaches _ _ _ _ Hreach) as (parsed & _ & _ & E).
  rewrite E, (answer_fallthrough _ _ _ Hpath Hfavicon).
  destruct (read w target) as [content|] eqn:Hread.
  - set (mime := match guess_type w target with
                 | Some ((_ :: _) as mime) => mime
                 | _ => py "application/octet-stream"
                 end).
    set (response := mkResponse 200
                                [(py "Content-Type", mime);
                                 (py "Content-Length", Str.of_nat (List.length content))]
                                content).
    assert (Hd : dispatch w request target = ([EvOpen target], Ok response)).
    { unfold dispatch, open_read, emit. rewrite Hget, str_eqb_refl, bind_ok, Hread.
      reflexivity. }
    rewrite (serve_target _ _ _ _ _ _ Htarget Hfile Hd).
    cbn [try_except fst].
    rewrite !sent_app, !opened_app.
    destruct (before_trace_silent (before_request w) parsed) as (-> & -> & _).
    destruct (favicon_probe_silent w request) as (-> & ->).
    destruct (target_probe_silent w path target) as (-> & ->).
    destruct (after_trace_silent (after_request w) request response) as (-> & -> & _).
    split; [reflexivity|]. split; [|discriminate].
    intros content' Hc. injection Hc as <-. fold mime. fold response.
    split; [reflexivity|]. intros ->. reflexivity.
  - assert (Hd : dispatch w request target = ([EvOpen target], Raised)).
    { unfold dispatch, open_read, emit. rewrite Hget, str_eqb_refl, bind_ok, Hread.
      reflexivity. }
    rewrite (serve_unreadable _ _ _ _ Htarget Hfile Hd).
    cbn [try_except internal_error send emit fst snd].
    rewrite !sent_app, !opened_app.
    destruct (before_trace_silent (before_request w) parsed) as (-> & -> & _).
    destruct (favicon_probe_silent w request) as (-> & ->).
    destruct (target_probe_silent w path target) as (-> & ->).
    split; [reflexivity|]. split; [discriminate|]. reflexivity.
Qed.

(** C1 on the code.  The containment holds where [os.path] is
    [posixpath] and fails where it is [ntpath].  On a POSIX host
    [sanitize_path] fails or returns an absolute path inside the web root,
    a [..] component makes it fail with the answer 404 and no call to the
    file system, and no call of the handler to the file system is on a
    path outside the web root.  On Windows, for the server installed in
    [C:\srv\lynx], the request path [/C:/Windows/win.ini] and the path
    [/%5CWindows%5Cwin.ini] have no [..] after normalization, and
    [os.path.join] drops the web root for them: [sanitize_path] returns
    [C:\Windows\win.ini], which is not under the web root
    [C:\srv\lynx\root].  From the directory block on, the handler uses
    [os.path] for a path that is no directory only through [isdir] and
    [isfile], so it goes on as on any host: for a GET it opens that file
    and sends its content with status 200. *)
Theorem sanitize_path_leaves_the_web_root_under_ntpath :
  (forall w,
      Posixpath.isabs (BASE_DIR w) = true ->
      (forall path p,
          sanitize_path w path = Some p ->
          Posixpath.isabs p = true /\ inside (WEB_ROOT w) p = true)
      /\ (forall path,
             In Posixpath.pardir (Str.split Posixpath.sep (normalized path)) ->
             sanitize_path w path = None)
      /\ (forall data addr request,
             reaches_resolve w data addr = Some request ->
             In Posixpath.pardir (Str.split Posixpath.sep (normalized (req_path request))) ->
             sent (handle_client w data addr) = [not_found_response]
             /\ touched (handle_client w data addr) = [])
      /\ (forall data addr,
             forallb (confined (WEB_ROOT w)) (handle_client w data addr) = true))
  /\ (forall w path, sanitize_path w path = sanitize_path_on posixpath (WEB_ROOT w) path)
  /\ os_join ntpath (py "C:\srv\lynx") (py "root") = py "C:\srv\lynx\root"
  /\ sanitize_path_on ntpath (py "C:\srv\lynx\root") (py "/pub/y.txt")
     = Some (py "C:\srv\lynx\root\pub\y.txt")
  /\ sanitize_path_on ntpath (py "C:\srv\lynx\root") (py "/../Windows/win.ini") = None
  /\ sanitize_path_on ntpath (py "C:\srv\lynx\root") (py "/C:/Windows/win.ini")
     = Some (py "C:\Windows\win.ini")
  /\ sanitize_path_on ntpath (py "C:\srv\lynx\root") (py "/%5CWindows%5Cwin.ini")
     = Some (py "C:\Windows\win.ini")
  /\ Str.startswith (py "C:\srv\lynx\root") (py "C:\Windows\win.ini") = false
  /\ (forall w request content,
         req_method request = py "GET" ->
         isdir w (py "C:\Windows\win.ini") = false ->
         isfile w (py "C:\Windows\win.ini") = true ->
         read w (py "C:\Windows\win.ini") = Some content ->
         after_request w = [] ->
         opened (fst (serve w request (py "C:\Windows\win.ini")))
         = [py "C:\Windows\win.ini"]
         /\ map status (sent (fst (serve w request (py "C:\Windows\win.ini")))) = [200]
         /\ map body (sent (fst (serve w request (py "C:\Windows\win.ini")))) = [content]).
Proof.
  split; [exact sanitize_path_inside_on_posix|].
  split; [reflexivity|].
  split; [vm_compute; reflexivity|]. split; [vm_compute; reflexivity|].
  split; [vm_compute; reflexivity|]. split; [vm_compute; reflexivity|].
  split; [vm_compute; reflexivity|]. split; [vm_compute; reflexivity|].
  intros w request content Hget Hdir Hfile Hread Hnone.
  set (p := py "C:\Windows\win.ini") in *.
  assert (Hd : exists response,
             dispatch w request p = ([EvOpen p], Ok response)
             /\ status response = 200 /\ body response = content).
  { unfold dispatch, open_read, emit. rewrite Hget, str_eqb_refl, bind_ok, Hread.
    eexists. split; [reflexivity|]. split; reflexivity. }
  destruct Hd as (response & Hd & Hs & Hb).
  rewrite (serve_target w request p p _ _ (or_introl (conj Hdir eq_refl)) Hfile Hd).
  cbn [fst]. rewrite Hnone. unfold target_probe. rewrite Hdir.
  cbn [app opened sent after_trace final_response map]. now rewrite Hs, Hb.
Qed.


Lemma serve_missing (w : World) (request : Request) (path : str) :
  isdir w path = false -> isfile w path = false ->
  serve w request path = ([EvIsDir path; EvIsFile path; EvSend not_found_response], Returned).
Proof.
  intros Hd Hf. unfold serve, directory, os_path_isdir, os_path_isfile.
  rewrite bind_ok, Hd. cbn [ret fst snd]. rewrite bind_ok, bind_ok, Hf. reflexivity.
Qed.

(** C3, as the handler has it.  A POST is answered from its body only
    when method dispatch is reached, that is when the resolved target is
    a regular file (the path itself or the [index.html] of the directory
    it names) and the favicon block did not answer: then the response
    built is 200, [text/html], with the page that shows the dict
    [parse_qs] makes of the body; it goes through the post-resolution
    callbacks and is the one response sent, and no file is opened.  A
    POST whose resolved path is neither a directory nor a file is answered
    404. *)
Theorem post_echoes_the_form_when_the_target_exists
        (w : World) (data addr : str) (request : Request) (path : str)
        (Hreach : reaches_resolve w data addr = Some request)
        (Hpost : req_method request = py "POST")
        (Hpath : sanitize_path w (req_path request) = Some path)
        (Hfavicon : favicon_applies w request = false) :
  (forall target,
      is_target w path target -> isfile w target = true ->
      sent (handle_client w data addr)
      = [final_response (after_request w) request (form_page request)]
      /\ opened (handle_client w data addr) = []
      /\ (after_request w = [] ->
          sent (handle_client w data addr) = [form_page request]))
  /\ (isdir w path = false -> isfile w path = false ->
      sent (handle_client w data addr) = [not_found_response]
      /\ opened (handle_client w data addr) = []).
Proof.
  destruct (handle_client_reaches _ _ _ _ Hreach) as (parsed & _ & _ & E).
  destruct (before_trace_silent (before_request w) parsed) as (Hb1 & Hb2 & _).
  destruct (favicon_probe_silent w request) as (Hf1 & Hf2).
  rewrite E, (answer_fallthrough _ _ _ Hpath Hfavicon), !sent_app, !opened_app,
    Hb1, Hb2, Hf1, Hf2.
  split.
  - intros target Htarget Hfile.
    assert (Hd : dispatch w request target = ([], Ok (form_page request))).
    { unfold dispatch. rewrite Hpost. reflexivity. }
    rewrite (serve_target _ _ _ _ _ _ Htarget Hfile Hd). cbn [try_except fst].
    rewrite !sent_app, !opened_app.
    destruct (target_probe_silent w path target) as (-> & ->).
    destruct (after_trace_silent (after_request w) request (form_page request))
      as (-> & -> & _).
    repeat split. intros ->. reflexivity.
  - intros Hd Hf. rewrite (serve_missing _ _ _ Hd Hf). now split.
Qed.

Lemma fold_left_anchor_none (request_path : str) (files : list filename) :
  fold_left (fun listing file =>
               match listing, file with
               | Some listing, Text file =>
                   Some (listing ++ anchor (Posixpath.join request_path file) file)
               | _, _ => None
               end)
            files None
  = None.
Proof. induction files as [|file files IH]; [reflexivity|exact IH]. Qed.

Lemma fold_left_anchor (request_path : str) (files : list filename) (listing : str) :
  fold_left (fun listing file =>
               match listing, file with
               | Some listing, Text file =>
                   Some (listing ++ anchor (Posixpath.join request_path file) file)
               | _, _ => None
               end)
            files (Some listing)
  = option_map
      (fun names =>
         listing
         ++ concat (map (fun file => anchor (Posixpath.join request_path file) file) names))
      (texts files).
Proof.
  revert listing; induction files as [|[name|] files IH]; intro listing; cbn [fold_left texts].
  - cbn [option_map map concat]. now rewrite app_nil_r.
  - rewrite IH. destruct (texts files) as [names|]; cbn [option_map map concat];
      [now rewrite <- app_assoc|reflexivity].
  - apply fold_left_anchor_none.
Qed.

Lemma handle_directory_eq (w : World) (path request_path : str) :
  handle_directory w path request_path
  = ([EvListDir path], Ok (listing_body w path request_path)).
Proof.
  unfold handle_directory, os_listdir, emit, listing_body. rewrite bind_ok.
  destruct (listdir w path) as [files|]; [|reflexivity].
  cbn [ret fst snd bind app]. rewrite fold_left_anchor.
  destruct (texts files) as [names|]; cbn [option_map]; [|reflexivity].
  cbn [ret try_except]. unfold listing_page.
  now rewrite <- app_assoc.
Qed.

(** A directory without index: the listing for a [rel_path] that is in
    [browsable_dirs], 403 for one that is not. *)
Lemma serve_directory (w : World) (request : Request) (path rel_path : str) :
  isdir w path = true ->
  isfile w (Posixpath.join path (py "index.html")) = false ->
  rel_path_of w path = Some rel_path ->
  serve w request path
  = (EvIsDir path :: EvIsFile (Posixpath.join path (py "index.html"))
     :: if Str.mem rel_path (browsable_dirs (config w))
        then let body := listing_body w path rel_path in
             [EvListDir path;
              EvSend (mkResponse 200 [(py "Content-Type", py "text/html");
                                      content_length body] body)]
        else [EvSend forbidden_response],
     Returned).
Proof.
  intros Hd Hi Hr. unfold serve, directory, os_path_isdir, os_path_isfile.
  rewrite bind_ok, Hd, bind_ok, Hi, Hr.
  destruct (Str.mem rel_path (browsable_dirs (config w))); cbn [negb].
  - rewrite handle_directory_eq, bind_ok. reflexivity.
  - reflexivity.
Qed.

(** C9.  When the directory block lists a browsable directory and
    [os.listdir] raises, the handler sends 200 with the fixed body
    [Error listing directory]; that is the only response, the request is
    not turned into a 500, and the connection is closed as usual. *)
Theorem listing_failure_is_answered_200
        (w : World) (data addr : str) (request : Request) (path rel_path : str)
        (Hreach : reaches_resolve w data addr = Some request)
        (Hpath : sanitize_path w (req_path request) = Some path)
        (Hfavicon : favicon_applies w request = false)
        (Hdir : isdir w path = true)
        (Hindex : isfile w (Posixpath.join path (py "index.html")) = false)
        (Hrel : rel_path_of w path = Some rel_path)
        (Hbrowsable : Str.mem rel_path (browsable_dirs (config w)) = true)
        (Hfail : listdir w path = None) :
  sent (handle_client w data addr) = [listing_error]
  /\ exists parsed,
      parse_request data = Some parsed
      /\ handle_client w data addr
         = before_trace (before_request w) parsed
           ++ favicon_probe w request
           ++ [EvIsDir path; EvIsFile (Posixpath.join path (py "index.html"));
               EvListDir path; EvSend listing_error; EvClose].
Proof.
  destruct (handle_client_reaches _ _ _ _ Hreach) as (parsed & Hp & _ & E).
  assert (E' : handle_client w data addr
               = before_trace (before_request w) parsed
                 ++ favicon_probe w request
                 ++ [EvIsDir path; EvIsFile (Posixpath.join path (py "index.html"));
                     EvListDir path; EvSend listing_error; EvClose]).
  { rewrite E, (answer_fallthrough _ _ _ Hpath Hfavicon),
      (serve_directory _ request _ _ Hdir Hindex Hrel), Hbrowsable.
    unfold listing_body. rewrite Hfail.
    cbn [try_except fst]. now rewrite <- !app_assoc. }
  split; [|now exists parsed].
  rewrite E', !sent_app.
  destruct (before_trace_silent (before_request w) parsed) as (-> & _).
  now destruct (favicon_probe_silent w request) as (-> & _).
Qed.

Lemma sanitize_favicon_route (w : World) :
  sanitize_path w (py "/favicon.ico")
  = Some (WEB_ROOT w ++ Posixpath.sep ++ py "favicon.ico").
Proof. rewrite sanitize_path_eq. reflexivity. Qed.

Lemma favicon_served (w : World) (request : Request) (fav favicon_path : str)
      (content : bytes) :
  req_path request = py "/favicon.ico" ->
  favicon (config w) = Some fav -> fav <> [] ->
  sanitize_path w fav = Some favicon_path ->
  isfile w favicon_path = true ->
  read w favicon_path = Some content ->
  answer w request
  = [EvIsFile favicon_path; EvOpen favicon_path;
     EvSend (mkResponse 200
                        [(py "Content-Type", py "image/x-icon");
                         (py "Content-Length", Str.of_nat (List.length content))]
                        content)].
Proof.
  intros Hroute Hfav Hne Hsan Hfile Hread. unfold answer.
  assert (Hp : sanitize_path w (req_path request)
               = Some (WEB_ROOT w ++ Posixpath.sep ++ py "favicon.ico")).
  { rewrite Hroute. apply sanitize_favicon_route. }
  rewrite (resolve_eq _ _ _ Hp). unfold favicon_shortcut.
  rewrite Hfav. destruct fav as [|f fav]; [contradiction|].
  rewrite Hroute, str_eqb_refl, Hsan.
  destruct favicon_path as [|c fp]; [now destruct (sanitize_path_nonempty _ _ _ Hsan)|].
  unfold os_path_isfile, open_read, emit. rewrite bind_ok, Hfile, bind_ok, Hread.
  reflexivity.
Qed.

Lemma favicon_unreadable (w : World) (request : Request) (fav favicon_path : str) :
  req_path request = py "/favicon.ico" ->
  favicon (config w) = Some fav -> fav <> [] ->
  sanitize_path w fav = Some favicon_path ->
  isfile w favicon_path = true ->
  read w favicon_path = None ->
  answer w request
  = [EvIsFile favicon_path; EvOpen favicon_path; EvSend internal_error_response].
Proof.
  intros Hroute Hfav Hne Hsan Hfile Hread. unfold answer.
  assert (Hp : sanitize_path w (req_path request)
               = Some (WEB_ROOT w ++ Posixpath.sep ++ py "favicon.ico")).
  { rewrite Hroute. apply sanitize_favicon_route. }
  rewrite (resolve_eq _ _ _ Hp). unfold favicon_shortcut.
  rewrite Hfav. destruct fav as [|f fav]; [contradiction|].
  rewrite Hroute, str_eqb_refl, Hsan.
  destruct favicon_path as [|c fp]; [now destruct (sanitize_path_nonempty _ _ _ Hsan)|].
  unfold os_path_isfile, open_read, emit. rewrite bind_ok, Hfile, bind_ok, Hread.
  reflexivity.
Qed.

Lemma favicon_other_path (w : World) (request : Request) :
  req_path request <> py "/favicon.ico" ->
  favicon_applies w request = false /\ favicon_probe w request = [].
Proof.
  intro H. apply str_eqb_neq in H. unfold favicon_applies, favicon_probe.
  destruct (favicon (config w)) as [[|f fav]|]; try now split.
  rewrite H. now split.
Qed.

(** C8, as the handler has it.  The favicon route is the literal request
    path [/favicon.ico]; the [favicon] entry of the configuration names
    the file that is served there.  For a request with that path, when
    the entry is set and [sanitize_path] of the entry is a regular file
    that can be read, that file is sent with status 200 and type
    [image/x-icon], whatever the method, and nothing else is done; when
    reading that file raises, the answer is the fixed 500 and nothing else
    is done.  When the block does not answer (no entry, or the entry is no
    regular file under the web root) the request is resolved as any other
    request for its own path, and a request with any other path, the
    configured one included, never takes the shortcut. *)
Theorem favicon_is_served_on_the_literal_route
        (w : World) (data addr : str) (request : Request)
        (Hreach : reaches_resolve w data addr = Some request) :
  (exists parsed,
      parse_request data = Some parsed
      /\ handle_client w data addr
         = before_trace (before_request w) parsed ++ answer w request ++ [EvClose])
  /\ (forall fav favicon_path content,
         req_path request = py "/favicon.ico" ->
         favicon (config w) = Some fav -> fav <> [] ->
         sanitize_path w fav = Some favicon_path ->
         isfile w favicon_path = true ->
         read w favicon_path = Some content ->
         answer w request
         = [EvIsFile favicon_path; EvOpen favicon_path;
            EvSend (mkResponse 200
                               [(py "Content-Type", py "image/x-icon");
                                (py "Content-Length", Str.of_nat (List.length content))]
                               content)])
  /\ (forall path,
         sanitize_path w (req_path request) = Some path ->
         favicon_applies w request = false ->
         answer w request
         = favicon_probe w request
           ++ fst (try_except (serve w request path) internal_error))
  /\ (req_path request <> py "/favicon.ico" ->
      favicon_applies w request = false /\ favicon_probe w request = [])
  /\ (forall fav favicon_path,
         req_path request = py "/favicon.ico" ->
         favicon (config w) = Some fav -> fav <> [] ->
         sanitize_path w fav = Some favicon_path ->
         isfile w favicon_path = true ->
         read w favicon_path = None ->
         answer w request
         = [EvIsFile favicon_path; EvOpen favicon_path; EvSend internal_error_response]).
Proof.
  split; [|split; [|split; [|split]]].
  - destruct (handle_client_reaches _ _ _ _ Hreach) as (parsed & Hp & _ & E).
    now exists parsed.
  - intros fav favicon_path content. apply favicon_served.
  - intros path. apply answer_fallthrough.
  - apply favicon_other_path.
  - intros fav favicon_path. apply favicon_unreadable.
Qed.

(** ** The theorems on the machine *)

Example sanitize_path_inside_on_the_machine :
  Posixpath.isabs (BASE_DIR demo) = true
  /\ (Posixpath.isabs (py "/srv/lynx/root/pub/y.txt") = true
      /\ inside (WEB_ROOT demo) (py "/srv/lynx/root/pub/y.txt") = true)
  /\ sanitize_path demo (py "/%2e%2e/../etc/passwd") = None
  /\ (sent (handle_client demo (get "/../../etc/passwd") stranger) = [not_found_response]
      /\ touched (handle_client demo (get "/../../etc/passwd") stranger) = [])
  /\ forallb (confined (WEB_ROOT demo)) (handle_client demo (get "/site/") stranger) = true.
Proof.
  destruct (sanitize_path_inside_on_posix demo eq_refl) as (H1 & H2 & H3 & H4).
  split; [reflexivity|].
  split; [apply (H1 (py "//pub/./x/../y.txt?q=1")); reflexivity|].
  split; [apply H2; vm_compute; auto|].
  split; [|apply H4].
  apply (H3 _ _ (mkRequest (py "GET") (py "/../../etc/passwd") (py "HTTP/1.1")
                           [(py "host", py "lynx")] []));
    [reflexivity | vm_compute; auto].
Qed.

Lemma two_dots_anywhere_is_404_witness :
  isfile demo (py "/srv/lynx/root/a..b.txt") = true
  /\ Str.split Posixpath.sep (normalized (py "/a..b.txt")) = [py "a..b.txt"]
  /\ sanitize_path demo (py "/a..b.txt") = None
  /\ sent (handle_client demo (get "/a..b.txt") stranger) = [not_found_response]
  /\ touched (handle_client demo (get "/a..b.txt") stranger) = [].
Proof.
  split; [reflexivity|]. split; [reflexivity|].
  apply (two_dots_anywhere_is_404 demo (get "/a..b.txt") stranger
           (mkRequest (py "GET") (py "/a..b.txt") (py "HTTP/1.1") [(py "host", py "lynx")] []));
    reflexivity.
Defined.

(** C2 as stated fails: the whitelist is enabled and the address is not
    in it, yet a read that does not decode is answered 400, and an empty
    read is answered with nothing. *)
Lemma whitelist_comes_after_decoding :
  ip_whitelist_enabled (config guarded) = true
  /\ Str.mem stranger (ip_whitelist (config guarded)) = false
  /\ handle_client guarded (py "hello") stranger = [EvSend bad_request; EvClose]
  /\ handle_client guarded [] stranger = [EvClose].
Proof. repeat split. Qed.

Lemma whitelist_rejects_before_hooks_witness :
  ip_whitelist_enabled (config guarded) = true
  /\ Str.mem stranger (ip_whitelist (config guarded)) = false
  /\ handle_client guarded (get "/hello.txt") stranger = [EvSend forbidden_response; EvClose]
  /\ observers (handle_client guarded (get "/hello.txt") stranger) = []
  /\ touched (handle_client guarded (get "/hello.txt") stranger) = [].
Proof.
  split; [reflexivity|]. split; [reflexivity|].
  apply (whitelist_rejects_before_hooks guarded (get "/hello.txt") stranger); reflexivity.
Defined.

(** C3 as stated fails: the path passes path resolution, the target does
    not exist, and the POST is answered 404, not 200. *)
Lemma post_to_a_missing_target_is_404 :
  reaches_resolve demo (post "/nothing" "a=1") stranger
  = Some (mkRequest (py "POST") (py "/nothing") (py "HTTP/1.1") [(py "host", py "lynx")]
                    (py "a=1"))
  /\ sanitize_path demo (py "/nothing") = Some (py "/srv/lynx/root/nothing")
  /\ sent (handle_client demo (post "/nothing" "a=1") stranger) = [not_found_response].
Proof. repeat split. Qed.

Lemma post_echoes_the_form_when_the_target_exists_witness :
  sent (handle_client demo (post "/hello.txt" "a=1&b=x+y&a=2") stranger)
  = [mkResponse 200 [(py "Content-Type", py "text/html")]
                (py "<html><body><pre>{'a': ['1', '2'], 'b': ['x y']}</pre></body></html>")]
  /\ opened (handle_client demo (post "/hello.txt" "a=1&b=x+y&a=2") stranger) = [].
Proof.
  destruct (post_echoes_the_form_when_the_target_exists
              demo (post "/hello.txt" "a=1&b=x+y&a=2") stranger
              (mkRequest (py "POST") (py "/hello.txt") (py "HTTP/1.1")
                         [(py "host", py "lynx")] (py "a=1&b=x+y&a=2"))
              (py "/srv/lynx/root/hello.txt")
              eq_refl eq_refl eq_refl eq_refl) as [H _].
  destruct (H (py "/srv/lynx/root/hello.txt") (or_introl (conj eq_refl eq_refl)) eq_refl)
    as (Hs & Ho & _).
  split; [exact Hs | exact Ho].
Defined.

(** C4 as stated fails on a request for [/favicon.ico]: the path resolves
    to an existing regular file, and what is sent is the configured icon,
    another file, typed [image/x-icon] without a look at the MIME table.
    With the default configuration the file is the same and the type is
    still not the one guessed from the extension. *)
Lemma favicon_request_is_not_served_by_method_dispatch :
  sanitize_path branded (py "/favicon.ico") = Some (py "/srv/lynx/root/favicon.ico")
  /\ isfile branded (py "/srv/lynx/root/favicon.ico") = true
  /\ read branded (py "/srv/lynx/root/favicon.ico") = Some (py "ICO")
  /\ sent (handle_client branded (get "/favicon.ico") stranger)
     = [mkResponse 200 [(py "Content-Type", py "image/x-icon"); (py "Content-Length", py "4")]
                   (py "LOGO")]
  /\ guess_type demo (py "/srv/lynx/root/favicon.ico") = Some (py "image/vnd.microsoft.icon")
  /\ sent (handle_client demo (get "/favicon.ico") stranger)
     = [mkResponse 200 [(py "Content-Type", py "image/x-icon"); (py "Content-Length", py "3")]
                   (py "ICO")].
Proof. repeat split. Qed.

Lemma get_serves_the_file_witness :
  sent (handle_client demo (get "/pub/x.bin") stranger)
  = [mkResponse 200 [(py "Content-Type", py "application/octet-stream");
                     (py "Content-Length", py "2")] (py "xx")]
  /\ sent (handle_client demo (get "/site") stranger)
     = [mkResponse 200 [(py "Content-Type", py "text/html");
                        (py "Content-Length", py "9")] (py "<p>hi</p>")]
  /\ isfile jammed (py "/srv/lynx/root/pub/x.bin") = true
  /\ read jammed (py "/srv/lynx/root/pub/x.bin") = None
  /\ sent (handle_client jammed (get "/pub/x.bin") stranger) = [internal_error_response].
Proof.
  split; [|split; [|split; [reflexivity|split; [reflexivity|]]]].
  - destruct (get_serves_the_file
                demo (get "/pub/x.bin") stranger
                (mkRequest (py "GET") (py "/pub/x.bin") (py "HTTP/1.1")
                           [(py "host", py "lynx")] [])
                (py "/srv/lynx/root/pub/x.bin") (py "/srv/lynx/root/pub/x.bin")
                eq_refl eq_refl eq_refl eq_refl (or_introl (conj eq_refl eq_refl))
                eq_refl) as (_ & Hs & _).
    exact (proj1 (Hs (py "xx") eq_refl)).
  - destruct (get_serves_the_file
                demo (get "/site") stranger
                (mkRequest (py "GET") (py "/site") (py "HTTP/1.1") [(py "host", py "lynx")] [])
                (py "/srv/lynx/root/site") (py "/srv/lynx/root/site/index.html")
                eq_refl eq_refl eq_refl eq_refl (or_intror (conj eq_refl eq_refl))
                eq_refl) as (_ & Hs & _).
    exact (proj1 (Hs (py "<p>hi</p>") eq_refl)).
  - destruct (get_serves_the_file
                jammed (get "/pub/x.bin") stranger
                (mkRequest (py "GET") (py "/pub/x.bin") (py "HTTP/1.1")
                           [(py "host", py "lynx")] [])
                (py "/srv/lynx/root/pub/x.bin") (py "/srv/lynx/root/pub/x.bin")
                eq_refl eq_refl eq_refl eq_refl (or_introl (conj eq_refl eq_refl))
                eq_refl) as (_ & _ & Hs).
    exact (Hs eq_refl).
Defined.

Lemma join_nonempty (sep : str) (xs : list str) :
  xs <> [] -> Forall (fun x => x <> []) xs -> Str.join sep xs <> [].
Proof.
  intros Hne H. destruct H as [|x xs Hx _]; [contradiction|].
  destruct x as [|c x]; [contradiction|]. destruct xs; discriminate.
Qed.

Lemma In_skipn_In {A : Type} (n : nat) (l : list A) (x : A) :
  In x (skipn n l) -> In x l.
Proof.
  intro H. rewrite <- (firstn_skipn n l). apply in_or_app. now right.
Qed.

Lemma slash_and_more (rel : str) :
  rel <> [] -> py "/" ++ Str.replace "\"%char "/"%char rel <> py "/".
Proof. destruct rel; [contradiction | discriminate]. Qed.

(** The relative path of the directory block is never the bare slash. *)
Lemma rel_path_of_never_slash (w : World) (path rel_path : str) :
  rel_path_of w path = Some rel_path -> rel_path <> py "/".
Proof.
  unfold rel_path_of, Posixpath.relpath. destruct path as [|c path]; [discriminate|].
  cbv beta iota zeta.
  match goal with
  | |- context [Str.join Posixpath.sep ?l] => destruct l as [|x rel_list] eqn:E
  end.
  - intros [= <-]. discriminate.
  - intros [= <-].
    assert (Hj : Str.join Posixpath.sep (x :: rel_list) <> []).
    { apply join_nonempty; [discriminate|]. rewrite <- E.
      apply Forall_app; split.
      - apply Forall_forall. intros y Hy. apply repeat_spec in Hy. now subst y.
      - apply Forall_forall. intros y Hy. apply In_skipn_In in Hy.
        apply filter_In in Hy as [_ Hy]. now destruct y. }
    exact (slash_and_more _ Hj).
Qed.

(** C5 on the code.  The relative path the handler computes for a
    directory is never [/]: for the web root it is [/.].  So with the
    default configuration, whose [browsable_dirs] is the one entry [/], a
    request for [/] on a web root without [index.html] is answered 403,
    as is the request for any other directory without index; the listing
    of the web root is sent only when the entry is written [/.]. *)
Theorem web_root_is_not_browsable_by_default :
  (forall w path rel_path,
      rel_path_of w path = Some rel_path ->
      Str.mem rel_path (browsable_dirs default_config) = false)
  /\ browsable_dirs (config demo) = [py "/"]
  /\ sanitize_path demo (py "/") = Some (py "/srv/lynx/root/.")
  /\ isdir demo (py "/srv/lynx/root/.") = true
  /\ isfile demo (py "/srv/lynx/root/./index.html") = false
  /\ rel_path_of demo (py "/srv/lynx/root/.") = Some (py "/.")
  /\ handle_client demo (get "/") stranger
     = [EvIsDir (py "/srv/lynx/root/."); EvIsFile (py "/srv/lynx/root/./index.html");
        EvSend forbidden_response; EvClose]
  /\ map status
         (sent (handle_client (machine (mkConfig false [] [py "/."] None) [] [] demo_web)
                              (get "/") stranger))
     = [200].
Proof.
  split; [|repeat split].
  intros w path rel_path H. apply rel_path_of_never_slash in H.
  apply str_eqb_neq in H. cbn [default_config browsable_dirs Str.mem existsb].
  now rewrite H.
Qed.

Lemma before_hooks_run_in_order_and_survive_raising_witness :
  hk_raised (bh_call hook_A (mkRequest (py "GET") (py "/hello.txt") (py "HTTP/1.1")
                                       [(py "host", py "lynx")] [])) = true
  /\ observers (handle_client guarded (get "/hello.txt") (py "127.0.0.1")) = [py "A"; py "B"]
  /\ sent (handle_client guarded (get "/hello.txt") (py "127.0.0.1"))
     = [mkResponse 200 [(py "Content-Type", py "text/plain"); (py "Content-Length", py "5")]
                   (py "hello")].
Proof.
  split; [reflexivity|].
  destruct (before_hooks_run_in_order_and_survive_raising
              guarded (get "/hello.txt") (py "127.0.0.1")
              (mkRequest (py "GET") (py "/hello.txt") (py "HTTP/1.1")
                         [(py "host", py "lynx")] [])
              eq_refl eq_refl) as (Ho & Ht & _ & _).
  split; [exact Ho|]. rewrite Ht. reflexivity.
Defined.

(** C7 as stated fails on the empty read: its request line has no token
    at all, so decoding fails, and nothing is sent. *)
Lemma nothing_read_nothing_sent :
  Str.split_ws (request_line []) = []
  /\ parse_request [] = None
  /\ handle_client demo [] stranger = [EvClose]
  /\ sent (handle_client demo [] stranger) = [].
Proof. repeat split. Qed.

Lemma decoding_failure_is_400_unless_nothing_was_read_witness :
  parse_request (py "GET /") = None
  /\ handle_client demo (py "GET /") stranger = [EvSend bad_request; EvClose]
  /\ req_headers (mkRequest (py "GET") (py "/") (py "HTTP/1.1") [(py "host", py "lynx")] [])
     = parse_headers ([] ++ [py "Host: lynx"]) [].
Proof.
  destruct decoding_failure_is_400_unless_nothing_was_read as (H1 & H2 & H3).
  split; [apply H1; vm_compute; discriminate|].
  split; [apply (H3 demo (py "GET /") stranger); reflexivity|].
  apply (H2 (py "GET / HTTP/1.1" ++ CRLF ++ py "no colon here" ++ CRLF ++ py "Host: lynx")
            _ [] (py "no colon here") [py "Host: lynx"]);
    [reflexivity | reflexivity | discriminate | reflexivity].
Defined.

(** C8 as stated fails when the route is taken to be the configured
    path: with [favicon] set to [/logo.png], a request for [/logo.png] is
    an ordinary request (typed by its extension on GET, 400 on DELETE),
    and it is the request for [/favicon.ico] that is answered with the
    logo as [image/x-icon], whatever its method. *)
Lemma the_configured_favicon_path_is_not_the_route :
  favicon (config branded) = Some (py "/logo.png")
  /\ sanitize_path branded (py "/logo.png") = Some (py "/srv/lynx/root/logo.png")
  /\ isfile branded (py "/srv/lynx/root/logo.png") = true
  /\ sent (handle_client branded (get "/logo.png") stranger)
     = [mkResponse 200 [(py "Content-Type", py "image/png"); (py "Content-Length", py "4")]
                   (py "LOGO")]
  /\ sent (handle_client branded (delete "/logo.png") stranger) = [bad_request]
  /\ sent (handle_client branded (delete "/favicon.ico") stranger)
     = [mkResponse 200 [(py "Content-Type", py "image/x-icon"); (py "Content-Length", py "4")]
                   (py "LOGO")].
Proof. repeat split. Qed.

Lemma favicon_is_served_on_the_literal_route_witness :
  handle_client branded (get "/favicon.ico") stranger
  = [EvIsFile (py "/srv/lynx/root/logo.png"); EvOpen (py "/srv/lynx/root/logo.png");
     EvSend (mkResponse 200 [(py "Content-Type", py "image/x-icon");
                             (py "Content-Length", py "4")] (py "LOGO"));
     EvClose]
  /\ isfile jammed (py "/srv/lynx/root/favicon.ico") = true
  /\ read jammed (py "/srv/lynx/root/favicon.ico") = None
  /\ handle_client jammed (get "/favicon.ico") stranger
     = [EvIsFile (py "/srv/lynx/root/favicon.ico"); EvOpen (py "/srv/lynx/root/favicon.ico");
        EvSend internal_error_response; EvClose].
Proof.
  split; [|split; [reflexivity|split; [reflexivity|]]].
  - destruct (favicon_is_served_on_the_literal_route
                branded (get "/favicon.ico") stranger
                (mkRequest (py "GET") (py "/favicon.ico") (py "HTTP/1.1")
                           [(py "host", py "lynx")] [])
                eq_refl) as ((parsed & Hp & E) & Hserved & _ & _ & _).
    rewrite E.
    rewrite (Hserved (py "/logo.png") (py "/srv/lynx/root/logo.png") (py "LOGO")
                     eq_refl eq_refl ltac:(discriminate) eq_refl eq_refl eq_refl).
    injection Hp as <-. reflexivity.
  - destruct (favicon_is_served_on_the_literal_route
                jammed (get "/favicon.ico") stranger
                (mkRequest (py "GET") (py "/favicon.ico") (py "HTTP/1.1")
                           [(py "host", py "lynx")] [])
                eq_refl) as ((parsed & Hp & E) & _ & _ & _ & Hjam).
    rewrite E.
    rewrite (Hjam (py "/favicon.ico") (py "/srv/lynx/root/favicon.ico")
                  eq_refl eq_refl ltac:(discriminate) eq_refl eq_refl eq_refl).
    injection Hp as <-. reflexivity.
Defined.

Lemma listing_failure_is_answered_200_witness :
  listdir branded (py "/srv/lynx/root/locked") = None
  /\ sent (handle_client branded (get "/locked") stranger) = [listing_error].
Proof.
  split; [reflexivity|].
  apply (listing_failure_is_answered_200
           branded (get "/locked") stranger
           (mkRequest (py "GET") (py "/locked") (py "HTTP/1.1") [(py "host", py "lynx")] [])
           (py "/srv/lynx/root/locked") (py "/locked")
           eq_refl eq_refl eq_refl eq_refl eq_refl eq_refl eq_refl eq_refl).
Defined.

(** * Further properties of the handler *)

(** ** [http_response] *)

Lemma encode_app (a b : str) : Str.encode (a ++ b) = Str.encode a ++ Str.encode b.
Proof. unfold Str.encode. apply flat_map_app. Qed.

Lemma encode_chr_no_CR (c : ascii) : c <> CR -> ~ In CR (Str.encode [c]).
Proof.
  intro H.
  unfold CR in *.
  destruct c as [[] [] [] [] [] [] [] []]; cbv; intuition congruence.
Qed.

Lemma encode_no_CR (x : str) : ~ In CR x -> ~ In CR (Str.encode x).
Proof.
  induction x as [|c x IH]; intro H; [intros []|].
  change (c :: x) with ([c] ++ x). rewrite encode_app. intro Hin.
  apply in_app_or in Hin as [Hin|Hin].
  - revert Hin. apply encode_chr_no_CR. intros ->. apply H. now left.
  - revert Hin. apply IH. intro Hx. apply H. now right.
Qed.

Lemma encode_nonempty (x : str) : x <> [] -> Str.encode x <> [].
Proof.
  destruct x as [|c x]; [contradiction|]. intros _.
  change (c :: x) with ([c] ++ x). rewrite encode_app.
  unfold Str.encode at 1. simpl flat_map.
  destruct (nat_of_ascii c <? 128); discriminate.
Qed.

Lemma of_uint_no_CR (d : Decimal.uint) :
  ~ In CR (list_ascii_of_string (NilEmpty.string_of_uint d)).
Proof.
  unfold CR.
  induction d; simpl; intro H;
    [contradiction | destruct H as [E|H]; [discriminate | now apply IHd] ..].
Qed.

Lemma of_nat_no_CR (n : nat) : ~ In CR (Str.of_nat n).
Proof.
  unfold Str.of_nat, py, NilZero.string_of_uint.
  destruct (Nat.to_uint n) eqn:E; try apply of_uint_no_CR.
  simpl. intros [H|[]]. discriminate.
Qed.

Lemma reasons_no_CR (status : nat) : ~ In CR (reasons status).
Proof.
  unfold reasons.
  repeat match goal with |- context [if ?b then _ else _] => destruct b end;
    vm_compute; intuition discriminate.
Qed.

Lemma status_line_no_CR (status : nat) : ~ In CR (status_line status).
Proof.
  unfold status_line. intro H.
  repeat (apply in_app_or in H as [H|H]).
  - revert H. vm_compute. intuition discriminate.
  - now apply of_nat_no_CR in H.
  - revert H. vm_compute. intuition discriminate.
  - now apply reasons_no_CR in H.
Qed.

Lemma header_line_no_CR (kv : str * str) :
  ~ In CR (fst kv) -> ~ In CR (snd kv) -> ~ In CR (header_line kv).
Proof.
  intros Hk Hv H. unfold header_line in H.
  repeat (apply in_app_or in H as [H|H]); try contradiction.
  revert H. vm_compute. intuition discriminate.
Qed.

Lemma partition_cons (sep : str) (c : ascii) (x : str) :
  Str.partition sep (c :: x)
  = if Str.startswith sep (c :: x) then Some ([], skipn (List.length sep) (c :: x))
    else match Str.partition sep x with
         | Some (b, a) => Some (c :: b, a)
         | None => None
         end.
Proof. reflexivity. Qed.

Lemma blank_line_starts_with_CR (c : ascii) (x : str) :
  c <> CR -> Str.startswith (CRLF ++ CRLF) (c :: x) = false.
Proof.
  intro H. cbn [CRLF app Str.startswith].
  replace (Ascii.eqb "013" c) with false; [reflexivity|].
  symmetry. apply Ascii.eqb_neq. intros <-. now apply H.
Qed.

(** A line without carriage return holds no part of the separator. *)
Lemma partition_skip_line (l t : str) :
  ~ In CR l ->
  Str.partition (CRLF ++ CRLF) (l ++ t)
  = match Str.partition (CRLF ++ CRLF) t with
    | Some (b, a) => Some (l ++ b, a)
    | None => None
    end.
Proof.
  induction l as [|c l IH]; intro H.
  - simpl. now destruct (Str.partition _ t) as [[b a]|].
  - rewrite <- app_comm_cons, partition_cons, blank_line_starts_with_CR
      by (intros ->; apply H; now left).
    rewrite IH by (intro Hx; apply H; now right).
    now destruct (Str.partition _ t) as [[b a]|].
Qed.

Lemma partition_skip_CRLF (c : ascii) (t : str) :
  c <> CR ->
  Str.partition (CRLF ++ CRLF) (CRLF ++ c :: t)
  = match Str.partition (CRLF ++ CRLF) (c :: t) with
    | Some (b, a) => Some (CRLF ++ b, a)
    | None => None
    end.
Proof.
  intro H. change (CRLF ++ c :: t) with ("013"%char :: "010"%char :: c :: t).
  rewrite partition_cons.
  replace (Str.startswith (CRLF ++ CRLF) ("013"%char :: "010"%char :: c :: t)) with false.
  2:{ cbn [CRLF app Str.startswith].
      replace (Ascii.eqb "013" c) with false; [reflexivity|].
      symmetry. apply Ascii.eqb_neq. intros <-. now apply H. }
  rewrite partition_cons, blank_line_starts_with_CR by discriminate.
  now destruct (Str.partition (CRLF ++ CRLF) (c :: t)) as [[b a]|].
Qed.

Lemma partition_lines (lines : list str) (rest : str) :
  lines <> [] ->
  Forall (fun l => l <> [] /\ ~ In CR l) lines ->
  Str.partition (CRLF ++ CRLF) (Str.join CRLF lines ++ CRLF ++ CRLF ++ rest)
  = Some (Str.join CRLF lines, rest).
Proof.
  intros Hne H. induction H as [|l lines [Hl Hcr] Hrest IH]; [contradiction|].
  destruct lines as [|l2 lines].
  - cbn [Str.join]. rewrite partition_skip_line by assumption.
    replace (Str.partition (CRLF ++ CRLF) (CRLF ++ CRLF ++ rest)) with (Some (@nil ascii, rest))
      by reflexivity.
    now rewrite app_nil_r.
  - change (Str.join CRLF (l :: l2 :: lines))
      with (l ++ CRLF ++ Str.join CRLF (l2 :: lines)).
    rewrite <- !app_assoc. rewrite partition_skip_line by assumption.
    inversion Hrest as [|? ? [Hl2 Hcr2] _]; subst.
    assert (Hhead : exists c t, Str.join CRLF (l2 :: lines) = c :: t /\ c <> CR).
    { destruct l2 as [|c l2]; [contradiction|].
      exists c. destruct lines.
      - exists l2. split; [reflexivity|]. intros ->. apply Hcr2. now left.
      - eexists. split; [reflexivity|]. intros ->. apply Hcr2. now left. }
    destruct Hhead as (c & t & Et & Hc).
    specialize (IH ltac:(discriminate)).
    rewrite Et in *. rewrite <- app_comm_cons.
    rewrite partition_skip_CRLF by assumption.
    rewrite <- app_comm_cons in IH. rewrite IH. reflexivity.
Qed.

Lemma join_snoc2 (sep : str) (lines : list str) :
  lines <> [] -> Str.join sep (lines ++ [[]; []]) = Str.join sep lines ++ sep ++ sep.
Proof.
  induction lines as [|l lines IH]; [contradiction|]. intros _.
  destruct lines as [|l2 lines].
  - simpl. now rewrite app_nil_r.
  - change (Str.join sep ((l :: l2 :: lines) ++ [[]; []]))
      with (l ++ sep ++ Str.join sep ((l2 :: lines) ++ [[]; []])).
    rewrite IH by discriminate.
    change (Str.join sep (l :: l2 :: lines)) with (l ++ sep ++ Str.join sep (l2 :: lines)).
    now rewrite <- !app_assoc.
Qed.

Lemma encode_join_CRLF (lines : list str) :
  Str.encode (Str.join CRLF lines) = Str.join CRLF (map Str.encode lines).
Proof.
  induction lines as [|l lines IH]; [reflexivity|].
  destruct lines as [|l2 lines]; [reflexivity|].
  change (Str.join CRLF (l :: l2 :: lines)) with (l ++ CRLF ++ Str.join CRLF (l2 :: lines)).
  rewrite !encode_app, IH. reflexivity.
Qed.

(** X1.  The message [http_response] builds is cut at its first blank
    line into the head (status line and header lines, joined by CR LF, in
    the order of the dict) and exactly the body, provided no header name
    or value holds a carriage return. *)
Theorem http_response_splits_into_head_and_body
        (status : nat) (headers : list (str * str)) (body : bytes)
        (Hclean : forall kv, In kv headers -> ~ In CR (fst kv) /\ ~ In CR (snd kv)) :
  Str.partition (CRLF ++ CRLF) (http_response status headers body)
  = Some (Str.join CRLF (map Str.encode (status_line status :: map header_line headers)),
          body).
Proof.
  unfold http_response. fold (status_line status).
  change (map (fun kv => fst kv ++ py ": " ++ snd kv) headers) with (map header_line headers).
  change ([status_line status] ++ map header_line headers ++ [[]; []])
    with ((status_line status :: map header_line headers) ++ [[]; []]).
  rewrite join_snoc2 by discriminate.
  rewrite !encode_app, encode_join_CRLF.
  change (Str.encode CRLF) with CRLF. rewrite <- !app_assoc.
  apply partition_lines; [discriminate|].
  apply Forall_forall. intros l Hl. apply in_map_iff in Hl as (x & <- & Hx).
  destruct Hx as [<-|Hx].
  - split.
    + apply encode_nonempty. discriminate.
    + apply encode_no_CR, status_line_no_CR.
  - apply in_map_iff in Hx as (kv & <- & Hkv). destruct (Hclean kv Hkv) as [Hk Hv]. split.
    + apply encode_nonempty. unfold header_line. destruct (fst kv); discriminate.
    + now apply encode_no_CR, header_line_no_CR.
Qed.

Lemma http_response_splits_into_head_and_body_witness :
  Str.partition (CRLF ++ CRLF)
                (http_response 201 [(py "Content-Type", py "text/html"); (py "X", py "1")]
                               (py "a" ++ CRLF ++ CRLF ++ py "b"))
  = Some (py "HTTP/1.1 201 OK" ++ CRLF ++ py "Content-Type: text/html" ++ CRLF ++ py "X: 1",
          py "a" ++ CRLF ++ CRLF ++ py "b").
Proof.
  apply (http_response_splits_into_head_and_body
           201 [(py "Content-Type", py "text/html"); (py "X", py "1")]
           (py "a" ++ CRLF ++ CRLF ++ py "b")).
  intros kv [<-|[<-|[]]]; vm_compute; intuition discriminate.
Defined.

(** ** [parse_request] *)

Lemma split_cons (sep : str) (c : ascii) (x : str) :
  Str.split sep (c :: x)
  = if Str.startswith sep (c :: x)
    then [] :: Str.split_go sep (List.length sep - 1) x
    else match Str.split sep x with
         | h :: t => (c :: h) :: t
         | [] => [[c]]
         end.
Proof. reflexivity. Qed.

Lemma split_go_nonempty (sep : str) (skip : nat) (x : str) : Str.split_go sep skip x <> [].
Proof.
  revert skip; induction x as [|c x IH]; intro skip; [discriminate|].
  destruct skip as [|k]; simpl; [|apply IH].
  destruct (Str.startswith sep (c :: x)); [discriminate|].
  destruct (Str.split_go sep 0 x); discriminate.
Qed.

Lemma CRLF_starts_with_CR (c : ascii) (x : str) :
  c <> CR -> Str.startswith CRLF (c :: x) = false.
Proof.
  intro H. cbn [CRLF Str.startswith].
  replace (Ascii.eqb "013" c) with false; [reflexivity|].
  symmetry. apply Ascii.eqb_neq. intros <-. now apply H.
Qed.

(** A line without carriage return is one element of the split. *)
Lemma split_CRLF_line (x rest : str) :
  ~ In CR x -> Str.split CRLF (x ++ CRLF ++ rest) = x :: Str.split CRLF rest.
Proof.
  induction x as [|c x IH]; intro H.
  - reflexivity.
  - rewrite <- app_comm_cons, split_cons, CRLF_starts_with_CR
      by (intros ->; apply H; now left).
    now rewrite IH by (intro Hx; apply H; now right).
Qed.

Lemma split_CRLF_last (x : str) : ~ In CR x -> Str.split CRLF x = [x].
Proof.
  induction x as [|c x IH]; intro H; [reflexivity|].
  rewrite split_cons, CRLF_starts_with_CR by (intros ->; apply H; now left).
  now rewrite IH by (intro Hx; apply H; now right).
Qed.

Lemma token_no_CR (x : str) : token x -> ~ In CR x.
Proof. intros [_ H] Hin. apply H in Hin. discriminate. Qed.

Lemma split_ws_go_token (tok cur rest : str) :
  (forall c, In c tok -> Str.isspace c = false) ->
  Str.split_ws_go cur (tok ++ rest) = Str.split_ws_go (rev tok ++ cur) rest.
Proof.
  revert cur; induction tok as [|c tok IH]; intros cur H; [reflexivity|].
  simpl. rewrite (H c) by now left.
  rewrite IH by (intros c' Hc'; apply H; now right).
  now rewrite <- app_assoc.
Qed.

Lemma split_ws_three (a b c : str) :
  token a -> token b -> token c ->
  Str.split_ws (a ++ py " " ++ b ++ py " " ++ c) = [a; b; c].
Proof.
  intros [Ha Ha'] [Hb Hb'] [Hc Hc']. unfold Str.split_ws.
  assert (Hcur : forall t cur rest, t <> [] ->
                   Str.split_ws_go (rev t ++ cur) (" "%char :: rest)
                   = rev (rev t ++ cur) :: Str.split_ws_go [] rest).
  { intros t cur rest Ht. simpl.
    destruct (rev t ++ cur) eqn:E; [|reflexivity].
    apply app_eq_nil in E as [E _]. apply (f_equal (@rev ascii)) in E.
    rewrite rev_involutive in E. contradiction. }
  rewrite split_ws_go_token by assumption.
  change (py " " ++ b ++ py " " ++ c) with (" "%char :: b ++ " "%char :: c).
  rewrite Hcur by assumption. rewrite app_nil_r, rev_involutive.
  rewrite split_ws_go_token by assumption. rewrite Hcur by assumption.
  rewrite app_nil_r, rev_involutive.
  rewrite <- (app_nil_r c) at 1. rewrite split_ws_go_token by assumption.
  simpl. destruct (rev c ++ []) eqn:E.
  - apply app_eq_nil in E as [E _]. apply (f_equal (@rev ascii)) in E.
    rewrite rev_involutive in E. contradiction.
  - rewrite <- E, app_nil_r, rev_involutive. reflexivity.
Qed.

(** X2.  Decoding reads back a request line: for a method, a path and a
    version that are tokens (not empty, free of white space), the request
    made of them with single spaces, CR LF and anything after it decodes
    to exactly that method, path and version, with the headers the lines
    of the rest give. *)
Theorem parse_request_reads_back_the_request_line
        (method path version rest : str)
        (Hmethod : token method) (Hpath : token path) (Hversion : token version) :
  exists body,
    parse_request (method ++ py " " ++ path ++ py " " ++ version ++ CRLF ++ rest)
    = Some (mkRequest method path version (parse_headers (Str.split CRLF rest) []) body).
Proof.
  set (line := method ++ py " " ++ path ++ py " " ++ version).
  assert (Hline : ~ In CR line).
  { unfold line. intro H.
    repeat (apply in_app_or in H as [H|H]);
      try (now apply token_no_CR in H); revert H; vm_compute; intuition discriminate. }
  replace (method ++ py " " ++ path ++ py " " ++ version ++ CRLF ++ rest)
    with (line ++ CRLF ++ rest) by (unfold line; now rewrite <- !app_assoc).
  unfold parse_request. rewrite (split_CRLF_line line rest Hline).
  unfold line at 1. rewrite split_ws_three by assumption.
  destruct (Str.eqb method (py "POST") && Str.contains (CRLF ++ CRLF) (line ++ CRLF ++ rest))
    eqn:E.
  - apply andb_true_iff in E as [_ E].
    destruct (partition_of_contains _ _ E) as (b & a & P).
    unfold Str.split1. rewrite P. now exists a.
  - now exists [].
Qed.

Lemma parse_request_reads_back_the_request_line_witness :
  exists body,
    parse_request (py "HEAD" ++ py " " ++ py "/a%20b?x" ++ py " " ++ py "HTTP/1.0" ++ CRLF
                   ++ py "Accept: */*" ++ CRLF ++ CRLF)
    = Some (mkRequest (py "HEAD") (py "/a%20b?x") (py "HTTP/1.0")
                      (parse_headers (Str.split CRLF (py "Accept: */*" ++ CRLF ++ CRLF)) [])
                      body).
Proof.
  apply (parse_request_reads_back_the_request_line
           (py "HEAD") (py "/a%20b?x") (py "HTTP/1.0") (py "Accept: */*" ++ CRLF ++ CRLF));
    (split; [discriminate | intros c Hc; vm_compute in Hc;
                             repeat (destruct Hc as [<-|Hc]; [reflexivity|]); contradiction]).
Defined.

Lemma split_ws_go_tokens (x cur : str) :
  (forall c, In c cur -> Str.isspace c = false) ->
  forall tok, In tok (Str.split_ws_go cur x) -> token tok.
Proof.
  assert (Hrev : forall u : str,
             u <> [] -> (forall c, In c u -> Str.isspace c = false) -> token (rev u)).
  { intros u Hne H. split.
    - intro E. apply (f_equal (@rev ascii)) in E. rewrite rev_involutive in E. contradiction.
    - intros c Hc. apply H. now apply in_rev. }
  revert cur; induction x as [|c x IH]; intros cur Hcur tok Hin.
  - simpl in Hin. destruct cur as [|c0 cur]; [contradiction|].
    destruct Hin as [<-|[]]. apply Hrev; [discriminate | assumption].
  - simpl in Hin. destruct (Str.isspace c) eqn:Ec.
    + destruct cur as [|c0 cur].
      * apply (IH [] ltac:(intros ? []) _ Hin).
      * destruct Hin as [<-|Hin].
        -- apply Hrev; [discriminate | assumption].
        -- apply (IH [] ltac:(intros ? []) _ Hin).
    + apply (IH (c :: cur)); [|assumption].
      intros c' [<-|Hc']; [assumption | now apply Hcur].
Qed.

(** X3.  In a decoded request the method, the path and the version are
    tokens: none is empty and none holds a space, a tab, a carriage
    return, a line feed or any other white space. *)
Theorem parsed_request_line_has_three_tokens
        (data : str) (request : Request)
        (Hparsed : parse_request data = Some request) :
  token (req_method request) /\ token (req_path request) /\ token (req_version request).
Proof.
  unfold parse_request in Hparsed.
  destruct (Str.split CRLF data) as [|line0 lines]; [discriminate|].
  pose proof (split_ws_go_tokens line0 [] ltac:(intros ? [])) as Htok.
  fold (Str.split_ws line0) in Htok.
  destruct (Str.split_ws line0) as [|method [|path [|version [|extra tokens]]]];
    try discriminate.
  assert (E : req_method request = method /\ req_path request = path
              /\ req_version request = version).
  { destruct (_ && _).
    - destruct (Str.split1 _ _) as [|x [|body rest]]; try discriminate.
      now injection Hparsed as <-.
    - now injection Hparsed as <-. }
  destruct E as (-> & -> & ->).
  repeat split; try (apply Htok; simpl; tauto);
    apply Htok; simpl; tauto.
Qed.

Lemma parsed_request_line_has_three_tokens_witness :
  parse_request (py "  GET   /a?x=1 HTTP/1.1  " ++ CRLF ++ CRLF)
  = Some (mkRequest (py "GET") (py "/a?x=1") (py "HTTP/1.1") [] [])
  /\ token (py "GET") /\ token (py "/a?x=1") /\ token (py "HTTP/1.1").
Proof.
  split; [reflexivity|].
  apply (parsed_request_line_has_three_tokens
           (py "  GET   /a?x=1 HTTP/1.1  " ++ CRLF ++ CRLF)
           (mkRequest (py "GET") (py "/a?x=1") (py "HTTP/1.1") [] [])).
  reflexivity.
Defined.

Lemma lower_chr_idempotent (c : ascii) : Str.lower_chr (Str.lower_chr c) = Str.lower_chr c.
Proof. destruct c as [[] [] [] [] [] [] [] []]; reflexivity. Qed.

Lemma isspace_lower_chr (c : ascii) : Str.isspace (Str.lower_chr c) = Str.isspace c.
Proof. destruct c as [[] [] [] [] [] [] [] []]; reflexivity. Qed.

Lemma lower_idempotent (x : str) : Str.lower (Str.lower x) = Str.lower x.
Proof.
  unfold Str.lower. rewrite map_map. apply map_ext. apply lower_chr_idempotent.
Qed.

Lemma lstrip_lower (x : str) :
  Str.lstrip_by Str.isspace (Str.lower x) = Str.lower (Str.lstrip_by Str.isspace x).
Proof.
  induction x as [|c x IH]; [reflexivity|].
  simpl. rewrite isspace_lower_chr. now destruct (Str.isspace c).
Qed.

Lemma trimmed_lower (x : str) : trimmed x -> trimmed (Str.lower x).
Proof.
  intros [H1 H2]. split.
  - now rewrite lstrip_lower, H1.
  - unfold Str.lower. rewrite <- map_rev. fold (Str.lower (rev x)).
    now rewrite lstrip_lower, H2.
Qed.

Lemma lstrip_by_idempotent (p : ascii -> bool) (x : str) :
  Str.lstrip_by p (Str.lstrip_by p x) = Str.lstrip_by p x.
Proof.
  induction x as [|c x IH]; [reflexivity|].
  simpl. destruct (p c) eqn:E; [exact IH|]. simpl. now rewrite E.
Qed.

Lemma lstrip_by_suffix (p : ascii -> bool) (x : str) :
  exists pre, x = pre ++ Str.lstrip_by p x.
Proof.
  induction x as [|c x [pre IH]]; [now exists []|].
  simpl. destruct (p c).
  - exists (c :: pre). simpl. now f_equal.
  - now exists [].
Qed.

Lemma lstrip_by_length (p : ascii -> bool) (x : str) :
  List.length (Str.lstrip_by p x) <= List.length x.
Proof.
  induction x as [|c x IH]; [reflexivity|]. simpl.
  destruct (p c); simpl; lia.
Qed.

(** The front of a string that stripping leaves alone is left alone. *)
Lemma lstrip_by_fixed_prefix (p : ascii -> bool) (u v : str) :
  Str.lstrip_by p (u ++ v) = u ++ v -> Str.lstrip_by p u = u.
Proof.
  destruct u as [|c u]; [reflexivity|]. simpl.
  destruct (p c); [|reflexivity].
  intro H. pose proof (lstrip_by_length p (u ++ v)) as L.
  rewrite H in L. simpl in L. lia.
Qed.

Lemma strip_trimmed (x : str) : trimmed (Str.strip x).
Proof.
  unfold Str.strip, trimmed. rewrite rev_involutive. split.
  - destruct (lstrip_by_suffix Str.isspace (rev (Str.lstrip_by Str.isspace x))) as [pre E].
    apply (f_equal (@rev ascii)) in E. rewrite rev_involutive, rev_app_distr in E.
    apply (lstrip_by_fixed_prefix Str.isspace _ (rev pre)).
    rewrite <- E. apply lstrip_by_idempotent.
  - apply lstrip_by_idempotent.
Qed.

Lemma dict_set_keys (d : list (str * str)) (key value : str) (P : str -> Prop) :
  Forall P (map fst d) -> P key -> Forall P (map fst (dict_set d key value)).
Proof.
  intros H Hk. induction d as [|[k v] d IH]; simpl.
  - now repeat constructor.
  - inversion H; subst. destruct (Str.eqb k key); simpl; constructor; auto.
Qed.

Lemma dict_set_values (d : list (str * str)) (key value : str) (P : str -> Prop) :
  Forall P (map snd d) -> P value -> Forall P (map snd (dict_set d key value)).
Proof.
  intros H Hv. induction d as [|[k v] d IH]; simpl.
  - now repeat constructor.
  - inversion H; subst. destruct (Str.eqb k key); simpl; constructor; auto.
Qed.

Lemma dict_set_In_key (d : list (str * str)) (key value k : str) :
  In k (map fst (dict_set d key value)) -> k = key \/ In k (map fst d).
Proof.
  induction d as [|[k0 v0] d IH]; simpl.
  - intros [<-|[]]. now left.
  - destruct (Str.eqb k0 key) eqn:E; simpl.
    + tauto.
    + intros [<-|H]; [tauto|]. destruct (IH H); tauto.
Qed.

Lemma dict_set_NoDup (d : list (str * str)) (key value : str) :
  NoDup (map fst d) -> NoDup (map fst (dict_set d key value)).
Proof.
  induction d as [|[k v] d IH]; simpl; intro H.
  - constructor; [intros [] | constructor].
  - inversion H as [|? ? Hnotin Hd]; subst.
    destruct (Str.eqb k key) eqn:E; simpl.
    + now constructor.
    + constructor; [|now apply IH].
      intro Hin. apply dict_set_In_key in Hin as [->|Hin]; [|contradiction].
      now rewrite str_eqb_refl in E.
Qed.

(** The value under [key] after [headers[key] = value]. *)
Lemma dict_set_lookup (d : list (str * str)) (key value : str) :
  In (key, value) (dict_set d key value).
Proof.
  induction d as [|[k v] d IH]; simpl; [now left|].
  destruct (Str.eqb k key) eqn:E.
  - apply str_eqb_eq in E. subst k. now left.
  - now right.
Qed.

Lemma parse_headers_ok (lines : list str) (headers : list (str * str)) :
  headers_ok headers -> headers_ok (parse_headers lines headers).
Proof.
  revert headers; induction lines as [|line lines IH]; intros headers H; [exact H|].
  simpl. destruct line as [|c line]; [exact H|].
  destruct (Str.split1 (py ":") (c :: line)) as [|key [|value [|? ?]]]; try now apply IH.
  apply IH. destruct H as (Hn & Hk & Hv). repeat split.
  - now apply dict_set_NoDup.
  - apply dict_set_keys; [exact Hk|]. split.
    + apply lower_idempotent.
    + apply trimmed_lower, strip_trimmed.
  - apply dict_set_values; [exact Hv|]. apply strip_trimmed.
Qed.

(** X4.  The headers of a decoded request are normalised: no name occurs
    twice, every name is in lower case and has no white space at either
    end, and so has no value. *)
Theorem parsed_headers_are_normalised (data : str) (request : Request)
        (Hparsed : parse_request data = Some request) :
  NoDup (map fst (req_headers request))
  /\ (forall name value, In (name, value) (req_headers request) ->
        Str.lower name = name /\ trimmed name /\ trimmed value).
Proof.
  rewrite (parse_request_headers _ _ Hparsed).
  destruct (parse_headers_ok (tl (Str.split CRLF data)) []) as (Hn & Hk & Hv).
  { repeat split; constructor. }
  split; [exact Hn|]. intros name value Hin.
  rewrite Forall_forall in Hk, Hv.
  destruct (Hk name) as [H1 H2]; [now apply (in_map fst) in Hin|].
  split; [exact H1|]. split; [exact H2|].
  apply (Hv value). now apply (in_map snd) in Hin.
Qed.

Lemma parsed_headers_are_normalised_witness :
  parse_request (py "GET / HTTP/1.1" ++ CRLF ++ py " Host :  Lynx " ++ CRLF
                 ++ py "HOST: b" ++ CRLF ++ CRLF)
  = Some (mkRequest (py "GET") (py "/") (py "HTTP/1.1") [(py "host", py "b")] [])
  /\ NoDup (map fst [(py "host", py "b")])
  /\ (forall name value, In (name, value) [(py "host", py "b")] ->
        Str.lower name = name /\ trimmed name /\ trimmed value).
Proof.
  split; [reflexivity|].
  apply (parsed_headers_are_normalised
           (py "GET / HTTP/1.1" ++ CRLF ++ py " Host :  Lynx " ++ CRLF
            ++ py "HOST: b" ++ CRLF ++ CRLF)
           (mkRequest (py "GET") (py "/") (py "HTTP/1.1") [(py "host", py "b")] [])).
  reflexivity.
Defined.

Lemma startswith_skipn (sep x : str) :
  Str.startswith sep x = true -> x = sep ++ skipn (List.length sep) x.
Proof.
  intro H. destruct (startswith_inv _ _ H) as [rest ->].
  now rewrite skipn_app, skipn_all, Nat.sub_diag.
Qed.

(** [partition] cuts at the first occurrence. *)
Lemma partition_first (sep x before after : str) :
  Str.partition sep x = Some (before, after) ->
  x = before ++ sep ++ after
  /\ forall pre suf, x = pre ++ sep ++ suf -> List.length before <= List.length pre.
Proof.
  revert before; induction x as [|c x IH]; intros before.
  - simpl. destruct (Str.startswith sep []) eqn:E; [|discriminate].
    intro H. injection H as <- <-. split; [|simpl; lia].
    now apply startswith_skipn.
  - rewrite partition_cons. destruct (Str.startswith sep (c :: x)) eqn:E.
    + intro H. injection H as <- <-. split; [|simpl; lia].
      now apply startswith_skipn.
    + destruct (Str.partition sep x) as [[b a]|] eqn:P; [|discriminate].
      intro H. injection H as <- <-.
      destruct (IH b eq_refl) as [-> Hmin]. split; [reflexivity|].
      intros [|p pre] suf Hx.
      * simpl in Hx. rewrite Hx, startswith_app in E. discriminate.
      * simpl in Hx. injection Hx as _ Hx. simpl. apply Hmin in Hx. lia.
Qed.

(** X5.  The body of a decoded request: for the method POST and data
    that has a blank line, it is everything after the first CR LF CR LF
    of the data; in every other case it is empty. *)
Theorem parsed_body_is_what_follows_the_first_blank_line
        (data : str) (request : Request)
        (Hparsed : parse_request data = Some request) :
  (req_method request = py "POST"
   /\ exists head, data = head ++ CRLF ++ CRLF ++ req_body request
                   /\ first_at (CRLF ++ CRLF) head data)
  \/ (req_body request = []
      /\ (req_method request <> py "POST" \/ Str.contains (CRLF ++ CRLF) data = false)).
Proof.
  unfold parse_request in Hparsed.
  destruct (Str.split CRLF data) as [|line0 lines]; [discriminate|].
  destruct (Str.split_ws line0) as [|method [|path [|version [|? ?]]]]; try discriminate.
  destruct (Str.eqb method (py "POST")) eqn:Em; cbn [andb] in Hparsed.
  - apply str_eqb_eq in Em.
    destruct (Str.contains (CRLF ++ CRLF) data) eqn:Ec.
    + left. destruct (partition_of_contains _ _ Ec) as (b & a & P).
      unfold Str.split1 in Hparsed. rewrite P in Hparsed.
      injection Hparsed as <-. simpl. split; [exact Em|].
      exists b. destruct (partition_first _ _ _ _ P) as [Hd Hmin].
      split; [now rewrite Hd, <- app_assoc|].
      split; [now exists a|exact Hmin].
    + right. injection Hparsed as <-. simpl. split; [reflexivity|now right].
  - right. injection Hparsed as <-. simpl. split; [reflexivity|].
    left. now apply str_eqb_neq.
Qed.

Lemma parsed_body_is_what_follows_the_first_blank_line_witness :
  parse_request (post "/f" "a=1" ++ CRLF ++ CRLF ++ py "b=2")
  = Some (mkRequest (py "POST") (py "/f") (py "HTTP/1.1") [(py "host", py "lynx")]
                    (py "a=1" ++ CRLF ++ CRLF ++ py "b=2"))
  /\ ((py "POST" = py "POST"
       /\ exists head,
           post "/f" "a=1" ++ CRLF ++ CRLF ++ py "b=2"
           = head ++ CRLF ++ CRLF ++ py "a=1" ++ CRLF ++ CRLF ++ py "b=2"
           /\ first_at (CRLF ++ CRLF) head (post "/f" "a=1" ++ CRLF ++ CRLF ++ py "b=2"))
      \/ (py "a=1" ++ CRLF ++ CRLF ++ py "b=2" = []
          /\ (py "POST" <> py "POST"
              \/ Str.contains (CRLF ++ CRLF) (post "/f" "a=1" ++ CRLF ++ CRLF ++ py "b=2")
                 = false))).
Proof.
  split; [reflexivity|].
  apply (parsed_body_is_what_follows_the_first_blank_line
           (post "/f" "a=1" ++ CRLF ++ CRLF ++ py "b=2")
           (mkRequest (py "POST") (py "/f") (py "HTTP/1.1") [(py "host", py "lynx")]
                      (py "a=1" ++ CRLF ++ CRLF ++ py "b=2"))).
  reflexivity.
Defined.

Lemma parse_request_some (data line0 : str) (lines : list str) (method path version : str) :
  Str.split CRLF data = line0 :: lines ->
  Str.split_ws line0 = [method; path; version] ->
  exists body,
    parse_request data = Some (mkRequest method path version (parse_headers lines []) body).
Proof.
  intros Hs Hl. unfold parse_request. rewrite Hs, Hl.
  destruct (Str.eqb method (py "POST") && Str.contains (CRLF ++ CRLF) data) eqn:E.
  - apply andb_true_iff in E as [_ E].
    destruct (partition_of_contains _ _ E) as (b & a & P).
    unfold Str.split1. rewrite P. now exists a.
  - now exists [].
Qed.

Lemma parse_request_inv (data : str) (request : Request) :
  parse_request data = Some request ->
  exists line0 lines,
    Str.split CRLF data = line0 :: lines
    /\ Str.split_ws line0 = [req_method request; req_path request; req_version request]
    /\ req_headers request = parse_headers lines [].
Proof.
  unfold parse_request.
  destruct (Str.split CRLF data) as [|line0 lines]; [discriminate|].
  destruct (Str.split_ws line0) as [|method [|path [|version [|extra tokens]]]] eqn:El;
    try discriminate.
  intro H. exists line0, lines.
  destruct (_ && _).
  - destruct (Str.split1 _ _) as [|x [|body rest]]; try discriminate.
    injection H as <-. now rewrite El.
  - injection H as <-. now rewrite El.
Qed.

Lemma startswith_CRLF_cut (c : ascii) (x rest : str) :
  Str.startswith CRLF ((c :: x) ++ CRLF ++ rest) = Str.startswith CRLF (c :: x).
Proof.
  destruct x as [|d x]; [|reflexivity].
  cbn [app CRLF Str.startswith].
  now destruct (Ascii.eqb "013" c).
Qed.

(** Cutting at a CR LF cuts the list of lines. *)
Lemma split_go_CRLF_app (head rest : str) (skip : nat) :
  skip <= List.length head ->
  Str.split_go CRLF skip (head ++ CRLF ++ rest)
  = Str.split_go CRLF skip head ++ Str.split CRLF rest.
Proof.
  revert skip; induction head as [|c x IH]; intros skip Hs.
  - simpl in Hs. assert (skip = 0) as -> by lia. reflexivity.
  - destruct skip as [|k].
    + change (Str.split_go CRLF 0 ((c :: x) ++ CRLF ++ rest))
        with (Str.split CRLF (c :: (x ++ CRLF ++ rest))).
      change (Str.split_go CRLF 0 (c :: x)) with (Str.split CRLF (c :: x)).
      rewrite !split_cons.
      change (c :: x ++ CRLF ++ rest) with ((c :: x) ++ CRLF ++ rest).
      rewrite startswith_CRLF_cut.
      destruct (Str.startswith CRLF (c :: x)) eqn:E.
      * destruct (startswith_inv _ _ E) as [r Hr]. injection Hr as -> ->.
        change (List.length CRLF - 1) with 1.
        rewrite IH by (simpl; lia). reflexivity.
      * unfold Str.split. rewrite (IH 0) by lia.
        destruct (Str.split_go CRLF 0 x) as [|h t] eqn:Ex; [|reflexivity].
        now apply split_go_nonempty in Ex.
    + simpl in Hs. simpl. apply IH. lia.
Qed.

Lemma split_CRLF_app (head rest : str) :
  Str.split CRLF (head ++ CRLF ++ rest) = Str.split CRLF head ++ Str.split CRLF rest.
Proof. apply split_go_CRLF_app. lia. Qed.

(** The loop over the header lines ends at the first empty line. *)
Lemma parse_headers_stop (pre post : list str) (headers : list (str * str)) :
  parse_headers (pre ++ [] :: post) headers = parse_headers pre headers.
Proof.
  revert headers; induction pre as [|line pre IH]; intro headers.
  - reflexivity.
  - simpl. destruct line as [|c line]; [reflexivity|].
    destruct (Str.split1 (py ":") (c :: line)) as [|key [|value [|? ?]]]; apply IH.
Qed.

(** X6.  Decoding looks at nothing after the first blank line except to
    take the body: whether the data decode, and the method, the path, the
    version and the headers they decode to, are the same whatever follows
    a CR LF CR LF. *)
Theorem decoding_stops_at_the_blank_line
        (head rest rest' : str) (request : Request)
        (Hparsed : parse_request (head ++ CRLF ++ CRLF ++ rest) = Some request) :
  exists request',
    parse_request (head ++ CRLF ++ CRLF ++ rest') = Some request'
    /\ req_method request' = req_method request
    /\ req_path request' = req_path request
    /\ req_version request' = req_version request
    /\ req_headers request' = req_headers request.
Proof.
  destruct (parse_request_inv _ _ Hparsed) as (line0 & lines & Hs & Hl & Hh).
  rewrite split_CRLF_app in Hs.
  change (Str.split CRLF (CRLF ++ rest)) with ([] :: Str.split CRLF rest) in Hs.
  destruct (Str.split CRLF head) as [|l0 ls] eqn:Eh.
  { now apply split_go_nonempty in Eh. }
  simpl in Hs. injection Hs as -> <-.
  rewrite parse_headers_stop in Hh.
  destruct (parse_request_some (head ++ CRLF ++ CRLF ++ rest') line0
                               (ls ++ [] :: Str.split CRLF rest')
                               (req_method request) (req_path request)
                               (req_version request)) as [body Hb].
  - rewrite split_CRLF_app, Eh. reflexivity.
  - exact Hl.
  - exists (mkRequest (req_method request) (req_path request) (req_version request)
                      (parse_headers (ls ++ [] :: Str.split CRLF rest') []) body).
    split; [exact Hb|]. simpl. rewrite parse_headers_stop. now rewrite Hh.
Qed.

Lemma decoding_stops_at_the_blank_line_witness :
  parse_request ((py "GET /a HTTP/1.1" ++ CRLF ++ py "Host: lynx") ++ CRLF ++ CRLF
                 ++ py "X-Late: 1" ++ CRLF)
  = Some (mkRequest (py "GET") (py "/a") (py "HTTP/1.1") [(py "host", py "lynx")] [])
  /\ exists request',
      parse_request ((py "GET /a HTTP/1.1" ++ CRLF ++ py "Host: lynx") ++ CRLF ++ CRLF
                     ++ py "Host: other" ++ CRLF ++ CRLF)
      = Some request'
      /\ req_method request' = py "GET"
      /\ req_path request' = py "/a"
      /\ req_version request' = py "HTTP/1.1"
      /\ req_headers request' = [(py "host", py "lynx")].
Proof.
  split; [reflexivity|].
  apply (decoding_stops_at_the_blank_line
           (py "GET /a HTTP/1.1" ++ CRLF ++ py "Host: lynx")
           (py "X-Late: 1" ++ CRLF) (py "Host: other" ++ CRLF ++ CRLF)
           (mkRequest (py "GET") (py "/a") (py "HTTP/1.1") [(py "host", py "lynx")] [])).
  reflexivity.
Defined.

Lemma split_header_block (lines : list str) (rest : str) :
  Forall (fun line => ~ In CR line) lines ->
  Str.split CRLF (header_block lines ++ rest) = lines ++ Str.split CRLF rest.
Proof.
  induction 1 as [|line lines Hl _ IH]; [reflexivity|].
  unfold header_block. cbn [flat_map]. fold (header_block lines).
  rewrite <- !app_assoc, split_CRLF_line by exact Hl.
  now rewrite IH.
Qed.

Lemma parse_headers_app (lines more : list str) (headers : list (str * str)) :
  Forall (fun line => line <> []) lines ->
  parse_headers (lines ++ more) headers = parse_headers more (parse_headers lines headers).
Proof.
  intro H. revert headers; induction H as [|line lines Hl _ IH]; intro headers;
    [reflexivity|].
  simpl. destruct line as [|c line]; [contradiction|].
  destruct (Str.split1 (py ":") (c :: line)) as [|key [|value [|? ?]]]; apply IH.
Qed.

Lemma partition_chr (c : ascii) (name value : str) :
  ~ In c name -> Str.partition [c] (name ++ [c] ++ value) = Some (name, value).
Proof.
  induction name as [|a name IH]; intro H.
  - rewrite app_nil_l. cbn [app]. rewrite partition_cons.
    cbn [Str.startswith]. now rewrite Ascii.eqb_refl.
  - rewrite <- app_comm_cons, partition_cons. cbn [Str.startswith].
    replace (Ascii.eqb c a) with false
      by (symmetry; apply Ascii.eqb_neq; intros ->; apply H; now left).
    cbn [andb]. now rewrite IH by (intro Hn; apply H; now right).
Qed.

(** X7.  A header line is found in the decoded request under its name in
    lower case, trimmed, with its value trimmed, when it is the last line
    before the blank line and the lines before it are not empty: a later
    line for the same name replaces an earlier one, and what follows the
    blank line is no header. *)
Theorem last_header_line_wins
        (method path version : str) (lines : list str) (name value rest : str)
        (Hmethod : token method) (Hpath : token path) (Hversion : token version)
        (Hlines : Forall (fun line => line <> [] /\ ~ In CR line) lines)
        (Hname : ~ In ":"%char name /\ ~ In CR name)
        (Hvalue : ~ In CR value) :
  exists request,
    parse_request (method ++ py " " ++ path ++ py " " ++ version ++ CRLF
                   ++ header_block lines
                   ++ name ++ py ":" ++ value ++ CRLF ++ CRLF ++ rest)
    = Some request
    /\ req_method request = method
    /\ req_path request = path
    /\ In (Str.lower (Str.strip name), Str.strip value) (req_headers request).
Proof.
  set (line := method ++ py " " ++ path ++ py " " ++ version).
  assert (Hline : ~ In CR line).
  { unfold line. intro H.
    repeat (apply in_app_or in H as [H|H]);
      try (now apply token_no_CR in H); revert H; vm_compute; intuition discriminate. }
  set (nv := name ++ py ":" ++ value).
  assert (Hnv : ~ In CR nv).
  { unfold nv. intro H. destruct Hname as [_ Hn].
    repeat (apply in_app_or in H as [H|H]); try contradiction.
    revert H; vm_compute; intuition discriminate. }
  destruct (parse_request_some
              (method ++ py " " ++ path ++ py " " ++ version ++ CRLF
               ++ header_block lines ++ name ++ py ":" ++ value ++ CRLF ++ CRLF ++ rest)
              line (lines ++ nv :: [] :: Str.split CRLF rest) method path version)
    as [body Hb].
  - replace (method ++ py " " ++ path ++ py " " ++ version ++ CRLF
             ++ header_block lines ++ name ++ py ":" ++ value ++ CRLF ++ CRLF ++ rest)
      with (line ++ CRLF ++ header_block lines ++ nv ++ CRLF ++ CRLF ++ rest)
      by (unfold line, nv; now rewrite <- !app_assoc).
    rewrite split_CRLF_line by exact Hline.
    rewrite split_header_block
      by (apply Forall_impl with (2 := Hlines); now intros ? [_ ?]).
    rewrite split_CRLF_line by exact Hnv.
    reflexivity.
  - unfold line. now apply split_ws_three.
  - eexists. split; [exact Hb|]. split; [reflexivity|]. split; [reflexivity|].
    cbn [req_headers].
    rewrite parse_headers_app
      by (apply Forall_impl with (2 := Hlines); now intros ? [? _]).
    assert (Hne : nv <> []).
    { unfold nv. destruct name; discriminate. }
    cbn [parse_headers]. destruct nv as [|c0 nv0] eqn:Env; [contradiction|].
    rewrite <- Env. unfold Str.split1, nv.
    change (py ":") with [":"%char].
    rewrite partition_chr by apply Hname.
    destruct (Str.split CRLF rest); apply dict_set_lookup.
Qed.

Lemma last_header_line_wins_witness :
  exists request,
    parse_request (py "GET" ++ py " " ++ py "/a" ++ py " " ++ py "HTTP/1.1" ++ CRLF
                   ++ header_block [py "Host: first"; py "junk"]
                   ++ py " HOST " ++ py ":" ++ py " second:8080 " ++ CRLF ++ CRLF
                   ++ py "Host: third")
    = Some request
    /\ req_method request = py "GET"
    /\ req_path request = py "/a"
    /\ In (py "host", py "second:8080") (req_headers request).
Proof.
  apply (last_header_line_wins (py "GET") (py "/a") (py "HTTP/1.1")
                               [py "Host: first"; py "junk"]
                               (py " HOST ") (py " second:8080 ") (py "Host: third")).
  - split; [discriminate|]. intros c H. repeat destruct H as [<-|H]; try reflexivity; contradiction.
  - split; [discriminate|]. intros c H. repeat destruct H as [<-|H]; try reflexivity; contradiction.
  - split; [discriminate|]. intros c H. repeat destruct H as [<-|H]; try reflexivity; contradiction.
  - repeat constructor; try discriminate; vm_compute; intuition discriminate.
  - split; vm_compute; intuition discriminate.
  - vm_compute; intuition discriminate.
Defined.

Lemma contains_chr_false (c : ascii) (x : str) : ~ In c x -> Str.contains [c] x = false.
Proof.
  induction x as [|a x IH]; intro H; [reflexivity|].
  cbn [Str.contains Str.startswith].
  replace (Ascii.eqb c a) with false
    by (symmetry; apply Ascii.eqb_neq; intros ->; apply H; now left).
  apply IH. intro Hx. apply H. now right.
Qed.

Lemma before_query_cut (p q : str) :
  ~ In "?"%char p -> hd [] (Str.split1 (py "?") (p ++ py "?" ++ q)) = p.
Proof.
  intro H. unfold Str.split1. change (py "?") with ["?"%char].
  now rewrite partition_chr.
Qed.

Lemma before_query_whole (p : str) :
  ~ In "?"%char p -> hd [] (Str.split1 (py "?") p) = p.
Proof.
  intro H. unfold Str.split1. change (py "?") with ["?"%char].
  now rewrite (partition_none _ _ (contains_chr_false _ _ H)).
Qed.

Lemma before_query_slash (p : str) :
  hd [] (Str.split1 (py "?") ("/"%char :: p)) = "/"%char :: hd [] (Str.split1 (py "?") p).
Proof.
  unfold Str.split1. rewrite partition_cons.
  change (Str.startswith (py "?") ("/"%char :: p)) with false.
  now destruct (Str.partition (py "?") p) as [[b a]|].
Qed.

Lemma sanitize_path_slash (w : World) (p : str) :
  sanitize_path w ("/"%char :: p) = sanitize_path w p.
Proof. unfold sanitize_path, sanitize_path_on. now rewrite before_query_slash. Qed.

(** X8.  [sanitize_path] looks neither at the query string nor at the
    slashes a path begins with: a path preceded by any number of slashes
    and followed by [?] and anything resolves as the path alone. *)
Theorem sanitize_path_ignores_query_and_leading_slashes
        (w : World) (n : nat) (p q : str) (Hp : ~ In "?"%char p) :
  sanitize_path w (repeat "/"%char n ++ p ++ py "?" ++ q) = sanitize_path w p.
Proof.
  induction n as [|n IH].
  - unfold sanitize_path, sanitize_path_on. cbn [repeat app].
    now rewrite before_query_cut, before_query_whole.
  - cbn [repeat app]. now rewrite sanitize_path_slash.
Qed.

Lemma sanitize_path_ignores_query_and_leading_slashes_witness :
  sanitize_path demo (py "///pub/y.txt?x=../..") = sanitize_path demo (py "pub/y.txt")
  /\ sanitize_path demo (py "pub/y.txt") = Some (py "/srv/lynx/root/pub/y.txt").
Proof.
  split; [|reflexivity].
  apply (sanitize_path_ignores_query_and_leading_slashes
           demo 3 (py "pub/y.txt") (py "x=../..")).
  vm_compute. intuition discriminate.
Defined.

(** * The ways through the handler *)

Lemma rel_path_of_some (w : World) (path : str) :
  path <> [] -> exists rel_path, rel_path_of w path = Some rel_path.
Proof.
  intro H. unfold rel_path_of, Posixpath.relpath.
  destruct path as [|c path]; [contradiction|].
  cbv beta iota zeta.
  match goal with
  | |- context [Str.join Posixpath.sep ?l] => destruct l
  end; eexists; reflexivity.
Qed.

(** Method dispatch falls through with a response, or it is the GET
    block whose file cannot be read. *)
Lemma dispatch_cases (w : World) (request : Request) (target : str) :
  (exists t response, dispatch w request target = (t, Ok response))
  \/ (req_method request = py "GET" /\ read w target = None
      /\ dispatch w request target = ([EvOpen target], Raised)).
Proof.
  unfold dispatch, open_read, emit.
  destruct (Str.eqb (req_method request) (py "GET")) eqn:Eg.
  - apply str_eqb_eq in Eg. rewrite bind_ok.
    destruct (read w target) as [content|] eqn:Er.
    + left. eexists. eexists. reflexivity.
    + right. now repeat split.
  - left. destruct (Str.eqb (req_method request) (py "POST")); eexists; eexists; reflexivity.
Qed.

Lemma serve_resolved (w : World) (request : Request) (path : str) :
  sanitize_path w (req_path request) = Some path ->
  favicon_applies w request = false ->
  resolved w request
           (favicon_probe w request ++ fst (serve w request path),
            snd (serve w request path)).
Proof.
  intros Hp Hf.
  assert (Hne : path <> []) by exact (sanitize_path_nonempty _ _ _ Hp).
  assert (Htarget : forall target,
             is_target w path target -> isfile w target = true ->
             resolved w request
                      (favicon_probe w request ++ fst (serve w request path),
                       snd (serve w request path))).
  { intros target Ht Hfile.
    destruct (dispatch_cases w request target) as [(t & response & Hd)|(Hg & Hr & Hd)].
    - rewrite (serve_target _ _ _ _ _ _ Ht Hfile Hd). cbn [fst snd].
      now apply res_dispatched with (path := path).
    - rewrite (serve_unreadable _ _ _ _ Ht Hfile Hd). cbn [fst snd].
      now apply res_unreadable. }
  destruct (isdir w path) eqn:Hd.
  - destruct (isfile w (Posixpath.join path (py "index.html"))) eqn:Hi.
    + apply (Htarget (Posixpath.join path (py "index.html"))); [|exact Hi].
      right. now split.
    + destruct (rel_path_of_some w path Hne) as [rel_path Hr].
      rewrite (serve_directory _ request _ _ Hd Hi Hr). cbn [fst snd].
      destruct (Str.mem rel_path (browsable_dirs (config w))) eqn:Hb.
      * now apply res_listing.
      * now apply res_forbidden with (rel_path := rel_path).
  - destruct (isfile w path) eqn:Hi.
    + apply (Htarget path); [|exact Hi]. left. now split.
    + rewrite (serve_missing _ request _ Hd Hi). cbn [fst snd].
      now apply res_missing.
Qed.

(** Every run of [resolve] is one of the ways of [resolved]. *)
Lemma resolve_resolved (w : World) (request : Request) :
  resolved w request (resolve w request).
Proof.
  destruct (sanitize_path w (req_path request)) as [path|] eqn:Hp.
  - rewrite (resolve_eq _ _ _ Hp).
    destruct (favicon_applies w request) eqn:Hf.
    + unfold favicon_applies in Hf. unfold favicon_shortcut.
      destruct (favicon (config w)) as [[|f fav]|] eqn:Hfav; try discriminate.
      apply andb_true_iff in Hf as [Hroute Hfile]. rewrite Hroute.
      apply str_eqb_eq in Hroute.
      destruct (sanitize_path w (f :: fav)) as [[|c fp]|] eqn:Hs; try discriminate.
      unfold os_path_isfile, open_read, emit. rewrite bind_ok, Hfile, bind_ok.
      destruct (read w (c :: fp)) as [content|] eqn:Hr.
      * apply res_icon with (fav := f :: fav); now try assumption.
      * apply res_icon_unreadable with (fav := f :: fav); now try assumption.
    + rewrite (favicon_skipped _ _ Hf), bind_ok. now apply serve_resolved.
  - unfold resolve. rewrite Hp. now apply res_rejected.
Qed.

(** Every run of the [try] block is one of the ways of [handled]. *)
Lemma handle_handled (w : World) (data addr : str) :
  handled w data addr (handle w data addr).
Proof.
  destruct data as [|c data]; [now apply han_nothing|].
  unfold handle.
  destruct (parse_request (c :: data)) as [parsed|] eqn:Hparsed.
  - destruct (ip_whitelist_enabled (config w)
              && negb (Str.mem addr (ip_whitelist (config w)))) eqn:Hw.
    + apply andb_true_iff in Hw as [He Hm]. apply negb_true_iff in Hm.
      now apply han_stranger with (parsed := parsed).
    + rewrite run_before_eq, bind_ok.
      apply han_resolved; try easy.
      now apply reaches_resolve_when_passing.
  - now apply han_undecoded.
Qed.

Lemma handle_client_eq (w : World) (data addr : str) :
  handle_client w data addr
  = fst (handle w data addr)
    ++ match snd (handle w data addr) with
       | Raised => [EvSend internal_error_response]
       | _ => []
       end
    ++ [EvClose].
Proof.
  unfold handle_client. destruct (handle w data addr) as [t [[]| |]]; cbn [try_except fst snd].
  - now rewrite app_nil_l.
  - now rewrite app_nil_l.
  - unfold internal_error, send, emit. cbn [fst]. now rewrite <- app_assoc.
Qed.

Lemma closes_app (a b : list event) : closes (a ++ b) = closes a + closes b.
Proof.
  induction a as [|e a IH]; [reflexivity|].
  destruct e; simpl; now rewrite ?IH.
Qed.

Lemma listed_app (a b : list event) : listed (a ++ b) = listed a ++ listed b.
Proof.
  induction a as [|e a IH]; [reflexivity|].
  destruct e; simpl; now rewrite ?IH.
Qed.

Lemma after_observers_app (a b : list event) :
  after_observers (a ++ b) = after_observers a ++ after_observers b.
Proof.
  induction a as [|e a IH]; [reflexivity|].
  destruct e; simpl; now rewrite ?IH.
Qed.

Lemma writes_quiet (l : list bytes) :
  closes (map EvWrite l) = 0 /\ listed (map EvWrite l) = []
  /\ after_observers (map EvWrite l) = [].
Proof. induction l as [|b l IH]; [now repeat split|exact IH]. Qed.

Lemma before_trace_quiet (hooks : list BeforeHook) (request : Request) :
  closes (before_trace hooks request) = 0
  /\ listed (before_trace hooks request) = []
  /\ after_observers (before_trace hooks request) = [].
Proof.
  revert request; induction hooks as [|hook hooks IH]; intro request; [now repeat split|].
  cbn [before_trace closes listed after_observers].
  rewrite closes_app, listed_app, after_observers_app.
  destruct (writes_quiet (hk_written (bh_call hook request))) as (-> & -> & ->).
  apply IH.
Qed.

Lemma after_trace_quiet (hooks : list AfterHook) (request : Request) (response : Response) :
  closes (after_trace hooks request response) = 0
  /\ listed (after_trace hooks request response) = []
  /\ after_observers (after_trace hooks request response) = map ah_name hooks.
Proof.
  revert request response; induction hooks as [|hook hooks IH]; intros request response;
    [now repeat split|].
  cbn [after_trace closes listed after_observers map].
  rewrite closes_app, listed_app, after_observers_app.
  destruct (writes_quiet (hk_written (ah_call hook request response))) as (-> & -> & ->).
  destruct (IH (fst (hk_after (ah_call hook request response)))
               (snd (hk_after (ah_call hook request response)))) as (-> & -> & ->).
  now repeat split.
Qed.

Lemma favicon_probe_quiet (w : World) (request : Request) :
  closes (favicon_probe w request) = 0
  /\ listed (favicon_probe w request) = []
  /\ after_observers (favicon_probe w request) = [].
Proof.
  unfold favicon_probe.
  destruct (favicon (config w)) as [[|f fav]|]; try now repeat split.
  destruct (Str.eqb _ _); [|now repeat split].
  destruct (sanitize_path w (f :: fav)) as [[|c fp]|]; now repeat split.
Qed.

Lemma target_probe_quiet (w : World) (path target : str) :
  closes (target_probe w path target) = 0
  /\ listed (target_probe w path target) = []
  /\ after_observers (target_probe w path target) = [].
Proof. unfold target_probe. destruct (isdir w path); now repeat split. Qed.

(** What method dispatch does when it falls through. *)
Lemma dispatch_ok (w : World) (request : Request) (target : str)
      (t : list event) (response : Response) :
  dispatch w request target = (t, Ok response) ->
  (req_method request = py "GET" /\ t = [EvOpen target]
   /\ exists content,
       read w target = Some content
       /\ status response = 200 /\ body response = content
       /\ exists mime, headers response = [(py "Content-Type", mime); content_length content])
  \/ (req_method request = py "POST" /\ t = [] /\ response = form_page request)
  \/ (req_method request <> py "GET" /\ req_method request <> py "POST"
      /\ t = [] /\ response = bad_request).
Proof.
  unfold dispatch, open_read, emit.
  destruct (Str.eqb (req_method request) (py "GET")) eqn:Eg.
  - apply str_eqb_eq in Eg. rewrite bind_ok.
    destruct (read w target) as [content|] eqn:Er; [|discriminate].
    cbn [ret bind fst snd app]. intro H. injection H as <- <-.
    left. split; [exact Eg|]. split; [reflexivity|].
    exists content. split; [reflexivity|]. split; [reflexivity|]. split; [reflexivity|].
    eexists. reflexivity.
  - apply str_eqb_neq in Eg.
    destruct (Str.eqb (req_method request) (py "POST")) eqn:Ep.
    + apply str_eqb_eq in Ep. intro H. injection H as <- <-. right; left. now repeat split.
    + apply str_eqb_neq in Ep. intro H. injection H as <- <-. right; right. now repeat split.
Qed.

Lemma dispatch_trace (w : World) (request : Request) (target : str)
      (t : list event) (response : Response) :
  dispatch w request target = (t, Ok response) ->
  sent t = [] /\ closes t = 0 /\ listed t = [] /\ after_observers t = []
  /\ (t = [] \/ t = [EvOpen target]).
Proof.
  intro H. apply dispatch_ok in H as [(_ & -> & _)|[(_ & -> & _)|(_ & _ & -> & _)]];
    repeat split; auto.
Qed.

(** X9.  Every connection is answered once and then closed: whatever was
    read and whatever the file system and the callbacks do, the handler
    sends exactly one response of its own when something was read and
    none when nothing was, and closing the connection is the last thing
    it does and is done once. *)
Theorem one_response_then_close (w : World) (data addr : str) :
  List.length (sent (handle_client w data addr))
  = match data with [] => 0 | _ => 1 end
  /\ closes (handle_client w data addr) = 1
  /\ exists t, handle_client w data addr = t ++ [EvClose].
Proof.
  split; [|split].
  3: { unfold handle_client. eexists. reflexivity. }
  all: rewrite handle_client_eq;
    destruct (handle_handled w data addr) as [Hd | Hd Hp | parsed Hd Hp He Hm | parsed Hd Hp Hreach];
    cbn [fst snd]; subst; try reflexivity; try (destruct data; [contradiction|reflexivity]).
  - rewrite !sent_app, !length_app.
    destruct (before_trace_silent (before_request w) parsed) as (-> & _).
    destruct data as [|c data]; [contradiction|].
    destruct (resolve_resolved w (hooked (before_request w) parsed))
      as [ | | | | | | | path target t1 response Hs Hf Ht Hfile Hdis];
      cbn [fst snd]; rewrite ?sent_app, ?length_app;
      rewrite ?(proj1 (favicon_probe_silent w _)), ?(proj1 (target_probe_silent w _ _));
      try reflexivity.
    rewrite (proj1 (after_trace_silent _ _ _)).
    destruct (dispatch_trace _ _ _ _ _ Hdis) as (-> & _). reflexivity.
  - rewrite !closes_app.
    destruct (before_trace_quiet (before_request w) parsed) as (-> & _).
    destruct (resolve_resolved w (hooked (before_request w) parsed))
      as [ | | | | | | | path target t1 response Hs Hf Ht Hfile Hdis];
      cbn [fst snd]; rewrite ?closes_app;
      rewrite ?(proj1 (favicon_probe_quiet w _)), ?(proj1 (target_probe_quiet w _ _));
      try reflexivity.
    rewrite (proj1 (after_trace_quiet _ _ _)).
    destruct (dispatch_trace _ _ _ _ _ Hdis) as (_ & -> & _). reflexivity.
Qed.

Lemma sent_before_trace (hooks : list BeforeHook) (request : Request) :
  sent (before_trace hooks request) = [].
Proof. apply before_trace_silent. Qed.

Lemma opened_before_trace (hooks : list BeforeHook) (request : Request) :
  opened (before_trace hooks request) = [].
Proof. apply before_trace_silent. Qed.

Lemma listed_before_trace (hooks : list BeforeHook) (request : Request) :
  listed (before_trace hooks request) = [].
Proof. apply before_trace_quiet. Qed.

Lemma after_observers_before_trace (hooks : list BeforeHook) (request : Request) :
  after_observers (before_trace hooks request) = [].
Proof. apply before_trace_quiet. Qed.

Lemma sent_after_trace (hooks : list AfterHook) (request : Request) (response : Response) :
  sent (after_trace hooks request response) = [].
Proof. apply after_trace_silent. Qed.

Lemma opened_after_trace (hooks : list AfterHook) (request : Request) (response : Response) :
  opened (after_trace hooks request response) = [].
Proof. apply after_trace_silent. Qed.

Lemma listed_after_trace (hooks : list AfterHook) (request : Request) (response : Response) :
  listed (after_trace hooks request response) = [].
Proof. apply after_trace_quiet. Qed.

Lemma after_observers_after_trace
      (hooks : list AfterHook) (request : Request) (response : Response) :
  after_observers (after_trace hooks request response) = map ah_name hooks.
Proof. apply after_trace_quiet. Qed.

Lemma sent_favicon_probe (w : World) (request : Request) :
  sent (favicon_probe w request) = [].
Proof. apply favicon_probe_silent. Qed.

Lemma opened_favicon_probe (w : World) (request : Request) :
  opened (favicon_probe w request) = [].
Proof. apply favicon_probe_silent. Qed.

Lemma listed_favicon_probe (w : World) (request : Request) :
  listed (favicon_probe w request) = [].
Proof. apply favicon_probe_quiet. Qed.

Lemma after_observers_favicon_probe (w : World) (request : Request) :
  after_observers (favicon_probe w request) = [].
Proof. apply favicon_probe_quiet. Qed.

Lemma sent_target_probe (w : World) (path target : str) :
  sent (target_probe w path target) = [].
Proof. apply target_probe_silent. Qed.

Lemma opened_target_probe (w : World) (path target : str) :
  opened (target_probe w path target) = [].
Proof. apply target_probe_silent. Qed.

Lemma listed_target_probe (w : World) (path target : str) :
  listed (target_probe w path target) = [].
Proof. apply target_probe_quiet. Qed.

Lemma after_observers_target_probe (w : World) (path target : str) :
  after_observers (target_probe w path target) = [].
Proof. apply target_probe_quiet. Qed.

Create Rewrite HintDb trace.

#[local] Hint Rewrite
  sent_app opened_app listed_app after_observers_app
  sent_before_trace opened_before_trace listed_before_trace after_observers_before_trace
  sent_after_trace opened_after_trace listed_after_trace after_observers_after_trace
  sent_favicon_probe opened_favicon_probe listed_favicon_probe after_observers_favicon_probe
  sent_target_probe opened_target_probe listed_target_probe after_observers_target_probe
  : trace.

(** The ways through [handle_client], and what a projection of the trace
    is on each. *)
Ltac ways w data addr parsed :=
  rewrite ?handle_client_eq;
  destruct (handle_handled w data addr)
    as [Hd | Hd Hundecoded | parsed Hd Hparsed Henabled Hstranger | parsed Hd Hparsed Hreach];
  cbn [fst snd];
  [ | | |
    destruct (resolve_resolved w (hooked (before_request w) parsed))
      as [ Hpath
         | fav favicon_path content Hroute Hfav Hne Hicon Hfile Hread
         | fav favicon_path Hroute Hfav Hne Hicon Hfile Hread
         | path rel_path Hpath Hskip Hdir Hindex Hrel Hbrowsable
         | path rel_path Hpath Hskip Hdir Hindex Hrel Hbrowsable
         | path Hpath Hskip Hdir Hfile
         | path target Hpath Hskip Htarget Hfile Hget Hread
         | path target t response Hpath Hskip Htarget Hfile Hdispatch ];
    cbn [fst snd] ];
  autorewrite with trace;
  cbn [sent opened listed after_observers app].

Lemma final_response_nil (request : Request) (response : Response) :
  final_response [] request response = response.
Proof. reflexivity. Qed.

Lemma framed_one (name value : str) (r : Response) :
  headers r = [(name, value)] ->
  (name = py "Content-Length" -> value = Str.of_nat (List.length (body r))) ->
  framed r.
Proof.
  intros Hh Hv v Hin. rewrite Hh in Hin. destruct Hin as [E|[]].
  injection E as E1 E2. subst. now apply Hv.
Qed.

Lemma framed_typed (mime : str) (content : bytes) (r : Response) :
  headers r = [(py "Content-Type", mime); content_length content] ->
  body r = content -> framed r.
Proof.
  intros Hh Hb v Hin. rewrite Hh in Hin. destruct Hin as [E|[E|[]]].
  - injection E as E _. revert E. vm_compute. discriminate.
  - injection E as <-. now rewrite Hb.
Qed.

(** X10.  With no post-resolution callback registered, every response
    the handler sends has one of the five status codes it knows, and a
    [Content-Length] header, when there is one, gives the exact length of
    the body. *)
Theorem responses_are_framed
        (w : World) (data addr : str) (r : Response)
        (Hnone : after_request w = [])
        (Hsent : In r (sent (handle_client w data addr))) :
  In (status r) [200; 400; 403; 404; 500] /\ framed r.
Proof.
  revert Hsent. ways w data addr parsed.
  all: try (intros [<-|[]]).
  all: try (split; [cbn; tauto | eapply framed_one; [reflexivity | reflexivity]]).
  all: try (split; [cbn; tauto | eapply framed_typed; reflexivity]).
  - intros [].
  - rewrite Hnone.
    apply dispatch_ok in Hdispatch
      as [(_ & -> & content & _ & Hs & Hb & mime & Hh)|[(_ & -> & ->)|(_ & _ & -> & ->)]];
      cbn [sent app after_trace final_response]; intros [<-|[]].
    + rewrite Hs. split; [cbn; tauto | now apply (framed_typed mime content)].
    + split; [cbn; tauto | eapply framed_one; [reflexivity | discriminate]].
    + split; [cbn; tauto | eapply framed_one; [reflexivity | reflexivity]].
Qed.

Lemma responses_are_framed_witness :
  after_request demo = []
  /\ In (mkResponse 200 [(py "Content-Type", py "text/plain"); (py "Content-Length", py "5")]
                    (py "hello"))
        (sent (handle_client demo (get "/hello.txt") stranger))
  /\ In 200 [200; 400; 403; 404; 500]
  /\ framed (mkResponse 200
                        [(py "Content-Type", py "text/plain"); (py "Content-Length", py "5")]
                        (py "hello")).
Proof.
  split; [reflexivity|]. split; [left; reflexivity|].
  apply (responses_are_framed
           demo (get "/hello.txt") stranger
           (mkResponse 200 [(py "Content-Type", py "text/plain"); (py "Content-Length", py "5")]
                       (py "hello"))).
  - reflexivity.
  - left. reflexivity.
Defined.

(** X11.  With no post-resolution callback registered, a response 500
    means that a file could not be read: the handler opened a file that
    [os.path.isfile] had reported as a regular file, and reading it
    raised. *)
Theorem server_error_means_a_failed_read
        (w : World) (data addr : str) (r : Response)
        (Hnone : after_request w = [])
        (Hsent : In r (sent (handle_client w data addr)))
        (Hstatus : status r = 500) :
  exists p, In p (opened (handle_client w data addr))
            /\ isfile w p = true /\ read w p = None.
Proof.
  revert Hsent. ways w data addr parsed.
  all: try (intros [<-|[]]; discriminate).
  - intros [].
  - intros _. exists favicon_path. split; [now left|now split].
  - intros _. exists target. split; [now left|now split].
  - rewrite Hnone.
    apply dispatch_ok in Hdispatch
      as [(_ & -> & content & _ & Hs & _)|[(_ & -> & ->)|(_ & _ & -> & ->)]];
      cbn [sent opened app after_trace final_response]; intros [<-|[]];
      [rewrite Hs in Hstatus|..]; discriminate.
Qed.

Lemma server_error_means_a_failed_read_witness :
  after_request jammed = []
  /\ In internal_error_response (sent (handle_client jammed (get "/hello.txt") stranger))
  /\ status internal_error_response = 500
  /\ exists p, In p (opened (handle_client jammed (get "/hello.txt") stranger))
               /\ isfile jammed p = true /\ read jammed p = None.
Proof.
  split; [reflexivity|]. split; [left; reflexivity|]. split; [reflexivity|].
  apply (server_error_means_a_failed_read
           jammed (get "/hello.txt") stranger internal_error_response).
  - reflexivity.
  - left. reflexivity.
  - reflexivity.
Defined.

(** X12.  A GET whose target exists as a regular file that cannot be
    read is answered 500 with the fixed body: the file is opened, no
    post-resolution callback is called, and the one response sent is the
    one of the [except] branch. *)
Theorem unreadable_file_is_answered_500
        (w : World) (data addr : str) (request : Request) (path target : str)
        (Hreach : reaches_resolve w data addr = Some request)
        (Hpath : sanitize_path w (req_path request) = Some path)
        (Hskip : favicon_applies w request = false)
        (Htarget : is_target w path target)
        (Hfile : isfile w target = true)
        (Hget : req_method request = py "GET")
        (Hread : read w target = None) :
  sent (handle_client w data addr) = [internal_error_response]
  /\ opened (handle_client w data addr) = [target]
  /\ after_observers (handle_client w data addr) = [].
Proof.
  destruct (handle_client_reaches _ _ _ _ Hreach) as (parsed & _ & _ & E).
  rewrite E, (answer_fallthrough _ _ _ Hpath Hskip).
  assert (Hd : dispatch w request target = ([EvOpen target], Raised)).
  { destruct (dispatch_cases w request target) as [(t & response & Hd)|(_ & _ & Hd)];
      [|exact Hd].
    apply dispatch_ok in Hd as [(_ & _ & content & Hc & _)|[(Hp & _)|(Hn & _)]].
    - rewrite Hread in Hc. discriminate.
    - rewrite Hget in Hp. discriminate.
    - contradiction. }
  rewrite (serve_unreadable _ _ _ _ Htarget Hfile Hd).
  cbn [try_except internal_error send emit fst snd].
  autorewrite with trace. cbn [sent opened after_observers app].
  autorewrite with trace. now repeat split.
Qed.

Lemma unreadable_file_is_answered_500_witness :
  reaches_resolve jammed (get "/site") stranger
  = Some (mkRequest (py "GET") (py "/site") (py "HTTP/1.1") [(py "host", py "lynx")] [])
  /\ sanitize_path jammed (py "/site") = Some (py "/srv/lynx/root/site")
  /\ isfile jammed (py "/srv/lynx/root/site/index.html") = true
  /\ read jammed (py "/srv/lynx/root/site/index.html") = None
  /\ sent (handle_client jammed (get "/site") stranger) = [internal_error_response]
  /\ opened (handle_client jammed (get "/site") stranger)
     = [py "/srv/lynx/root/site/index.html"]
  /\ after_observers (handle_client jammed (get "/site") stranger) = [].
Proof.
  split; [reflexivity|]. split; [reflexivity|]. split; [reflexivity|].
  split; [reflexivity|].
  apply (unreadable_file_is_answered_500
           jammed (get "/site") stranger
           (mkRequest (py "GET") (py "/site") (py "HTTP/1.1") [(py "host", py "lynx")] [])
           (py "/srv/lynx/root/site") (py "/srv/lynx/root/site/index.html")).
  - reflexivity.
  - reflexivity.
  - reflexivity.
  - right. split; reflexivity.
  - reflexivity.
  - reflexivity.
  - reflexivity.
Defined.

(** X13.  A method other than GET and POST is answered 400 with an empty
    body only when the target exists: for a request that the favicon
    block does not answer and whose target is a regular file, the
    response built is 400 with [Content-Length: 0], it goes through the
    post-resolution callbacks like any other, and no file is opened. *)
Theorem other_methods_are_answered_400
        (w : World) (data addr : str) (request : Request) (path target : str)
        (Hreach : reaches_resolve w data addr = Some request)
        (Hpath : sanitize_path w (req_path request) = Some path)
        (Hskip : favicon_applies w request = false)
        (Htarget : is_target w path target)
        (Hfile : isfile w target = true)
        (Hget : req_method request <> py "GET")
        (Hpost : req_method request <> py "POST") :
  sent (handle_client w data addr)
  = [final_response (after_request w) request bad_request]
  /\ opened (handle_client w data addr) = []
  /\ after_observers (handle_client w data addr) = map ah_name (after_request w).
Proof.
  destruct (handle_client_reaches _ _ _ _ Hreach) as (parsed & _ & _ & E).
  rewrite E, (answer_fallthrough _ _ _ Hpath Hskip).
  assert (Hd : dispatch w request target = ([], Ok bad_request)).
  { unfold dispatch. apply str_eqb_neq in Hget, Hpost. now rewrite Hget, Hpost. }
  rewrite (serve_target _ _ _ _ _ _ Htarget Hfile Hd).
  cbn [try_except fst snd].
  autorewrite with trace. cbn [sent opened after_observers app].
  autorewrite with trace. rewrite !app_nil_r. now repeat split.
Qed.

Lemma other_methods_are_answered_400_witness :
  reaches_resolve demo (delete "/hello.txt") stranger
  = Some (mkRequest (py "DELETE") (py "/hello.txt") (py "HTTP/1.1") [] [])
  /\ isfile demo (py "/srv/lynx/root/hello.txt") = true
  /\ sent (handle_client demo (delete "/hello.txt") stranger) = [bad_request]
  /\ opened (handle_client demo (delete "/hello.txt") stranger) = []
  /\ after_observers (handle_client demo (delete "/hello.txt") stranger) = [].
Proof.
  split; [reflexivity|]. split; [reflexivity|].
  apply (other_methods_are_answered_400
           demo (delete "/hello.txt") stranger
           (mkRequest (py "DELETE") (py "/hello.txt") (py "HTTP/1.1") [] [])
           (py "/srv/lynx/root/hello.txt") (py "/srv/lynx/root/hello.txt")).
  - reflexivity.
  - reflexivity.
  - reflexivity.
  - left. split; reflexivity.
  - reflexivity.
  - discriminate.
  - discriminate.
Defined.

(** X14.  A directory is enumerated only when the configuration allows
    it: every path given to [os.listdir] is a directory without an
    [index.html] whose [rel_path] is an entry of [browsable_dirs]. *)
Theorem only_browsable_directories_are_listed
        (w : World) (data addr p : str)
        (Hlisted : In p (listed (handle_client w data addr))) :
  isdir w p = true
  /\ isfile w (Posixpath.join p (py "index.html")) = false
  /\ exists rel_path, rel_path_of w p = Some rel_path
                      /\ In rel_path (browsable_dirs (config w)).
Proof.
  revert Hlisted. ways w data addr parsed.
  all: try (now intros []).
  - intros [<-|[]]. split; [exact Hdir|]. split; [exact Hindex|].
    exists rel_path. split; [exact Hrel|]. now apply mem_In.
  - apply dispatch_trace in Hdispatch as (_ & _ & -> & _). intros [].
Qed.

Lemma only_browsable_directories_are_listed_witness :
  In (py "/srv/lynx/root/pub") (listed (handle_client branded (get "/pub") stranger))
  /\ isdir branded (py "/srv/lynx/root/pub") = true
  /\ isfile branded (Posixpath.join (py "/srv/lynx/root/pub") (py "index.html")) = false
  /\ exists rel_path, rel_path_of branded (py "/srv/lynx/root/pub") = Some rel_path
                      /\ In rel_path (browsable_dirs (config branded)).
Proof.
  split; [left; reflexivity|].
  apply (only_browsable_directories_are_listed
           branded (get "/pub") stranger (py "/srv/lynx/root/pub")).
  left. reflexivity.
Defined.

Lemma texts_map (files : list str) : texts (map Text files) = Some files.
Proof.
  induction files as [|file files IH]; [reflexivity|].
  cbn [map texts]. now rewrite IH.
Qed.

Lemma texts_undecodable (entries : list filename) :
  In Undecodable entries -> texts entries = None.
Proof.
  induction entries as [|[name|] entries IH]; intro H.
  - destruct H.
  - destruct H as [H|H]; [discriminate|]. cbn [texts]. now rewrite IH.
  - reflexivity.
Qed.

Lemma listing_page_entry (request_path file : str) (files : list str) :
  In file files ->
  exists before after,
    listing_page request_path files
    = before ++ Str.encode (anchor (Posixpath.join request_path file) file) ++ after.
Proof.
  intro Hin. apply in_split in Hin as (l1 & l2 & ->).
  unfold listing_page. rewrite map_app, concat_app. cbn [map concat].
  rewrite !encode_app.
  exists (Str.encode (py "<html><body><h1>Directory listing</h1><ul>")
          ++ Str.encode (concat (map (fun f => anchor (Posixpath.join request_path f) f) l1))).
  eexists. rewrite <- !app_assoc. reflexivity.
Qed.

(** X15.  A directory that may be browsed and can be enumerated is
    answered 200 [text/html], and it is enumerated once.  When every name
    in it can be encoded, the body is the page of [handle_directory]: for
    every name the page has the item whose link is the name joined to
    [rel_path] and whose text is the name, both written as they are,
    without escaping.  When a name cannot be encoded (a file name with
    surrogate escapes), encoding the page raises inside [handle_directory]
    and the body is the fixed text [Error listing directory], still with
    status 200. *)
Theorem listing_shows_every_entry
        (w : World) (data addr : str) (request : Request) (path rel_path : str)
        (entries : list filename)
        (Hreach : reaches_resolve w data addr = Some request)
        (Hpath : sanitize_path w (req_path request) = Some path)
        (Hskip : favicon_applies w request = false)
        (Hdir : isdir w path = true)
        (Hindex : isfile w (Posixpath.join path (py "index.html")) = false)
        (Hrel : rel_path_of w path = Some rel_path)
        (Hbrowsable : In rel_path (browsable_dirs (config w)))
        (Hlist : listdir w path = Some entries) :
  listed (handle_client w data addr) = [path]
  /\ (forall files,
        entries = map Text files ->
        sent (handle_client w data addr)
        = [mkResponse 200 [(py "Content-Type", py "text/html");
                           content_length (listing_page rel_path files)]
                      (listing_page rel_path files)]
        /\ forall file, In file files ->
             exists before after,
               listing_page rel_path files
               = before
                 ++ Str.encode (py "<li><a href=" ++ [Repr.quote2]
                                ++ Posixpath.join rel_path file
                                ++ [Repr.quote2] ++ py ">" ++ file ++ py "</a></li>")
                 ++ after)
  /\ (In Undecodable entries ->
      sent (handle_client w data addr) = [listing_error]).
Proof.
  destruct (handle_client_reaches _ _ _ _ Hreach) as (parsed & _ & _ & E).
  rewrite E, (answer_fallthrough _ _ _ Hpath Hskip).
  rewrite (serve_directory _ _ _ _ Hdir Hindex Hrel).
  apply mem_In in Hbrowsable. rewrite Hbrowsable.
  unfold listing_body. rewrite Hlist.
  cbn [try_except fst snd].
  autorewrite with trace. cbn [sent listed app].
  split; [reflexivity|]. split.
  - intros files ->. rewrite texts_map. split; [reflexivity|].
    intros file Hin. exact (listing_page_entry rel_path file files Hin).
  - intro Hin. now rewrite (texts_undecodable _ Hin).
Qed.

Lemma listing_shows_every_entry_witness :
  reaches_resolve stained (get "/pub") stranger
  = Some (mkRequest (py "GET") (py "/pub") (py "HTTP/1.1") [(py "host", py "lynx")] [])
  /\ listdir stained (py "/srv/lynx/root/pub") = Some (map Text [py "x.bin"; py "y.txt"])
  /\ listdir stained (py "/srv/lynx/root/locked") = Some [Text (py "secret"); Undecodable]
  /\ sent (handle_client stained (get "/pub") stranger)
     = [mkResponse 200 [(py "Content-Type", py "text/html");
                        content_length (listing_page (py "/pub") [py "x.bin"; py "y.txt"])]
                   (listing_page (py "/pub") [py "x.bin"; py "y.txt"])]
  /\ sent (handle_client stained (get "/locked") stranger) = [listing_error].
Proof.
  split; [reflexivity|]. split; [reflexivity|]. split; [reflexivity|].
  split.
  - apply (listing_shows_every_entry
             stained (get "/pub") stranger
             (mkRequest (py "GET") (py "/pub") (py "HTTP/1.1") [(py "host", py "lynx")] [])
             (py "/srv/lynx/root/pub") (py "/pub")
             (map Text [py "x.bin"; py "y.txt"])
             eq_refl eq_refl eq_refl eq_refl eq_refl eq_refl
             (or_introl eq_refl) eq_refl).
    reflexivity.
  - apply (listing_shows_every_entry
             stained (get "/locked") stranger
             (mkRequest (py "GET") (py "/locked") (py "HTTP/1.1") [(py "host", py "lynx")] [])
             (py "/srv/lynx/root/locked") (py "/locked")
             [Text (py "secret"); Undecodable]
             eq_refl eq_refl eq_refl eq_refl eq_refl eq_refl
             (or_intror (or_introl eq_refl)) eq_refl).
    right. left. reflexivity.
Defined.

(** X16.  The post-resolution callbacks are called for the response of
    method dispatch and for no other: on every connection either none of
    them is called, or all of them are, in the order of registration, and
    then the request got as far as path resolution, was not answered by
    the favicon block, its target exists as a regular file, and the one
    response sent is what the callbacks made of the response that method
    dispatch built. *)
Theorem after_hooks_see_only_dispatched_responses (w : World) (data addr : str) :
  after_observers (handle_client w data addr) = []
  \/ (after_observers (handle_client w data addr) = map ah_name (after_request w)
      /\ exists request path target t response,
          reaches_resolve w data addr = Some request
          /\ sanitize_path w (req_path request) = Some path
          /\ favicon_applies w request = false
          /\ is_target w path target
          /\ isfile w target = true
          /\ dispatch w request target = (t, Ok response)
          /\ sent (handle_client w data addr)
             = [final_response (after_request w) request response]).
Proof.
  ways w data addr parsed.
  all: try (now left).
  right. destruct (dispatch_trace _ _ _ _ _ Hdispatch) as (Hs & _ & _ & Ha & _).
  rewrite Hs, Ha, !app_nil_r. split; [reflexivity|].
  exists (hooked (before_request w) parsed), path, target, t, response.
  now repeat split.
Qed.

(** X17.  Only regular files are opened, one at most, and only for a GET
    or for the favicon route: a file the handler opens was reported by
    [os.path.isfile] as a regular file, it is the only file opened on the
    connection, and the request is a GET or asks for [/favicon.ico]. *)
Theorem only_regular_files_are_opened
        (w : World) (data addr p : str)
        (Hopened : In p (opened (handle_client w data addr))) :
  isfile w p = true
  /\ opened (handle_client w data addr) = [p]
  /\ exists request,
      reaches_resolve w data addr = Some request
      /\ (req_method request = py "GET" \/ req_path request = py "/favicon.ico").
Proof.
  revert Hopened. ways w data addr parsed.
  all: try (now intros []).
  - intros [<-|[]]. split; [exact Hfile|]. split; [reflexivity|].
    exists (hooked (before_request w) parsed). split; [exact Hreach|now right].
  - intros [<-|[]]. split; [exact Hfile|]. split; [reflexivity|].
    exists (hooked (before_request w) parsed). split; [exact Hreach|now right].
  - intros [<-|[]]. split; [exact Hfile|]. split; [reflexivity|].
    exists (hooked (before_request w) parsed). split; [exact Hreach|now left].
  - apply dispatch_ok in Hdispatch
      as [(Hget & -> & _)|[(_ & -> & _)|(_ & _ & -> & _)]];
      cbn [opened app]; try (now intros []).
    intros [<-|[]]. split; [exact Hfile|]. split; [reflexivity|].
    exists (hooked (before_request w) parsed). split; [exact Hreach|now left].
Qed.

Lemma only_regular_files_are_opened_witness :
  In (py "/srv/lynx/root/logo.png")
     (opened (handle_client branded (post "/favicon.ico" "a=1") stranger))
  /\ isfile branded (py "/srv/lynx/root/logo.png") = true
  /\ opened (handle_client branded (post "/favicon.ico" "a=1") stranger)
     = [py "/srv/lynx/root/logo.png"]
  /\ exists request,
      reaches_resolve branded (post "/favicon.ico" "a=1") stranger = Some request
      /\ (req_method request = py "GET" \/ req_path request = py "/favicon.ico").
Proof.
  split; [left; reflexivity|].
  apply (only_regular_files_are_opened
           branded (post "/favicon.ico" "a=1") stranger (py "/srv/lynx/root/logo.png")).
  left. reflexivity.
Defined.

Lemma bind_ext {A B : Type} (m : M A) (k k' : A -> M B) :
  (forall a, k a = k' a) -> bind m k = bind m k'.
Proof. intro H. destruct m as [t [a| |]]; cbn [bind]; now rewrite ?H. Qed.

Lemma final_response_calm (hooks : list AfterHook) (request : Request) (response : Response) :
  final_response (map calm_after hooks) request response
  = final_response hooks request response.
Proof.
  revert request response; induction hooks as [|hook hooks IH]; intros request response;
    [reflexivity|].
  cbn [map final_response]. apply IH.
Qed.

Lemma after_trace_calm (hooks : list AfterHook) (request : Request) (response : Response) :
  after_trace (map calm_after hooks) request response = after_trace hooks request response.
Proof.
  revert request response; induction hooks as [|hook hooks IH]; intros request response;
    [reflexivity|].
  cbn [map after_trace]. now rewrite IH.
Qed.

Lemma serve_calm (w : World) (request : Request) (path : str) :
  serve (with_after w (map calm_after (after_request w))) request path
  = serve w request path.
Proof.
  unfold serve.
  apply (bind_ext (directory w path)). intro target.
  apply (bind_ext (os_path_isfile w target)). intros [|]; [|reflexivity].
  cbn [negb]. apply (bind_ext (dispatch w request target)). intro response.
  cbn [with_after after_request].
  now rewrite !run_after_eq, after_trace_calm, final_response_calm.
Qed.

Lemma handle_calm (w : World) (data addr : str) :
  handle (with_after w (map calm_after (after_request w))) data addr = handle w data addr.
Proof.
  unfold handle. destruct data as [|c data]; [reflexivity|].
  destruct (parse_request (c :: data)) as [parsed|]; [|reflexivity].
  cbn [with_after config before_request].
  destruct (_ && _); [reflexivity|].
  apply (bind_ext (run_before (before_request w) parsed)). intro request.
  unfold resolve.
  change (sanitize_path (with_after w (map calm_after (after_request w))) (req_path request))
    with (sanitize_path w (req_path request)).
  destruct (sanitize_path w (req_path request)) as [[|c0 path]|]; try reflexivity.
  apply (bind_ext (favicon_shortcut w request)). intros _. apply serve_calm.
Qed.

(** X18.  A post-resolution callback that raises does no harm: the
    exception is swallowed, what the callback had done to the request and
    to the response before it raised stays, the callbacks after it are
    called, and the connection sees exactly what it would see if no
    callback raised. *)
Theorem after_hooks_survive_raising (w : World) (data addr : str) :
  handle_client (with_after w (map calm_after (after_request w))) data addr
  = handle_client w data addr.
Proof. unfold handle_client. now rewrite handle_calm. Qed.

(** X19.  A request whose resolved path is neither a directory nor a
    regular file is answered 404, whatever its method: the one response
    sent is the fixed 404, no file is opened and no post-resolution
    callback is called. *)
Theorem missing_target_is_answered_404
        (w : World) (data addr : str) (request : Request) (path : str)
        (Hreach : reaches_resolve w data addr = Some request)
        (Hpath : sanitize_path w (req_path request) = Some path)
        (Hskip : favicon_applies w request = false)
        (Hdir : isdir w path = false)
        (Hfile : isfile w path = false) :
  sent (handle_client w data addr) = [not_found_response]
  /\ opened (handle_client w data addr) = []
  /\ after_observers (handle_client w data addr) = [].
Proof.
  destruct (handle_client_reaches _ _ _ _ Hreach) as (parsed & _ & _ & E).
  rewrite E, (answer_fallthrough _ _ _ Hpath Hskip), (serve_missing _ _ _ Hdir Hfile).
  cbn [try_except fst snd].
  autorewrite with trace. cbn [sent opened after_observers app].
  now repeat split.
Qed.

Lemma missing_target_is_answered_404_witness :
  reaches_resolve demo (delete "/nothing") stranger
  = Some (mkRequest (py "DELETE") (py "/nothing") (py "HTTP/1.1") [] [])
  /\ isdir demo (py "/srv/lynx/root/nothing") = false
  /\ isfile demo (py "/srv/lynx/root/nothing") = false
  /\ sent (handle_client demo (delete "/nothing") stranger) = [not_found_response]
  /\ opened (handle_client demo (delete "/nothing") stranger) = []
  /\ after_observers (handle_client demo (delete "/nothing") stranger) = [].
Proof.
  split; [reflexivity|]. split; [reflexivity|]. split; [reflexivity|].
  apply (missing_target_is_answered_404
           demo (delete "/nothing") stranger
           (mkRequest (py "DELETE") (py "/nothing") (py "HTTP/1.1") [] [])
           (py "/srv/lynx/root/nothing")); reflexivity.
Defined.

(** X20.  A directory without [index.html] whose [rel_path] is not an
    entry of [browsable_dirs] is answered 403, whatever the method: the
    one response sent is the fixed 403, the directory is not enumerated,
    no file is opened and no post-resolution callback is called. *)
Theorem unbrowsable_directory_is_answered_403
        (w : World) (data addr : str) (request : Request) (path rel_path : str)
        (Hreach : reaches_resolve w data addr = Some request)
        (Hpath : sanitize_path w (req_path request) = Some path)
        (Hskip : favicon_applies w request = false)
        (Hdir : isdir w path = true)
        (Hindex : isfile w (Posixpath.join path (py "index.html")) = false)
        (Hrel : rel_path_of w path = Some rel_path)
        (Hclosed : ~ In rel_path (browsable_dirs (config w))) :
  sent (handle_client w data addr) = [forbidden_response]
  /\ listed (handle_client w data addr) = []
  /\ opened (handle_client w data addr) = []
  /\ after_observers (handle_client w data addr) = [].
Proof.
  destruct (handle_client_reaches _ _ _ _ Hreach) as (parsed & _ & _ & E).
  rewrite E, (answer_fallthrough _ _ _ Hpath Hskip).
  rewrite (serve_directory _ _ _ _ Hdir Hindex Hrel).
  destruct (Str.mem rel_path (browsable_dirs (config w))) eqn:Hm.
  { apply mem_In in Hm. contradiction. }
  cbn [try_except fst snd].
  autorewrite with trace. cbn [sent listed opened after_observers app].
  now repeat split.
Qed.

Lemma unbrowsable_directory_is_answered_403_witness :
  reaches_resolve demo (post "/pub" "a=1") stranger
  = Some (mkRequest (py "POST") (py "/pub") (py "HTTP/1.1") [(py "host", py "lynx")]
                    (py "a=1"))
  /\ rel_path_of demo (py "/srv/lynx/root/pub") = Some (py "/pub")
  /\ browsable_dirs (config demo) = [py "/"]
  /\ sent (handle_client demo (post "/pub" "a=1") stranger) = [forbidden_response]
  /\ listed (handle_client demo (post "/pub" "a=1") stranger) = []
  /\ opened (handle_client demo (post "/pub" "a=1") stranger) = []
  /\ after_observers (handle_client demo (post "/pub" "a=1") stranger) = [].
Proof.
  split; [reflexivity|]. split; [reflexivity|]. split; [reflexivity|].
  apply (unbrowsable_directory_is_answered_403
           demo (post "/pub" "a=1") stranger
           (mkRequest (py "POST") (py "/pub") (py "HTTP/1.1") [(py "host", py "lynx")]
                      (py "a=1"))
           (py "/srv/lynx/root/pub") (py "/pub")); try reflexivity.
  vm_compute. intuition discriminate.
Defined.
